(** * Memory Store: a shallow embedding of [storage.ts] / [dist/storage.js]

    The store keeps one SQLite table of memory records and offers
    [addMemory], [getMemory], [listMemories], [updateMemory] and
    [deleteMemory].  This development embeds the normalisation helpers, the
    row mapping and the five operations as Rocq functions over an explicit
    table, and proves the properties the specification states about them.

    Conventions of the embedding.
    - A JavaScript string is a [string]: a sequence of code units in the
      range U+0000..U+00FF.  In that range the code unit order of JavaScript,
      the BINARY collation of SQLite and [String.compare] agree.
    - A JavaScript number is an integer [Z].  The request schemas admit only
      integers for [importance], [minImportance], [maxImportance], [limit]
      and [offset], and the [importance] column is declared INTEGER.
    - An exception is a value of the error monad [result].
    - The clock ([new Date().toISOString()]) and the identifier generator
      ([uuidv4()]) are explicit arguments of the operations that use them. *)

From Stdlib Require Import ZArith NArith List String Ascii Bool Lia Sorted.
Import ListNotations.
Local Open Scope string_scope.
Local Open Scope list_scope.
Local Open Scope Z_scope.

(* ------------------------------------------------------------------------- *)
(** ** Exceptions *)

Inductive exn : Type :=
| TypeError      (* a method is called on a value that does not have it *)
| SyntaxError    (* [JSON.parse] rejects its argument *)
| SqliteError.   (* the engine refuses a statement *)

Inductive result (A : Type) : Type :=
| Ok (a : A)
| Throw (e : exn).

Arguments Ok {A} a.
Arguments Throw {A} e.

Definition bind {A B : Type} (m : result A) (k : A -> result B) : result B :=
  match m with
  | Ok a => k a
  | Throw e => Throw e
  end.

Notation "x <- m ;; k" := (bind m (fun x => k))
  (at level 61, m at next level, right associativity).

Fixpoint mapM {A B : Type} (f : A -> result B) (l : list A) : result (list B) :=
  match l with
  | [] => Ok []
  | a :: l' => b <- f a ;; bs <- mapM f l' ;; Ok (b :: bs)
  end.

(* ------------------------------------------------------------------------- *)
(** ** Strings: [trim] and [toLowerCase] *)

Module Js.

(** White space and line terminators of ECMAScript below U+0100: TAB, LF, VT,
    FF, CR, SPACE and NO-BREAK SPACE. *)
Definition isWhiteSpace (c : ascii) : bool :=
  let n := N_of_ascii c in
  ((9 <=? n) && (n <=? 13) || (n =? 32) || (n =? 160))%N.

(** [String.prototype.trimStart]. *)
Fixpoint trimStart (s : string) : string :=
  match s with
  | EmptyString => EmptyString
  | String c s' => if isWhiteSpace c then trimStart s' else s
  end.

(** [String.prototype.trimEnd]. *)
Fixpoint trimEnd (s : string) : string :=
  match s with
  | EmptyString => EmptyString
  | String c s' =>
      match trimEnd s' with
      | EmptyString => if isWhiteSpace c then EmptyString else String c EmptyString
      | t => String c t
      end
  end.

(** [String.prototype.trim]. *)
Definition trim (s : string) : string := trimEnd (trimStart s).

(** Lower-casing of one code unit: A..Z, and the Latin-1 capitals
    U+00C0..U+00DE apart from the multiplication sign U+00D7. *)
Definition toLowerCaseChar (c : ascii) : ascii :=
  let n := N_of_ascii c in
  if ((65 <=? n) && (n <=? 90) || (192 <=? n) && (n <=? 222) && negb (n =? 215))%N
  then ascii_of_N (n + 32)
  else c.

(** [String.prototype.toLowerCase]. *)
Fixpoint toLowerCase (s : string) : string :=
  match s with
  | EmptyString => EmptyString
  | String c s' => String (toLowerCaseChar c) (toLowerCase s')
  end.

(** [Math.max(0, Math.min(10, x))]. *)
Definition clamp0_10 (x : Z) : Z := Z.max 0 (Z.min 10 x).

End Js.

(* ------------------------------------------------------------------------- *)
(** ** JSON values *)

(** The values [JSON.parse] can return and [JSON.stringify] can print.
    An object is the list of its own properties in enumeration order. *)
#[warnings="-register-all"]
Inductive json : Type :=
| JNull
| JBool (b : bool)
| JNum (z : Z)
| JStr (s : string)
| JArr (l : list json)
| JObj (m : list (string * json)).

(** A [string[]] as a JavaScript value. *)
Definition strs (l : list string) : json := JArr (map JStr l).

(** The empty object literal [{}]. *)
Definition emptyObject : json := JObj [].

(** Truthiness of a JSON value, as tested by [!v] and [if (v)]. *)
Definition truthy (v : json) : bool :=
  match v with
  | JNull => false
  | JBool b => b
  | JNum z => negb (z =? 0)
  | JStr s => negb (s =? "")%string
  | JArr _ | JObj _ => true
  end.

(* ------------------------------------------------------------------------- *)
(** ** [normalizeTags] *)

(** The [Set] named [seen] is a list of the keys added so far; [seen.has] is
    membership. *)
Definition has (seen : list string) (key : string) : bool :=
  existsb (String.eqb key) seen.

(** The [filter] callback of [normalizeTags], run over the trimmed tags from
    left to right with the set [seen] as its state. *)
Fixpoint filterSeen (seen : list string) (tags : list string) : list string :=
  match tags with
  | [] => []
  | tag :: rest =>
      if (tag =? "")%string then filterSeen seen rest            (* if (!tag) return false *)
      else
        let lower := Js.toLowerCase tag in
        if has seen lower then filterSeen seen rest              (* if (seen.has(lower)) return false *)
        else tag :: filterSeen (lower :: seen) rest              (* seen.add(lower); return true *)
  end.

(** [tag.trim()] on an element of unknown type: only a string has the
    method. *)
Definition callTrim (tag : json) : result string :=
  match tag with
  | JStr s => Ok (Js.trim s)
  | _ => Throw TypeError
  end.

(** [object[key]] for an own property of an object. *)
Fixpoint getProperty (m : list (string * json)) (key : string) : option json :=
  match m with
  | [] => None
  | (k, v) :: m' => if String.eqb k key then Some v else getProperty m' key
  end.

(** [tags.length === 0]: an array or a string has a [length]; an object has
    one when it has a property of that name; for any other value the
    property is [undefined], which is not [0]. *)
Definition lengthIsZero (tags : json) : bool :=
  match tags with
  | JArr l => match l with [] => true | _ => false end
  | JStr s => (s =? "")%string
  | JObj m => match getProperty m "length" with Some (JNum 0) => true | _ => false end
  | _ => false
  end.

(** [normalizeTags(tags)].  The argument is [None] for [undefined].  The
    function is untyped at run time: [mapRow] passes it whatever
    [JSON.parse] returned, so a non-empty value that is not an array has no
    [map] method, and an element that is not a string has no [trim]. *)
Definition normalizeTags (tags : option json) : result (list string) :=
  match tags with
  | None => Ok []
  | Some v =>
      if negb (truthy v) || lengthIsZero v then Ok []
      else
        match v with
        | JArr l => trimmed <- mapM callTrim l ;; Ok (filterSeen [] trimmed)
        | _ => Throw TypeError
        end
  end.

(** [normalizeTags] on a typed argument [string[] | null | undefined]. *)
Definition normalized (tags : list string) : list string :=
  filterSeen [] (map Js.trim tags).


(* ------------------------------------------------------------------------- *)
(** ** Table cells *)

(** The content of a TEXT column that is meant to hold JSON ([tags],
    [metadata]), classified by what [JSON.parse] makes of it: the empty
    string, a text the parser rejects, or a text that denotes the value [v].
    The concrete spelling of a JSON text (white space, escapes) is not
    observed by the store and is not represented. *)
Inductive jcell : Type :=
| EmptyText
| Malformed
| JsonText (v : json).

(** [JSON.stringify(v)] for a JSON value. *)
Definition JSON_stringify (v : json) : jcell := JsonText v.

(** [JSON.parse(text)]. *)
Definition JSON_parse (text : jcell) : result json :=
  match text with
  | JsonText v => Ok v
  | EmptyText | Malformed => Throw SyntaxError
  end.

(** [value ?? fallback] where [None] is [undefined]. *)
Definition nullish (value : option json) (fallback : json) : json :=
  match value with
  | None | Some JNull => fallback
  | Some v => v
  end.

(** [serializeJson(value)]: [JSON.stringify(value ?? {})]. *)
Definition serializeJson (value : option json) : jcell :=
  JSON_stringify (nullish value emptyObject).

(** [parseJson(value, fallback)]: the fallback for a falsy cell (the empty
    string) and for a cell [JSON.parse] throws on. *)
Definition parseJson (value : jcell) (fallback : json) : json :=
  match value with
  | EmptyText => fallback                          (* if (!value) return fallback *)
  | _ =>
      match JSON_parse value with
      | Ok v => v                                  (* try { return JSON.parse(value) } *)
      | Throw _ => fallback                        (* catch { return fallback } *)
      end
  end.

(** The content of the [importance] column as the driver hands it to
    JavaScript: [null], a number, or a value of another type.  The column
    has INTEGER affinity, so a text that spells a number is stored as that
    number; a text such as ['0x1F'] is kept as text and read back as a
    string.  Such a cell is represented by [coerced], the integer that
    [Number(...)] makes of it (31 for ['0x1F']); texts that [Number] maps
    outside the integers are not represented. *)
Inductive icell : Type :=
| INull
| IInt (z : Z)
| IOther (coerced : Z).

(* ------------------------------------------------------------------------- *)
(** ** The types of [types.ts] *)

Module MemoryRecord.
Record t : Type := mk {
  id : string;
  title : option string;
  content : string;
  importance : option Z;
  tags : list string;
  metadata : json;
  createdAt : string;
  updatedAt : string
}.
End MemoryRecord.

Module MemoryFilters.
Record t : Type := mk {
  search : option string;
  tags : option (list string);
  minImportance : option Z;
  maxImportance : option Z;
  limit : option Z;
  offset : option Z;
  before : option string;
  after : option string
}.
End MemoryFilters.

Module MemoryListResult.
Record t : Type := mk {
  items : list MemoryRecord.t;
  total : Z;
  limit : Z;
  offset : Z
}.
End MemoryListResult.

Module MemoryCreateInput.
Record t : Type := mk {
  title : option string;
  content : string;
  importance : option Z;
  tags : option (list string);
  metadata : option (list (string * json))
}.
End MemoryCreateInput.

(** A property of an update input: absent ([undefined]), [null], or a
    value. *)
Inductive field (A : Type) : Type :=
| Undefined
| Null
| Value (a : A).

Arguments Undefined {A}.
Arguments Null {A}.
Arguments Value {A} a.

Module MemoryUpdateInput.
Record t : Type := mk {
  id : string;
  title : field string;
  content : option string;
  importance : field Z;
  tags : field (list string);
  metadata : field (list (string * json))
}.
End MemoryUpdateInput.

(* ------------------------------------------------------------------------- *)
(** ** The table [memories] and the SQL statements the store prepares *)

Module Row.
Record t : Type := mk {
  id : string;                   (* TEXT PRIMARY KEY *)
  title : option string;         (* TEXT *)
  content : string;              (* TEXT NOT NULL *)
  importance : icell;            (* INTEGER *)
  tags : jcell;                  (* TEXT NOT NULL DEFAULT '[]' *)
  metadata : jcell;              (* TEXT NOT NULL DEFAULT '{}' *)
  created_at : string;           (* TEXT NOT NULL *)
  updated_at : string            (* TEXT NOT NULL *)
}.
End Row.

(** The rows of the table in storage (rowid) order. *)
Definition table : Type := list Row.t.

Module Sql.

(** SQL truth values: [None] is NULL. *)
Definition bool3 : Type := option bool.

Definition or3 (a b : bool3) : bool3 :=
  match a, b with
  | Some true, _ | _, Some true => Some true
  | Some false, Some false => Some false
  | _, _ => None
  end.

(** Case folding of the LIKE operator: the 26 ASCII letters only. *)
Definition likeFold (c : ascii) : ascii :=
  let n := N_of_ascii c in
  if ((65 <=? n) && (n <=? 90))%N then ascii_of_N (n + 32) else c.

(** An operand as the LIKE operator reads it: both the pattern and the text
    are taken as C strings, which end at the first U+0000. *)
Fixpoint untilNul (s : string) : string :=
  match s with
  | EmptyString => EmptyString
  | String c s' => if Ascii.eqb c Ascii.zero then EmptyString else String c (untilNul s')
  end.

(** The comparison of the LIKE operator: [%] stands for any run of
    characters, [_] for any one character, every other character for itself
    up to [likeFold]. *)
Fixpoint likeMatch (pattern text : string) : bool :=
  match pattern with
  | EmptyString => match text with EmptyString => true | _ => false end
  | String p pattern' =>
      if Ascii.eqb p "%" then
        (fix any (s : string) : bool :=
           likeMatch pattern' s ||
           match s with
           | EmptyString => false
           | String _ s' => any s'
           end) text
      else
        match text with
        | EmptyString => false
        | String c text' =>
            (Ascii.eqb p "_" || Ascii.eqb (likeFold p) (likeFold c)) && likeMatch pattern' text'
        end
  end.

(** [text LIKE pattern]. *)
Definition like (pattern text : string) : bool :=
  likeMatch (untilNul pattern) (untilNul text).

(** [column LIKE pattern] on a nullable column. *)
Definition like3 (column : option string) (pattern : string) : bool3 :=
  match column with
  | None => None
  | Some text => Some (like pattern text)
  end.

(** The rows of [json_each(cell)]: the elements of an array, the member
    values of an object, the value itself otherwise.  A text that is not
    JSON makes the statement fail.  The cells are classified by
    [JSON.parse]; a text that only the engine's parser accepts (a JSON5
    spelling) is not told apart from the other rejected texts. *)
Definition json_each (cell : jcell) : result (list json) :=
  match cell with
  | JsonText (JArr l) => Ok l
  | JsonText (JObj m) => Ok (map snd m)
  | JsonText v => Ok [v]
  | EmptyText | Malformed => Throw SqliteError
  end.

(** [value = @tag] for one row of [json_each], where [@tag] is a text:
    equality of texts is exact (BINARY collation); a JSON null is NULL; a
    number or a boolean is an INTEGER and never equals a text.  A nested
    array or object is handed out as its JSON text, which the abstraction of
    [jcell] does not keep: such an element is taken to equal no tag. *)
Definition valueEq (value : json) (tag : string) : bool3 :=
  match value with
  | JStr s => Some (String.eqb s tag)
  | JNull => None
  | _ => Some false
  end.

(** The fragments the store pushes onto [whereClauses], with the parameter
    each one refers to. *)
Inductive clause : Type :=
| LikeSearch (search : string)    (* (title LIKE @search OR content LIKE @search) *)
| HasTag (tag : string)           (* EXISTS (SELECT 1 FROM json_each(memories.tags) WHERE value = @tagN) *)
| ImportanceGe (n : Z)            (* importance >= @minImportance *)
| ImportanceLe (n : Z)            (* importance <= @maxImportance *)
| UpdatedLe (s : string)          (* updated_at <= @before *)
| UpdatedGe (s : string).         (* updated_at >= @after *)

(** The value of one fragment on one row.  An INTEGER parameter compared
    with a cell that holds a text or a blob is ordered by storage class:
    every number is below every text. *)
Definition evalClause (c : clause) (r : Row.t) : result bool3 :=
  match c with
  | LikeSearch p => Ok (or3 (like3 (Row.title r) p) (Some (like p (Row.content r))))
  | HasTag tag =>
      values <- json_each (Row.tags r) ;;
      Ok (Some (existsb (fun v => match valueEq v tag with Some true => true | _ => false end)
                        values))
  | ImportanceGe n =>
      Ok (match Row.importance r with
          | INull => None
          | IInt z => Some (n <=? z)
          | IOther _ => Some true
          end)
  | ImportanceLe n =>
      Ok (match Row.importance r with
          | INull => None
          | IInt z => Some (z <=? n)
          | IOther _ => Some false
          end)
  | UpdatedLe s => Ok (Some (String.leb (Row.updated_at r) s))
  | UpdatedGe s => Ok (Some (String.leb s (Row.updated_at r)))
  end.

Definition isTrue (b : bool3) : bool :=
  match b with
  | Some true => true
  | _ => false
  end.

(** [WHERE c1 AND ... AND cn] on one row: the row is kept when every
    fragment is true.  The engine may stop at the first fragment that is not
    true; the model evaluates them all, so it fails whenever the engine
    can. *)
Definition whereHolds (where_ : list clause) (r : Row.t) : result bool :=
  values <- mapM (fun c => evalClause c r) where_ ;;
  Ok (forallb isTrue values).

(** [SELECT * FROM memories WHERE ...], in storage order. *)
Fixpoint selectWhere (where_ : list clause) (db : table) : result (list Row.t) :=
  match db with
  | [] => Ok []
  | r :: db' =>
      keep <- whereHolds where_ r ;;
      rest <- selectWhere where_ db' ;;
      Ok (if keep then r :: rest else rest)
  end.

(** [ORDER BY updated_at DESC]: rows with equal keys stay in storage
    order, the order in which a scan of the table or of the index on
    [updated_at] meets them.  The statement itself does not fix the order of
    rows with equal keys. *)
Fixpoint insertDesc (r : Row.t) (sorted : list Row.t) : list Row.t :=
  match sorted with
  | [] => [r]
  | x :: sorted' =>
      if String.ltb (Row.updated_at r) (Row.updated_at x)
      then x :: insertDesc r sorted'
      else r :: sorted
  end.

Definition orderByUpdatedAtDesc (rows : list Row.t) : list Row.t :=
  fold_right insertDesc [] rows.

(** [LIMIT @limit OFFSET @offset]; a negative limit means no limit and a
    negative offset means none.  The engine takes the offset as a 64-bit
    integer and refuses one of 2^63 or more; the model covers the offsets
    below that bound. *)
Definition limitOffset (limit offset : Z) (rows : list Row.t) : list Row.t :=
  let rest := skipn (Z.to_nat offset) rows in
  if limit <? 0 then rest else firstn (Z.to_nat limit) rest.

(** [SELECT * FROM memories WHERE ... ORDER BY updated_at DESC
    LIMIT @limit OFFSET @offset]. *)
Definition selectPage (where_ : list clause) (limit offset : Z) (db : table)
  : result (list Row.t) :=
  rows <- selectWhere where_ db ;;
  Ok (limitOffset limit offset (orderByUpdatedAtDesc rows)).

(** [SELECT COUNT( * ) as count FROM memories WHERE ...]. *)
Definition selectCount (where_ : list clause) (db : table) : result Z :=
  rows <- selectWhere where_ db ;;
  Ok (Z.of_nat (List.length rows)).

(** [SELECT * FROM memories WHERE id = ?], first row. *)
Definition selectById (id : string) (db : table) : option Row.t :=
  find (fun r => String.eqb (Row.id r) id) db.

(** [INSERT INTO memories ...]: refused when the primary key is taken. *)
Definition insert (r : Row.t) (db : table) : result table :=
  match selectById (Row.id r) db with
  | Some _ => Throw SqliteError
  | None => Ok (db ++ [r])
  end.

(** [UPDATE memories SET title = .., content = .., importance = ..,
    tags = .., metadata = .., updated_at = .. WHERE id = @id]. *)
Definition update (id : string) (title : option string) (content : string)
  (importance : icell) (tags metadata : jcell) (updated_at : string) (db : table) : table :=
  map (fun r =>
         if String.eqb (Row.id r) id
         then Row.mk (Row.id r) title content importance tags metadata
                     (Row.created_at r) updated_at
         else r) db.

(** [DELETE FROM memories WHERE id = ?], with the number of rows removed. *)
Definition delete (id : string) (db : table) : nat * table :=
  (List.length (filter (fun r => String.eqb (Row.id r) id) db),
   filter (fun r => negb (String.eqb (Row.id r) id)) db).

End Sql.

(* ------------------------------------------------------------------------- *)
(** ** The store: [MemoryStore] *)

(** A JavaScript string is truthy when it is not empty. *)
Definition nonEmpty (s : string) : bool := negb (String.eqb s "").

(** The cell bound for [importance]:
    [typeof x === "number" ? Math.max(0, Math.min(10, x)) : null]. *)
Definition importanceCell (x : option Z) : icell :=
  match x with
  | Some n => IInt (Js.clamp0_10 n)
  | None => INull
  end.

(** The record field computed by the same expression. *)
Definition importanceField (x : option Z) : option Z :=
  match x with
  | Some n => Some (Js.clamp0_10 n)
  | None => None
  end.

(** [mapRow(row)].  A cell of a TEXT column is never a JavaScript array, so
    of the two branches on [Array.isArray(row.tags)] the second is taken. *)
Definition mapRow (row : Row.t) : result MemoryRecord.t :=
  tags <- normalizeTags (Some (parseJson (Row.tags row) (JArr []))) ;;
  let metadata := parseJson (Row.metadata row) emptyObject in
  Ok (MemoryRecord.mk
        (Row.id row)
        (Row.title row)                              (* row.title ?? null *)
        (Row.content row)
        (match Row.importance row with
         | IInt z => Some (Js.clamp0_10 z)           (* typeof row.importance === "number" *)
         | IOther coerced => Some coerced            (* Number(row.importance) *)
         | INull => None
         end)
        tags
        metadata
        (Row.created_at row)
        (Row.updated_at row)).

(** [addMemory(input)], with the identifier and the time it draws. *)
Definition addMemory (input : MemoryCreateInput.t) (id now : string) (db : table)
  : result (MemoryRecord.t * table) :=
  normalizedTags <- normalizeTags (option_map strs (MemoryCreateInput.tags input)) ;;
  db' <- Sql.insert
           (Row.mk id
                   (MemoryCreateInput.title input)
                   (MemoryCreateInput.content input)
                   (importanceCell (MemoryCreateInput.importance input))
                   (JSON_stringify (strs normalizedTags))
                   (serializeJson (option_map JObj (MemoryCreateInput.metadata input)))
                   now now)
           db ;;
  Ok (MemoryRecord.mk id
        (MemoryCreateInput.title input)
        (MemoryCreateInput.content input)
        (importanceField (MemoryCreateInput.importance input))
        normalizedTags
        (nullish (option_map JObj (MemoryCreateInput.metadata input)) emptyObject)
        now now,
      db').

(** [getMemory(id)]: [None] is the [null] returned for a missing row. *)
Definition getMemory (id : string) (db : table) : result (option MemoryRecord.t) :=
  match Sql.selectById id db with
  | None => Ok None
  | Some row => m <- mapRow row ;; Ok (Some m)
  end.

(** The [whereClauses] that [listMemories] collects from the filters, in the
    order it pushes them. *)
Definition whereClauses (filters : MemoryFilters.t) : result (list Sql.clause) :=
  let bySearch :=
    match MemoryFilters.search filters with
    | Some search =>
        if nonEmpty search && nonEmpty (Js.trim search)
        then [Sql.LikeSearch ("%" ++ Js.trim search ++ "%")%string]
        else []
    | None => []
    end in
  byTags <-
    match MemoryFilters.tags filters with
    | Some tags =>
        if (0 <? List.length tags)%nat
        then (normalizedTags <- normalizeTags (Some (strs tags)) ;;
              Ok (map Sql.HasTag normalizedTags))
        else Ok []
    | None => Ok []
    end ;;
  let byMin :=
    match MemoryFilters.minImportance filters with
    | Some n => [Sql.ImportanceGe n]
    | None => []
    end in
  let byMax :=
    match MemoryFilters.maxImportance filters with
    | Some n => [Sql.ImportanceLe n]
    | None => []
    end in
  let byBefore :=
    match MemoryFilters.before filters with
    | Some before => if nonEmpty before then [Sql.UpdatedLe before] else []
    | None => []
    end in
  let byAfter :=
    match MemoryFilters.after filters with
    | Some after => if nonEmpty after then [Sql.UpdatedGe after] else []
    | None => []
    end in
  Ok (bySearch ++ byTags ++ byMin ++ byMax ++ byBefore ++ byAfter).

(** [Math.min(Math.max(limit, 1), 200)] with the default [limit = 50]. *)
Definition limitSafe (filters : MemoryFilters.t) : Z :=
  let limit := match MemoryFilters.limit filters with Some n => n | None => 50 end in
  Z.min (Z.max limit 1) 200.

(** [Math.max(offset, 0)] with the default [offset = 0]. *)
Definition offsetSafe (filters : MemoryFilters.t) : Z :=
  let offset := match MemoryFilters.offset filters with Some n => n | None => 0 end in
  Z.max offset 0.

(** [listMemories(filters)]. *)
Definition listMemories (filters : MemoryFilters.t) (db : table)
  : result MemoryListResult.t :=
  where_ <- whereClauses filters ;;
  rows <- Sql.selectPage where_ (limitSafe filters) (offsetSafe filters) db ;;
  count <- Sql.selectCount where_ db ;;
  items <- mapM mapRow rows ;;
  Ok (MemoryListResult.mk items count (limitSafe filters) (offsetSafe filters)).

(** The constants [nextTitle], [nextContent], [nextImportance], [nextTags]
    and [nextMetadata] of [updateMemory]. *)
Definition nextTitle (input : MemoryUpdateInput.t) (existing : MemoryRecord.t)
  : option string :=
  match MemoryUpdateInput.title input with
  | Undefined => MemoryRecord.title existing
  | Null => None
  | Value s => Some s
  end.

Definition nextContent (input : MemoryUpdateInput.t) (existing : MemoryRecord.t)
  : string :=
  match MemoryUpdateInput.content input with
  | Some s => s
  | None => MemoryRecord.content existing         (* input.content ?? existing.content *)
  end.

Definition nextImportance (input : MemoryUpdateInput.t) (existing : MemoryRecord.t)
  : option Z :=
  match MemoryUpdateInput.importance input with
  | Undefined => MemoryRecord.importance existing
  | Null => None
  | Value n => Some n
  end.

Definition nextTags (input : MemoryUpdateInput.t) (existing : MemoryRecord.t)
  : result (list string) :=
  match MemoryUpdateInput.tags input with
  | Undefined => Ok (MemoryRecord.tags existing)
  | Null => normalizeTags None                    (* normalizeTags(null ?? undefined) *)
  | Value l => normalizeTags (Some (strs l))
  end.

Definition nextMetadata (input : MemoryUpdateInput.t) (existing : MemoryRecord.t)
  : json :=
  match MemoryUpdateInput.metadata input with
  | Undefined => MemoryRecord.metadata existing
  | Null => emptyObject                           (* null ?? {} *)
  | Value m => JObj m
  end.

(** [updateMemory(input)], with the time it reads. *)
Definition updateMemory (input : MemoryUpdateInput.t) (now : string) (db : table)
  : result (option MemoryRecord.t * table) :=
  found <- getMemory (MemoryUpdateInput.id input) db ;;
  match found with
  | None => Ok (None, db)
  | Some existing =>
      tags <- nextTags input existing ;;
      let db' :=
        Sql.update (MemoryUpdateInput.id input)
                   (nextTitle input existing)
                   (nextContent input existing)
                   (importanceCell (nextImportance input existing))
                   (JSON_stringify (strs tags))
                   (serializeJson (Some (nextMetadata input existing)))
                   now db in
      Ok (Some (MemoryRecord.mk
                  (MemoryRecord.id existing)                     (* ...existing *)
                  (nextTitle input existing)                     (* nextTitle ?? null *)
                  (nextContent input existing)
                  (importanceField (nextImportance input existing))
                  tags
                  (nextMetadata input existing)
                  (MemoryRecord.createdAt existing)              (* ...existing *)
                  now),
          db')
  end.

(** [deleteMemory(id)]: [result.changes > 0]. *)
Definition deleteMemory (id : string) (db : table) : bool * table :=
  let (changes, db') := Sql.delete id db in
  ((0 <? changes)%nat, db').

(* ------------------------------------------------------------------------- *)
(** ** The data model of the specification *)

(** A record as the data model describes it: importance absent or within
    0..10, and a mapping as metadata. *)
Definition validRecord (m : MemoryRecord.t) : bool :=
  match MemoryRecord.importance m with
  | None => true
  | Some i => (0 <=? i) && (i <=? 10)
  end
  &&
  match MemoryRecord.metadata m with
  | JObj _ => true
  | _ => false
  end.

Fixpoint eqbList (a b : list string) : bool :=
  match a, b with
  | [], [] => true
  | x :: a', y :: b' => String.eqb x y && eqbList a' b'
  | _, _ => false
  end.

(** The strings of a JSON array of strings. *)
Fixpoint stringsOf (l : list json) : option (list string) :=
  match l with
  | [] => Some []
  | JStr s :: l' => option_map (cons s) (stringsOf l')
  | _ :: _ => None
  end.

(** A row as the store writes it: importance NULL or an integer within
    0..10, the JSON text of a normalised tag list, the JSON text of an
    object. *)
Definition storedRow (r : Row.t) : bool :=
  match Row.importance r with
  | INull => true
  | IInt z => (0 <=? z) && (z <=? 10)
  | IOther _ => false
  end
  &&
  match Row.tags r with
  | JsonText (JArr l) =>
      match stringsOf l with
      | Some tags => eqbList (normalized tags) tags
      | None => false
      end
  | _ => false
  end
  &&
  match Row.metadata r with
  | JsonText (JObj _) => true
  | _ => false
  end.

(** A table all of whose rows were written by the store. *)
Definition storedTable (db : table) : bool := forallb storedRow db.

(** The WHERE clause that [listMemories] builds, read on a record instead
    of on its row: the search text, trimmed and not empty, matches the title
    or the content as a LIKE pattern; every requested tag, once normalised,
    is one of the record's tags letter for letter; the importance is present
    and within the bounds given; [updatedAt] is within the bounds given.
    This is what the code selects, not what the specification calls a
    matching record: for that see [matchesFilters]. *)
Definition satisfies (filters : MemoryFilters.t) (m : MemoryRecord.t) : bool :=
  match MemoryFilters.search filters with
  | Some search =>
      if nonEmpty (Js.trim search)
      then
        let pattern := ("%" ++ Js.trim search ++ "%")%string in
        match MemoryRecord.title m with
        | Some title => Sql.like pattern title
        | None => false
        end
        || Sql.like pattern (MemoryRecord.content m)
      else true
  | None => true
  end
  &&
  match MemoryFilters.tags filters with
  | Some tags =>
      forallb (fun tag => existsb (String.eqb tag) (MemoryRecord.tags m)) (normalized tags)
  | None => true
  end
  &&
  match MemoryFilters.minImportance filters, MemoryRecord.importance m with
  | Some n, Some i => n <=? i
  | Some _, None => false
  | None, _ => true
  end
  &&
  match MemoryFilters.maxImportance filters, MemoryRecord.importance m with
  | Some n, Some i => i <=? n
  | Some _, None => false
  | None, _ => true
  end
  &&
  match MemoryFilters.before filters with
  | Some before =>
      if nonEmpty before then String.leb (MemoryRecord.updatedAt m) before else true
  | None => true
  end
  &&
  match MemoryFilters.after filters with
  | Some after =>
      if nonEmpty after then String.leb after (MemoryRecord.updatedAt m) else true
  | None => true
  end.

(** Membership of a tag in a tag list when upper and lower case are not
    told apart. *)
Definition hasTagIgnoringCase (tag : string) (tags : list string) : bool :=
  existsb (fun t => String.eqb (Js.toLowerCase t) (Js.toLowerCase tag)) tags.

(** [needle] is a substring of [text]. *)
Fixpoint occursIn (needle text : string) : bool :=
  String.prefix needle text ||
  match text with
  | EmptyString => false
  | String _ text' => occursIn needle text'
  end.

(** A record matching the filters, in the words of the specification (4.1,
    list): [search] is a case-insensitive substring match against the title
    or the content, an empty or whitespace search being no filter; every
    listed tag, after the normalisation of create, is present in the
    record's tag set, tags being told apart up to letter case only (3, and
    the scenario of 8); [minImportance] and [maxImportance] are inclusive
    bounds on the importance; [before] and [after] are inclusive bounds on
    [updatedAt], compared as strings. *)
Definition matchesFilters (filters : MemoryFilters.t) (m : MemoryRecord.t) : bool :=
  match MemoryFilters.search filters with
  | Some search =>
      if nonEmpty (Js.trim search)
      then
        let needle := Js.toLowerCase search in
        match MemoryRecord.title m with
        | Some title => occursIn needle (Js.toLowerCase title)
        | None => false
        end
        || occursIn needle (Js.toLowerCase (MemoryRecord.content m))
      else true
  | None => true
  end
  &&
  match MemoryFilters.tags filters with
  | Some tags =>
      forallb (fun tag => hasTagIgnoringCase tag (MemoryRecord.tags m)) (normalized tags)
  | None => true
  end
  &&
  match MemoryFilters.minImportance filters, MemoryRecord.importance m with
  | Some n, Some i => n <=? i
  | Some _, None => false
  | None, _ => true
  end
  &&
  match MemoryFilters.maxImportance filters, MemoryRecord.importance m with
  | Some n, Some i => i <=? n
  | Some _, None => false
  | None, _ => true
  end
  &&
  match MemoryFilters.before filters with
  | Some before => String.leb (MemoryRecord.updatedAt m) before
  | None => true
  end
  &&
  match MemoryFilters.after filters with
  | Some after => String.leb after (MemoryRecord.updatedAt m)
  | None => true
  end.

(** The meaning of one WHERE fragment on a record. *)
Definition clauseHolds (c : Sql.clause) (m : MemoryRecord.t) : bool :=
  match c with
  | Sql.LikeSearch pattern =>
      match MemoryRecord.title m with
      | Some title => Sql.like pattern title
      | None => false
      end
      || Sql.like pattern (MemoryRecord.content m)
  | Sql.HasTag tag => existsb (String.eqb tag) (MemoryRecord.tags m)
  | Sql.ImportanceGe n =>
      match MemoryRecord.importance m with Some i => n <=? i | None => false end
  | Sql.ImportanceLe n =>
      match MemoryRecord.importance m with Some i => i <=? n | None => false end
  | Sql.UpdatedLe s => String.leb (MemoryRecord.updatedAt m) s
  | Sql.UpdatedGe s => String.leb s (MemoryRecord.updatedAt m)
  end.

(** The rows a WHERE clause keeps. *)
Definition kept (where_ : list Sql.clause) (r : Row.t) : bool :=
  match Sql.whereHolds where_ r with
  | Ok b => b
  | Throw _ => false
  end.

(** A row whose importance is not NULL. *)
Definition hasImportance (r : Row.t) : bool :=
  match Row.importance r with
  | INull => false
  | _ => true
  end.

(** [a] is not below [b] in the order of [ORDER BY updated_at]. *)
Definition notBelow (a b : string) : Prop := String.ltb a b = false.

(** Rows in descending order of [updated_at]: every row is not below any
    later one. *)
Definition rowsDescending : list Row.t -> Prop :=
  StronglySorted (fun x y => notBelow (Row.updated_at x) (Row.updated_at y)).

(** The same filters with another requested page. *)
Definition withPage (filters : MemoryFilters.t) (limit offset : option Z)
  : MemoryFilters.t :=
  MemoryFilters.mk (MemoryFilters.search filters) (MemoryFilters.tags filters)
                   (MemoryFilters.minImportance filters)
                   (MemoryFilters.maxImportance filters)
                   limit offset
                   (MemoryFilters.before filters) (MemoryFilters.after filters).

(** The effective limit and offset as the specification words them. *)
Definition clampedLimit (requested : option Z) : Z :=
  match requested with
  | None => 50
  | Some n => if n <? 1 then 1 else if 200 <? n then 200 else n
  end.

Definition clampedOffset (requested : option Z) : Z :=
  match requested with
  | None => 0
  | Some n => if n <? 0 then 0 else n
  end.

(* ------------------------------------------------------------------------- *)
(** ** Notions for the further properties of the store *)

(** No string occurs twice. *)
Fixpoint distinct (l : list string) : bool :=
  match l with
  | [] => true
  | x :: l' => negb (existsb (String.eqb x) l') && distinct l'
  end.

(** The primary key constraint on [id]: no two rows carry the same id. *)
Definition uniqueIds (db : table) : bool := distinct (map Row.id db).

(** The filters with another [search]. *)
Definition withSearch (filters : MemoryFilters.t) (search : option string)
  : MemoryFilters.t :=
  MemoryFilters.mk search (MemoryFilters.tags filters)
                   (MemoryFilters.minImportance filters)
                   (MemoryFilters.maxImportance filters)
                   (MemoryFilters.limit filters) (MemoryFilters.offset filters)
                   (MemoryFilters.before filters) (MemoryFilters.after filters).

(** The filters with another [tags]. *)
Definition withTags (filters : MemoryFilters.t) (tags : option (list string))
  : MemoryFilters.t :=
  MemoryFilters.mk (MemoryFilters.search filters) tags
                   (MemoryFilters.minImportance filters)
                   (MemoryFilters.maxImportance filters)
                   (MemoryFilters.limit filters) (MemoryFilters.offset filters)
                   (MemoryFilters.before filters) (MemoryFilters.after filters).

(** A request that carries a page and no filter. *)
Definition noFilters (limit offset : option Z) : MemoryFilters.t :=
  MemoryFilters.mk None None None None limit offset None None.

(** A text in which U+0000 does not occur. *)
Fixpoint noNul (s : string) : bool :=
  match s with
  | EmptyString => true
  | String c s' => negb (Ascii.eqb c Ascii.zero) && noNul s'
  end.

(** A text with its ASCII letters folded, as LIKE compares them. *)
Fixpoint foldCase (s : string) : string :=
  match s with
  | EmptyString => EmptyString
  | String c s' => String (Sql.likeFold c) (foldCase s')
  end.

(* ------------------------------------------------------------------------- *)
(** ** The request schema of [memory.add] ([schemas.ts]) *)

Module Zod.

(** [z.string().trim().min(minLength).max(maxLength)]: the value is trimmed
    first, the length checks apply to the trimmed value, and the trimmed
    value is the output.  [None] is a validation error. *)
Definition string (minLength : nat) (maxLength : option nat) (value : String.string)
  : option String.string :=
  let trimmed := Js.trim value in
  if (minLength <=? String.length trimmed)%nat
     && match maxLength with
        | Some n => (String.length trimmed <=? n)%nat
        | None => true
        end
  then Some trimmed
  else None.

(** [z.number().int().min(lo).max(hi)]. *)
Definition int (lo hi : Z) (value : Z) : option Z :=
  if (lo <=? value) && (value <=? hi) then Some value else None.

(** [z.array(element)]. *)
Fixpoint array {A B : Type} (element : A -> option B) (value : list A)
  : option (list B) :=
  match value with
  | [] => Some []
  | a :: value' =>
      match element a, array element value' with
      | Some b, Some bs => Some (b :: bs)
      | _, _ => None
      end
  end.

(** [schema.optional()]: an absent value is accepted as absent. *)
Definition optional {A B : Type} (schema : A -> option B) (value : option A)
  : option (option B) :=
  match value with
  | None => Some None
  | Some a => option_map Some (schema a)
  end.

End Zod.

(** [createMemoryInputSchema]: the arguments of [memory.add] as the handler
    receives them after validation.  [metadata] is [z.record(z.unknown())],
    which accepts every object as it is. *)
Definition createMemoryInputSchema (args : MemoryCreateInput.t)
  : option MemoryCreateInput.t :=
  match Zod.optional (Zod.string 1 (Some 200%nat)) (MemoryCreateInput.title args),
        Zod.string 1 None (MemoryCreateInput.content args),
        Zod.optional (Zod.int 0 10) (MemoryCreateInput.importance args),
        Zod.optional
          (fun tags =>
             if (List.length tags <=? 25)%nat          (* .max(25) *)
             then Zod.array (Zod.string 1 None) tags
             else None)
          (MemoryCreateInput.tags args)
  with
  | Some title, Some content, Some importance, Some tags =>
      Some (MemoryCreateInput.mk title content importance tags
                                 (MemoryCreateInput.metadata args))
  | _, _, _, _ => None
  end.

(* ------------------------------------------------------------------------- *)
(** ** Facts about [trim] *)

Lemma trimStart_head (s : string) :
  match Js.trimStart s with
  | EmptyString => True
  | String c _ => Js.isWhiteSpace c = false
  end.
Proof.
  induction s as [|c s IH]; simpl; [exact I|].
  destruct (Js.isWhiteSpace c) eqn:E; [exact IH | exact E].
Qed.

Lemma trimEnd_head (s : string) :
  match s with
  | EmptyString => True
  | String c _ =>
      Js.isWhiteSpace c = false ->
      exists t, Js.trimEnd s = String c t
  end.
Proof.
  destruct s as [|c s]; [exact I|]. intros Hc. simpl.
  destruct (Js.trimEnd s); [rewrite Hc|]; eauto.
Qed.

Lemma trimEnd_idem (s : string) : Js.trimEnd (Js.trimEnd s) = Js.trimEnd s.
Proof.
  induction s as [|c s IH]; simpl; [reflexivity|].
  destruct (Js.trimEnd s) as [|d t] eqn:E.
  - destruct (Js.isWhiteSpace c) eqn:Hc; simpl; [reflexivity|].
    now rewrite Hc.
  - change (Js.trimEnd (String c (String d t)))
      with (match Js.trimEnd (String d t) with
            | EmptyString => if Js.isWhiteSpace c then EmptyString else String c EmptyString
            | u => String c u
            end).
    now rewrite IH.
Qed.

Lemma trimStart_fixed (s : string) :
  match s with
  | EmptyString => True
  | String c _ => Js.isWhiteSpace c = false
  end -> Js.trimStart s = s.
Proof.
  destruct s as [|c s]; simpl; [reflexivity|]. now intros ->.
Qed.

Lemma trim_idem (s : string) : Js.trim (Js.trim s) = Js.trim s.
Proof.
  unfold Js.trim.
  pose proof (trimStart_head s) as H.
  destruct (Js.trimStart s) as [|c u] eqn:E; [reflexivity|].
  destruct (trimEnd_head (String c u) H) as [t Ht].
  rewrite Ht, trimStart_fixed by exact H.
  rewrite <- Ht. apply trimEnd_idem.
Qed.

(* ------------------------------------------------------------------------- *)
(** ** Facts about [normalizeTags] *)

Lemma bind_Ok {A B : Type} (m : result A) (k : A -> result B) (b : B) :
  bind m k = Ok b -> exists a, m = Ok a /\ k a = Ok b.
Proof.
  destruct m as [a|e]; simpl; [eauto | discriminate].
Qed.

Lemma filterSeen_idem (tags seen : list string) :
  filterSeen seen (filterSeen seen tags) = filterSeen seen tags.
Proof.
  revert seen. induction tags as [|tag rest IH]; intros seen; simpl; [reflexivity|].
  destruct (tag =? "")%string eqn:Hempty; [apply IH|].
  destruct (has seen (Js.toLowerCase tag)) eqn:Hseen; [apply IH|].
  simpl. rewrite Hempty, Hseen. f_equal. apply IH.
Qed.

Lemma filterSeen_Forall (P : string -> Prop) (tags seen : list string) :
  Forall P tags -> Forall P (filterSeen seen tags).
Proof.
  intros H. revert seen. induction H as [|tag rest Htag _ IH]; intros seen; simpl.
  - constructor.
  - destruct (tag =? "")%string; [apply IH|].
    destruct (has seen (Js.toLowerCase tag)); [apply IH|].
    constructor; [exact Htag | apply IH].
Qed.

Lemma map_fixed {A : Type} (f : A -> A) (l : list A) :
  Forall (fun x => f x = x) l -> map f l = l.
Proof.
  induction 1 as [|x l Hx _ IH]; simpl; congruence.
Qed.

Lemma trimmed_Forall (tags : list string) :
  Forall (fun s => Js.trim s = s) (map Js.trim tags).
Proof.
  induction tags; simpl; constructor; auto using trim_idem.
Qed.

Lemma normalized_trimmed (tags : list string) :
  map Js.trim (normalized tags) = normalized tags.
Proof.
  apply map_fixed, filterSeen_Forall, trimmed_Forall.
Qed.

Lemma normalized_idem (tags : list string) :
  normalized (normalized tags) = normalized tags.
Proof.
  unfold normalized at 1. rewrite normalized_trimmed. apply filterSeen_idem.
Qed.

Lemma mapM_callTrim_strs (tags : list string) :
  mapM callTrim (map JStr tags) = Ok (map Js.trim tags).
Proof.
  induction tags as [|tag rest IH]; simpl; [reflexivity|]. now rewrite IH.
Qed.

Lemma normalizeTags_strs (tags : list string) :
  normalizeTags (Some (strs tags)) = Ok (normalized tags).
Proof.
  destruct tags as [|tag rest]; [reflexivity|].
  unfold normalizeTags, strs. cbn [truthy negb orb lengthIsZero map].
  change (JStr tag :: map JStr rest) with (map JStr (tag :: rest)).
  now rewrite mapM_callTrim_strs.
Qed.

Lemma mapM_callTrim_trimmed (l : list json) (trimmed : list string) :
  mapM callTrim l = Ok trimmed -> Forall (fun s => Js.trim s = s) trimmed.
Proof.
  revert trimmed. induction l as [|v l IH]; intros trimmed H; simpl in H.
  - injection H as <-. constructor.
  - destruct v; simpl in H; try discriminate.
    destruct (mapM callTrim l) as [ts|]; simpl in H; [|discriminate].
    injection H as <-. constructor; [apply trim_idem | now apply IH].
Qed.

(** Whatever [normalizeTags] returns is a fixed point of the typed
    normalisation. *)
Lemma normalizeTags_normalized (v : option json) (tags : list string) :
  normalizeTags v = Ok tags -> normalized tags = tags.
Proof.
  unfold normalizeTags. destruct v as [v|]; [|now intros [= <-]].
  destruct (negb (truthy v) || lengthIsZero v); [now intros [= <-]|].
  destruct v; try discriminate.
  intros H. apply bind_Ok in H as (trimmed & Htrim & [= <-]).
  unfold normalized. apply mapM_callTrim_trimmed in Htrim.
  rewrite (map_fixed _ _ (filterSeen_Forall _ _ [] Htrim)). apply filterSeen_idem.
Qed.

(** C7. Tag normalisation (trim, drop empty entries, drop an entry whose
    lower-cased form was seen before) is idempotent: normalising the result
    of a normalisation returns it unchanged; and
    [normalizeTags(["Foo", "foo", " Bar ", ""])] is [["Foo", "Bar"]]. *)
Theorem normalizeTags_idempotent :
  (forall tags : list string,
      exists n, normalizeTags (Some (strs tags)) = Ok n /\
                normalizeTags (Some (strs n)) = Ok n)
  /\ normalizeTags (Some (strs ["Foo"; "foo"; " Bar "; ""])) = Ok ["Foo"; "Bar"].
Proof.
  split; [|reflexivity].
  intros tags. exists (normalized tags). split.
  - apply normalizeTags_strs.
  - rewrite normalizeTags_strs. f_equal. apply normalized_idem.
Qed.

(* ------------------------------------------------------------------------- *)
(** ** Facts about clamping and about reading back what was written *)

Lemma clamp_range (x : Z) : 0 <= Js.clamp0_10 x <= 10.
Proof. unfold Js.clamp0_10. lia. Qed.

Lemma clamp_fixed (x : Z) : 0 <= x <= 10 -> Js.clamp0_10 x = x.
Proof. unfold Js.clamp0_10. lia. Qed.

Lemma clamp_idem (x : Z) : Js.clamp0_10 (Js.clamp0_10 x) = Js.clamp0_10 x.
Proof. apply clamp_fixed, clamp_range. Qed.

(** Reading a row whose cells were produced by the write path gives back
    the values that were written. *)
Lemma mapRow_written (id : string) (title : option string) (content : string)
  (x : option Z) (tags : list string) (metadata : json) (created updated : string) :
  normalized tags = tags ->
  mapRow (Row.mk id title content (importanceCell x) (JSON_stringify (strs tags))
                 (JSON_stringify metadata) created updated)
  = Ok (MemoryRecord.mk id title content (importanceField x) tags metadata created updated).
Proof.
  intros Htags. unfold mapRow. cbn [Row.tags Row.metadata parseJson JSON_stringify JSON_parse].
  rewrite normalizeTags_strs, Htags. cbn [bind].
  destruct x as [n|]; cbn; [now rewrite clamp_idem | reflexivity].
Qed.

Lemma selectById_app (id : string) (db : table) (r : Row.t) :
  Sql.selectById id db = None ->
  Sql.selectById id (db ++ [r]) = if String.eqb (Row.id r) id then Some r else None.
Proof.
  unfold Sql.selectById. induction db as [|x db IH]; simpl; [reflexivity|].
  destruct (String.eqb (Row.id x) id); [discriminate | exact IH].
Qed.

Lemma selectById_update (id : string) (title : option string) (content : string)
  (importance : icell) (tags metadata : jcell) (updated_at : string) (db : table) :
  Sql.selectById id (Sql.update id title content importance tags metadata updated_at db)
  = option_map (fun r => Row.mk (Row.id r) title content importance tags metadata
                                (Row.created_at r) updated_at)
               (Sql.selectById id db).
Proof.
  unfold Sql.selectById, Sql.update. induction db as [|x db IH]; simpl; [reflexivity|].
  destruct (String.eqb (Row.id x) id) eqn:E; simpl; rewrite E; [reflexivity | exact IH].
Qed.

Lemma normalizeTags_typed (tags : option (list string)) :
  normalizeTags (option_map strs tags)
  = Ok (match tags with Some l => normalized l | None => [] end).
Proof.
  destruct tags; simpl; [apply normalizeTags_strs | reflexivity].
Qed.

Lemma normalized_typed (tags : option (list string)) :
  normalized (match tags with Some l => normalized l | None => [] end)
  = match tags with Some l => normalized l | None => [] end.
Proof.
  destruct tags; [apply normalized_idem | reflexivity].
Qed.

(** C6. For every create input and every fresh identifier, [getMemory]
    applied to the id of the record [addMemory] returned gives back that
    same record: id, title, content, importance, tags, metadata, createdAt
    and updatedAt all agree. *)
Theorem getMemory_addMemory (input : MemoryCreateInput.t) (id now : string) (db : table) :
  Sql.selectById id db = None ->
  exists m db',
    addMemory input id now db = Ok (m, db') /\
    MemoryRecord.id m = id /\
    getMemory (MemoryRecord.id m) db' = Ok (Some m).
Proof.
  intros Hfresh. unfold addMemory.
  rewrite normalizeTags_typed. cbn [bind]. unfold Sql.insert. cbn [Row.id].
  rewrite Hfresh. cbn [bind]. eexists _, _. split; [reflexivity|].
  split; [reflexivity|]. cbn [MemoryRecord.id].
  unfold getMemory. rewrite (selectById_app _ _ _ Hfresh). cbn [Row.id].
  rewrite String.eqb_refl. unfold serializeJson.
  rewrite mapRow_written by apply normalized_typed. reflexivity.
Qed.

Lemma getMemory_addMemory_witness :
  exists m db',
    addMemory (MemoryCreateInput.mk (Some "t") "remember X" (Some 20)
                 (Some ["Work"; "work"; "Urgent"]) (Some [("k", JNum 1)]))
              "id-1" "2024-01-01T00:00:00.000Z" [] = Ok (m, db') /\
    MemoryRecord.id m = "id-1" /\
    getMemory (MemoryRecord.id m) db' = Ok (Some m).
Proof.
  apply getMemory_addMemory. reflexivity.
Defined.

Lemma mapM_callTrim_Ok (l : list json) :
  (exists trimmed, mapM callTrim l = Ok trimmed) <-> exists ss, l = map JStr ss.
Proof.
  split.
  - intros [trimmed H]. revert trimmed H.
    induction l as [|v l IH]; intros trimmed H; [now exists []|].
    simpl in H. apply bind_Ok in H as (t & Ht & H).
    apply bind_Ok in H as (ts & Hts & _).
    destruct v; try discriminate. destruct (IH _ Hts) as [ss ->].
    now exists (s :: ss).
  - intros [ss ->]. rewrite mapM_callTrim_strs. eauto.
Qed.

Lemma mapM_callTrim_Throw (l : list json) (e : exn) :
  mapM callTrim l = Throw e -> e = TypeError.
Proof.
  induction l as [|v l IH]; simpl; [discriminate|].
  destruct v; simpl; try (now intros [= <-]).
  destruct (mapM callTrim l); simpl; [discriminate|]. intros [= <-]. now apply IH.
Qed.

(* ------------------------------------------------------------------------- *)
(** ** Reading rows that were not written by the store *)

Lemma parseJson_rejected (cell : jcell) (fallback : json) :
  JSON_parse cell = Throw SyntaxError -> parseJson cell fallback = fallback.
Proof.
  destruct cell; simpl; [reflexivity | reflexivity | discriminate].
Qed.

(** C2, as amended. For every stored row whose [tags] column is empty, is a
    text [JSON.parse] rejects, or holds a JSON value that is not an array
    and is falsy or has a [length] of 0 ([null], [false], [0], the empty
    string, an object whose [length] is 0), [getMemory] and the row mapping
    return the record with the empty tag sequence.  For every stored row
    whose [metadata] column is empty or rejected they return the record with
    the empty mapping whenever the tags of the row can be read, and the
    [metadata] column never fails the read: a read that fails is a
    [TypeError] raised on the tags.  Every other [tags] column that is not
    an array of strings does fail the read, and a [metadata] column that
    holds a JSON value is returned as that value. *)
Theorem getMemory_malformed_json (id : string) (db : table) (row : Row.t) :
  Sql.selectById id db = Some row ->
  (JSON_parse (Row.tags row) = Throw SyntaxError \/
   (exists v, Row.tags row = JsonText v /\ (forall l, v <> JArr l) /\
              negb (truthy v) || lengthIsZero v = true) ->
   exists m, getMemory id db = Ok (Some m) /\ mapRow row = Ok m /\
             MemoryRecord.tags m = []) /\
  (JSON_parse (Row.metadata row) = Throw SyntaxError ->
   forall tags, normalizeTags (Some (parseJson (Row.tags row) (JArr []))) = Ok tags ->
   exists m, getMemory id db = Ok (Some m) /\ mapRow row = Ok m /\
             MemoryRecord.metadata m = emptyObject /\ MemoryRecord.tags m = tags) /\
  (forall e, getMemory id db = Throw e ->
             e = TypeError /\ mapRow row = Throw TypeError /\
             normalizeTags (Some (parseJson (Row.tags row) (JArr []))) = Throw TypeError) /\
  (forall v, Row.tags row = JsonText v ->
             ((forall l, v <> JArr l) /\ negb (truthy v) || lengthIsZero v = false) \/
             (exists l, v = JArr l /\ forall ss, l <> map JStr ss) ->
             getMemory id db = Throw TypeError /\ mapRow row = Throw TypeError) /\
  (forall v m, Row.metadata row = JsonText v -> mapRow row = Ok m ->
               getMemory id db = Ok (Some m) /\ MemoryRecord.metadata m = v).
Proof.
  intros Hrow. unfold getMemory. rewrite Hrow.
  split; [|split; [|split; [|split]]].
  - intros Htags. unfold mapRow.
    assert (E : normalizeTags (Some (parseJson (Row.tags row) (JArr []))) = Ok []).
    { destruct Htags as [Htags | (v & Hv & _ & Hempty)].
      - now rewrite (parseJson_rejected _ _ Htags).
      - rewrite Hv. cbn [parseJson JSON_parse]. unfold normalizeTags. now rewrite Hempty. }
    rewrite E. cbn [bind]. eexists. repeat split.
  - intros Hmeta tags Htags. unfold mapRow. rewrite Htags.
    rewrite (parseJson_rejected _ _ Hmeta). cbn [bind].
    eexists. repeat split.
  - intros e He. unfold mapRow in *.
    destruct (normalizeTags (Some (parseJson (Row.tags row) (JArr [])))) as [tags|e'] eqn:E;
      cbn [bind] in He; [discriminate|].
    injection He as <-. cbn [bind].
    assert (e' = TypeError) as ->; [|now repeat split].
    revert E. generalize (parseJson (Row.tags row) (JArr [])). intros v.
    unfold normalizeTags. destruct (negb (truthy v) || lengthIsZero v); [discriminate|].
    destruct v; try (now intros [= <-]).
    destruct (mapM callTrim l) eqn:El; simpl; [discriminate|].
    intros [= <-]. now apply (mapM_callTrim_Throw l).
  - intros v Hv Hshape. unfold mapRow. rewrite Hv. cbn [parseJson JSON_parse].
    assert (E : normalizeTags (Some v) = Throw TypeError).
    { unfold normalizeTags. destruct Hshape as [[Hnot Hfull] | (l & -> & Hl)].
      - rewrite Hfull. destruct v; try reflexivity. now destruct (Hnot l).
      - destruct l as [|x l]; [now destruct (Hl [])|].
        cbn [truthy negb lengthIsZero orb].
        destruct (mapM callTrim (x :: l)) as [trimmed|e] eqn:El.
        + destruct (proj1 (mapM_callTrim_Ok (x :: l)) (ex_intro _ trimmed El)) as [ss Hss].
          now destruct (Hl ss).
        + apply mapM_callTrim_Throw in El. now subst e. }
    rewrite E. now split.
  - intros v m Hv Hm. rewrite Hm. cbn [bind]. split; [reflexivity|].
    unfold mapRow in Hm. apply bind_Ok in Hm as (tags & _ & [= <-]).
    cbn [MemoryRecord.metadata]. now rewrite Hv.
Qed.

Lemma getMemory_malformed_json_witness :
  let row := Row.mk "m1" None "c" INull Malformed EmptyText "t0" "t1" in
  let row' := Row.mk "m2" None "c" INull (JsonText JNull) (JsonText (JArr [])) "t0" "t1" in
  Sql.selectById "m1" [row] = Some row /\
  (exists m, getMemory "m1" [row] = Ok (Some m) /\ mapRow row = Ok m /\
             MemoryRecord.tags m = []) /\
  (exists m, getMemory "m1" [row] = Ok (Some m) /\ mapRow row = Ok m /\
             MemoryRecord.metadata m = emptyObject /\ MemoryRecord.tags m = []) /\
  (exists m, getMemory "m2" [row'] = Ok (Some m) /\ mapRow row' = Ok m /\
             MemoryRecord.tags m = []).
Proof.
  intros row row'.
  destruct (getMemory_malformed_json "m1" [row] row eq_refl) as (Htags & Hmeta & _).
  destruct (getMemory_malformed_json "m2" [row'] row' eq_refl) as (Htags' & _).
  split; [reflexivity|]. split; [|split].
  - apply Htags. now left.
  - apply Hmeta; reflexivity.
  - apply Htags'. right. exists JNull. repeat split. intros l. discriminate.
Defined.

(** C2, as stated, fails: a [tags] column that holds the well-formed JSON
    text ["abc"] (a string, not an array) makes the read throw, and a
    [metadata] column that holds the well-formed JSON text [5] is returned
    as the number 5, not as the empty mapping. *)
Lemma getMemory_wrong_shape_counterexample :
  let row1 := Row.mk "m1" None "c" INull (JsonText (JStr "abc")) (JsonText emptyObject)
                     "t0" "t1" in
  let row2 := Row.mk "m2" None "c" INull (JsonText (JArr [])) (JsonText (JNum 5))
                     "t0" "t1" in
  getMemory "m1" [row1] = Throw TypeError /\
  ~ (exists m, getMemory "m1" [row1] = Ok (Some m) /\ MemoryRecord.tags m = []) /\
  ~ (exists m, getMemory "m2" [row2] = Ok (Some m) /\ MemoryRecord.metadata m = emptyObject).
Proof.
  cbv zeta. split; [reflexivity|]. split.
  - intros (m & H & _). discriminate H.
  - intros (m & H & Hm). cbv in H. injection H as <-. discriminate Hm.
Qed.

(** Importance at write time: the record [addMemory] returns and the row it
    stores carry an importance that is absent or within 0..10. *)
Lemma importanceField_range (x : option Z) (i : Z) :
  importanceField x = Some i -> 0 <= i <= 10.
Proof.
  destruct x; simpl; [intros [= <-]; apply clamp_range | discriminate].
Qed.

(** Importance at read time, for a cell that holds NULL or a number. *)
Lemma mapRow_importance_range (row : Row.t) (m : MemoryRecord.t) (i : Z) :
  (forall coerced, Row.importance row <> IOther coerced) ->
  mapRow row = Ok m -> MemoryRecord.importance m = Some i -> 0 <= i <= 10.
Proof.
  intros Hcell Hm. unfold mapRow in Hm.
  apply bind_Ok in Hm as (tags & _ & [= <-]). cbn [MemoryRecord.importance].
  destruct (Row.importance row) as [|z|c]; try discriminate.
  - intros [= <-]. apply clamp_range.
  - now destruct (Hcell c).
Qed.

(** C8 at the failing input. Creating with importance 15 returns and stores
    10, creating with -3 returns and stores 0, omitting it yields null; but
    a row whose importance cell holds the text ['0x1F'] is read back with
    importance 31: the branch of [mapRow] for a cell that is not a number
    coerces it and does not clamp. *)
Theorem importance_unclamped_on_read :
  let create x := addMemory (MemoryCreateInput.mk None "c" x None None) "m1" "t0" [] in
  (exists row m, create (Some 15) = Ok (m, [row]) /\
                 MemoryRecord.importance m = Some 10 /\ Row.importance row = IInt 10) /\
  (exists row m, create (Some (-3)) = Ok (m, [row]) /\
                 MemoryRecord.importance m = Some 0 /\ Row.importance row = IInt 0) /\
  (exists row m, create None = Ok (m, [row]) /\
                 MemoryRecord.importance m = None /\ Row.importance row = INull) /\
  let tampered := Row.mk "m2" None "c" (IOther 31) (JsonText (JArr [])) (JsonText emptyObject)
                         "t0" "t1" in
  exists m, getMemory "m2" [tampered] = Ok (Some m) /\ MemoryRecord.importance m = Some 31.
Proof.
  cbv zeta. repeat split; eexists; try eexists; repeat split.
Qed.

(* ------------------------------------------------------------------------- *)
(** ** Partial update *)

Lemma getMemory_found (id : string) (db : table) (m : MemoryRecord.t) :
  getMemory id db = Ok (Some m) ->
  exists row, Sql.selectById id db = Some row /\ mapRow row = Ok m.
Proof.
  unfold getMemory. destruct (Sql.selectById id db) as [row|]; [|discriminate].
  intros H. apply bind_Ok in H as (m' & Hm & [= <-]). eauto.
Qed.

Lemma mapRow_fields (row : Row.t) (m : MemoryRecord.t) :
  mapRow row = Ok m ->
  MemoryRecord.id m = Row.id row /\
  MemoryRecord.title m = Row.title row /\
  MemoryRecord.content m = Row.content row /\
  MemoryRecord.createdAt m = Row.created_at row /\
  MemoryRecord.updatedAt m = Row.updated_at row /\
  normalized (MemoryRecord.tags m) = MemoryRecord.tags m.
Proof.
  unfold mapRow. intros H. apply bind_Ok in H as (tags & Htags & [= <-]).
  cbn. repeat split. eapply normalizeTags_normalized, Htags.
Qed.

Lemma nextTags_normalized (input : MemoryUpdateInput.t) (existing : MemoryRecord.t) :
  normalized (MemoryRecord.tags existing) = MemoryRecord.tags existing ->
  exists tags, nextTags input existing = Ok tags /\ normalized tags = tags.
Proof.
  intros H. unfold nextTags. destruct (MemoryUpdateInput.tags input) as [| |l].
  - eauto.
  - exists []. split; reflexivity.
  - exists (normalized l). split; [apply normalizeTags_strs | apply normalized_idem].
Qed.

(** What [updateMemory] returns for an existing record, the table it
    leaves, and what [getMemory] reads afterwards. *)
Lemma updateMemory_found (input : MemoryUpdateInput.t) (now : string) (db : table)
  (existing : MemoryRecord.t) :
  getMemory (MemoryUpdateInput.id input) db = Ok (Some existing) ->
  exists tags db',
    nextTags input existing = Ok tags /\
    normalized tags = tags /\
    db' = Sql.update (MemoryUpdateInput.id input)
            (nextTitle input existing) (nextContent input existing)
            (importanceCell (nextImportance input existing))
            (JSON_stringify (strs tags))
            (serializeJson (Some (nextMetadata input existing))) now db /\
    updateMemory input now db
    = Ok (Some (MemoryRecord.mk (MemoryRecord.id existing)
                  (nextTitle input existing) (nextContent input existing)
                  (importanceField (nextImportance input existing))
                  tags (nextMetadata input existing)
                  (MemoryRecord.createdAt existing) now), db') /\
    getMemory (MemoryUpdateInput.id input) db'
    = Ok (Some (MemoryRecord.mk (MemoryRecord.id existing)
                  (nextTitle input existing) (nextContent input existing)
                  (importanceField (nextImportance input existing))
                  tags (nullish (Some (nextMetadata input existing)) emptyObject)
                  (MemoryRecord.createdAt existing) now)).
Proof.
  intros Hget. unfold updateMemory. rewrite Hget. cbn [bind].
  apply getMemory_found in Hget as (row & Hrow & Hmap).
  destruct (mapRow_fields _ _ Hmap) as (Hid & _ & _ & Hcreated & _ & Hnorm).
  destruct (nextTags_normalized input existing Hnorm) as (tags & Htags & Htags').
  rewrite Htags. cbn [bind]. eexists _, _.
  split; [reflexivity|]. split; [exact Htags'|]. split; [reflexivity|].
  split; [reflexivity|].
  unfold getMemory. rewrite selectById_update, Hrow. cbn [option_map].
  unfold serializeJson. rewrite mapRow_written by exact Htags'.
  now rewrite Hid, Hcreated.
Qed.

Lemma validRecord_inv (m : MemoryRecord.t) :
  validRecord m = true ->
  (forall i, MemoryRecord.importance m = Some i -> 0 <= i <= 10) /\
  exists o, MemoryRecord.metadata m = JObj o.
Proof.
  unfold validRecord. intros H. apply andb_prop in H as [Hi Hm]. split.
  - intros i E. rewrite E in Hi. lia.
  - destruct (MemoryRecord.metadata m); try discriminate. eauto.
Qed.

Lemma importanceField_valid (m : MemoryRecord.t) :
  validRecord m = true ->
  importanceField (MemoryRecord.importance m) = MemoryRecord.importance m.
Proof.
  intros H. apply validRecord_inv in H as [H _].
  destruct (MemoryRecord.importance m) as [i|]; simpl; [|reflexivity].
  now rewrite clamp_fixed by (apply H; reflexivity).
Qed.

Lemma nextMetadata_object (input : MemoryUpdateInput.t) (existing : MemoryRecord.t) :
  validRecord existing = true ->
  exists o, nextMetadata input existing = JObj o.
Proof.
  intros H. apply validRecord_inv in H as [_ [o Ho]]. unfold nextMetadata.
  destruct (MemoryUpdateInput.metadata input); eauto. exists []. reflexivity.
Qed.

Lemma importanceField_fixed (x : option Z) :
  (forall i, x = Some i -> 0 <= i <= 10) -> importanceField x = x.
Proof.
  intros H. destruct x as [i|]; simpl; [|reflexivity].
  now rewrite clamp_fixed by (apply H; reflexivity).
Qed.

Lemma nullish_value (v : json) : v <> JNull -> nullish (Some v) emptyObject = v.
Proof.
  intros H. destruct v; try reflexivity. now destruct H.
Qed.

(** C4, as stated, fails.  A row whose [metadata] column holds the JSON text
    [null] is read as a record with metadata null; an update of the title
    alone returns that record with metadata null, writes [{}] (the update
    stores [nextMetadata ?? {}]), and the record read back has the empty
    mapping as metadata: the omitted field changed.  On the row whose
    importance cell holds the text ['0x1F'], which is read with importance
    31, the same update returns and stores importance 10. *)
Lemma updateMemory_omitted_counterexample :
  let input id := MemoryUpdateInput.mk id (Value "t") None Undefined Undefined Undefined in
  let row1 := Row.mk "m1" None "c" INull (JsonText (JArr [])) (JsonText JNull) "t0" "t1" in
  let row2 := Row.mk "m2" None "c" (IOther 31) (JsonText (JArr [])) (JsonText emptyObject)
                     "t0" "t1" in
  (exists existing updated db' reread,
      getMemory "m1" [row1] = Ok (Some existing) /\
      updateMemory (input "m1") "t2" [row1] = Ok (Some updated, db') /\
      getMemory "m1" db' = Ok (Some reread) /\
      MemoryRecord.metadata existing = JNull /\
      MemoryRecord.metadata updated = JNull /\
      MemoryRecord.metadata reread = emptyObject /\
      MemoryRecord.metadata reread <> MemoryRecord.metadata existing) /\
  (exists existing updated db' reread,
      getMemory "m2" [row2] = Ok (Some existing) /\
      updateMemory (input "m2") "t2" [row2] = Ok (Some updated, db') /\
      getMemory "m2" db' = Ok (Some reread) /\
      MemoryRecord.importance existing = Some 31 /\
      MemoryRecord.importance updated = Some 10 /\
      MemoryRecord.importance reread = Some 10 /\
      MemoryRecord.importance updated <> MemoryRecord.importance existing).
Proof.
  cbv zeta. split.
  - do 4 eexists. repeat split. discriminate.
  - do 4 eexists. repeat split. discriminate.
Qed.

(** C4, as amended. For every existing record and every update input,
    [updateMemory] returns a record and [getMemory] reads a record back such
    that, in both, [id] and [createdAt] are unchanged, [updatedAt] is the
    current time and every omitted field keeps the value it had: the title,
    the content and the tags always, the importance when it was null or
    within 0..10, and the metadata always in the record returned and, in the
    record read back, unless it was the JSON value null, which is read back
    as the empty mapping. *)
Theorem updateMemory_preserves_omitted (input : MemoryUpdateInput.t) (now : string)
  (db : table) (existing : MemoryRecord.t) :
  getMemory (MemoryUpdateInput.id input) db = Ok (Some existing) ->
  exists updated db' reread,
    updateMemory input now db = Ok (Some updated, db') /\
    getMemory (MemoryUpdateInput.id input) db' = Ok (Some reread) /\
    (MemoryRecord.id updated = MemoryRecord.id existing /\
     MemoryRecord.id reread = MemoryRecord.id existing) /\
    (MemoryRecord.createdAt updated = MemoryRecord.createdAt existing /\
     MemoryRecord.createdAt reread = MemoryRecord.createdAt existing) /\
    (MemoryRecord.updatedAt updated = now /\ MemoryRecord.updatedAt reread = now) /\
    (MemoryUpdateInput.title input = Undefined ->
     MemoryRecord.title updated = MemoryRecord.title existing /\
     MemoryRecord.title reread = MemoryRecord.title existing) /\
    (MemoryUpdateInput.content input = None ->
     MemoryRecord.content updated = MemoryRecord.content existing /\
     MemoryRecord.content reread = MemoryRecord.content existing) /\
    (MemoryUpdateInput.tags input = Undefined ->
     MemoryRecord.tags updated = MemoryRecord.tags existing /\
     MemoryRecord.tags reread = MemoryRecord.tags existing) /\
    (MemoryUpdateInput.importance input = Undefined ->
     (forall i, MemoryRecord.importance existing = Some i -> 0 <= i <= 10) ->
     MemoryRecord.importance updated = MemoryRecord.importance existing /\
     MemoryRecord.importance reread = MemoryRecord.importance existing) /\
    (MemoryUpdateInput.metadata input = Undefined ->
     MemoryRecord.metadata updated = MemoryRecord.metadata existing /\
     (MemoryRecord.metadata existing <> JNull ->
      MemoryRecord.metadata reread = MemoryRecord.metadata existing) /\
     (MemoryRecord.metadata existing = JNull ->
      MemoryRecord.metadata reread = emptyObject)).
Proof.
  intros Hget.
  destruct (updateMemory_found input now db existing Hget)
    as (tags & db' & Htags & _ & _ & Hupd & Hread).
  eexists _, db', _. split; [exact Hupd|]. split; [exact Hread|].
  cbn [MemoryRecord.id MemoryRecord.createdAt MemoryRecord.updatedAt MemoryRecord.title
       MemoryRecord.content MemoryRecord.importance MemoryRecord.tags
       MemoryRecord.metadata].
  split; [now split|]. split; [now split|]. split; [now split|].
  split; [|split; [|split; [|split]]].
  - unfold nextTitle. now intros ->.
  - unfold nextContent. now intros ->.
  - unfold nextTags in Htags. intros E. rewrite E in Htags. injection Htags as <-.
    now split.
  - unfold nextImportance. intros -> Hrange.
    rewrite (importanceField_fixed _ Hrange). now split.
  - unfold nextMetadata. intros ->. split; [reflexivity|]. split.
    + apply nullish_value.
    + now intros ->.
Qed.

Lemma updateMemory_preserves_omitted_witness :
  let row := Row.mk "id-1" (Some "old") "remember X" (IInt 10)
                    (JsonText (strs ["Work"; "Urgent"])) (JsonText (JObj [("k", JNum 1)]))
                    "2024-01-01" "2024-01-01" in
  let existing := MemoryRecord.mk "id-1" (Some "old") "remember X" (Some 10)
                    ["Work"; "Urgent"] (JObj [("k", JNum 1)]) "2024-01-01" "2024-01-01" in
  let input := MemoryUpdateInput.mk "id-1" (Value "new") None Undefined Undefined Undefined in
  getMemory "id-1" [row] = Ok (Some existing) /\
  exists updated db' reread,
    updateMemory input "2024-02-02" [row] = Ok (Some updated, db') /\
    getMemory "id-1" db' = Ok (Some reread) /\
    (MemoryRecord.createdAt updated = "2024-01-01" /\
     MemoryRecord.createdAt reread = "2024-01-01") /\
    (MemoryRecord.updatedAt updated = "2024-02-02" /\
     MemoryRecord.updatedAt reread = "2024-02-02") /\
    (MemoryRecord.content updated = "remember X" /\
     MemoryRecord.content reread = "remember X") /\
    (MemoryRecord.tags updated = ["Work"; "Urgent"] /\
     MemoryRecord.tags reread = ["Work"; "Urgent"]) /\
    (MemoryRecord.importance updated = Some 10 /\
     MemoryRecord.importance reread = Some 10) /\
    MemoryRecord.metadata updated = JObj [("k", JNum 1)] /\
    MemoryRecord.metadata reread = JObj [("k", JNum 1)].
Proof.
  intros row existing input.
  split; [reflexivity|].
  destruct (updateMemory_preserves_omitted input "2024-02-02" [row] existing eq_refl)
    as (updated & db' & reread & Hupd & Hread & _ & Hcreated & Hupdated & _ & Hcontent
        & Htags & Himportance & Hmetadata).
  exists updated, db', reread.
  split; [exact Hupd|]. split; [exact Hread|].
  split; [exact Hcreated|]. split; [exact Hupdated|].
  split; [exact (Hcontent eq_refl)|]. split; [exact (Htags eq_refl)|].
  split; [apply (Himportance eq_refl); intros i [= <-]; lia|].
  destruct (Hmetadata eq_refl) as (Hm & Hm' & _).
  split; [exact Hm|]. apply Hm'. discriminate.
Defined.

(** C5 at the failing input. For every existing record, an update that
    passes an explicit null clears the field, in the record returned and in
    the record read back: title and importance become null, tags the empty
    sequence, metadata the empty mapping; an omitted title, content, tag
    list or metadata is returned unchanged, and an omitted importance is
    returned unchanged when it was null or within 0..10.  But on the row
    whose importance cell holds the text ['0x1F'], which [getMemory] reads
    with importance 31, an update that omits the importance returns 10. *)
Theorem updateMemory_null_clears :
  (forall (input : MemoryUpdateInput.t) (now : string) (db : table)
          (existing : MemoryRecord.t),
      getMemory (MemoryUpdateInput.id input) db = Ok (Some existing) ->
      exists updated db' reread,
        updateMemory input now db = Ok (Some updated, db') /\
        getMemory (MemoryUpdateInput.id input) db' = Ok (Some reread) /\
        (MemoryUpdateInput.title input = Null ->
         MemoryRecord.title updated = None /\ MemoryRecord.title reread = None) /\
        (MemoryUpdateInput.importance input = Null ->
         MemoryRecord.importance updated = None /\ MemoryRecord.importance reread = None) /\
        (MemoryUpdateInput.tags input = Null ->
         MemoryRecord.tags updated = [] /\ MemoryRecord.tags reread = []) /\
        (MemoryUpdateInput.metadata input = Null ->
         MemoryRecord.metadata updated = emptyObject /\
         MemoryRecord.metadata reread = emptyObject) /\
        (MemoryUpdateInput.title input = Undefined ->
         MemoryRecord.title updated = MemoryRecord.title existing) /\
        (MemoryUpdateInput.content input = None ->
         MemoryRecord.content updated = MemoryRecord.content existing) /\
        (MemoryUpdateInput.tags input = Undefined ->
         MemoryRecord.tags updated = MemoryRecord.tags existing) /\
        (MemoryUpdateInput.metadata input = Undefined ->
         MemoryRecord.metadata updated = MemoryRecord.metadata existing) /\
        (MemoryUpdateInput.importance input = Undefined ->
         (forall i, MemoryRecord.importance existing = Some i -> 0 <= i <= 10) ->
         MemoryRecord.importance updated = MemoryRecord.importance existing)) /\
  let tampered := Row.mk "m2" None "c" (IOther 31) (JsonText (JArr [])) (JsonText emptyObject)
                         "t0" "t1" in
  let input := MemoryUpdateInput.mk "m2" (Value "t") None Undefined Undefined Undefined in
  exists existing updated db',
    getMemory "m2" [tampered] = Ok (Some existing) /\
    MemoryRecord.importance existing = Some 31 /\
    updateMemory input "t2" [tampered] = Ok (Some updated, db') /\
    MemoryRecord.importance updated = Some 10.
Proof.
  split.
  - intros input now db existing Hget.
    destruct (updateMemory_found input now db existing Hget)
      as (tags & db' & Htags & _ & _ & Hupd & Hread).
    eexists _, db', _. split; [exact Hupd|]. split; [exact Hread|].
    cbn [MemoryRecord.title MemoryRecord.content MemoryRecord.importance MemoryRecord.tags
         MemoryRecord.metadata].
    split; [|split; [|split; [|split; [|split; [|split; [|split; [|split]]]]]]].
    + unfold nextTitle. now intros ->.
    + unfold nextImportance. now intros ->.
    + unfold nextTags in Htags. intros E. rewrite E in Htags.
      injection Htags as <-. now split.
    + unfold nextMetadata. now intros ->.
    + unfold nextTitle. now intros ->.
    + unfold nextContent. now intros ->.
    + unfold nextTags in Htags. intros E. rewrite E in Htags. now injection Htags as <-.
    + unfold nextMetadata. now intros ->.
    + unfold nextImportance. intros -> Hrange. now apply importanceField_fixed.
  - cbv zeta. do 3 eexists. repeat split.
Qed.

(* ------------------------------------------------------------------------- *)
(** ** The order of [ORDER BY updated_at DESC] *)

Lemma ascii_compare_lt_trans (a b c : ascii) :
  Ascii.compare a b = Lt -> Ascii.compare b c = Lt -> Ascii.compare a c = Lt.
Proof.
  unfold Ascii.compare. rewrite !N.compare_lt_iff. lia.
Qed.

Lemma ascii_compare_refl (a : ascii) : Ascii.compare a a = Eq.
Proof. unfold Ascii.compare. apply N.compare_refl. Qed.

Lemma string_compare_lt_trans (a b c : string) :
  String.compare a b = Lt -> String.compare b c = Lt -> String.compare a c = Lt.
Proof.
  revert b c. induction a as [|x a IH]; intros [|y b] [|z c]; simpl;
    try discriminate; try reflexivity.
  destruct (Ascii.compare x y) eqn:Exy; try discriminate;
    destruct (Ascii.compare y z) eqn:Eyz; try discriminate.
  - apply Ascii.compare_eq_iff in Exy, Eyz. subst.
    rewrite ascii_compare_refl. apply IH.
  - apply Ascii.compare_eq_iff in Exy. subst. now rewrite Eyz.
  - apply Ascii.compare_eq_iff in Eyz. subst. now rewrite Exy.
  - now rewrite (ascii_compare_lt_trans _ _ _ Exy Eyz).
Qed.

Lemma notBelow_trans (a b c : string) :
  notBelow a b -> notBelow b c -> notBelow a c.
Proof.
  unfold notBelow, String.ltb. intros Hab Hbc.
  destruct (String.compare a c) eqn:Eac; try reflexivity.
  destruct (String.compare a b) eqn:Eab; try discriminate.
  - apply String.compare_eq_iff in Eab. subst. now rewrite Eac in Hbc.
  - rewrite String.compare_antisym in Eab.
    destruct (String.compare b a) eqn:Eba; try discriminate.
    now rewrite (string_compare_lt_trans _ _ _ Eba Eac) in Hbc.
Qed.

Lemma notBelow_of_ltb (a b : string) : String.ltb a b = true -> notBelow b a.
Proof.
  unfold notBelow, String.ltb. rewrite (String.compare_antisym b a).
  now destruct (String.compare a b).
Qed.

Lemma notBelow_leb (a b : string) : notBelow a b <-> String.leb b a = true.
Proof.
  unfold notBelow, String.ltb, String.leb. rewrite (String.compare_antisym b a).
  destruct (String.compare a b); simpl; split; congruence.
Qed.

Lemma insertDesc_Forall (P : Row.t -> Prop) (r : Row.t) (l : list Row.t) :
  P r -> Forall P l -> Forall P (Sql.insertDesc r l).
Proof.
  intros Hr Hl. induction Hl as [|x l Hx Hl IH]; simpl.
  - now constructor.
  - destruct (String.ltb (Row.updated_at r) (Row.updated_at x)); repeat constructor; auto.
Qed.

Lemma insertDesc_descending (r : Row.t) (l : list Row.t) :
  rowsDescending l -> rowsDescending (Sql.insertDesc r l).
Proof.
  unfold rowsDescending. induction 1 as [|x l Hl IH Hx]; simpl.
  - repeat constructor.
  - destruct (String.ltb (Row.updated_at r) (Row.updated_at x)) eqn:E.
    + constructor; [exact IH|].
      apply insertDesc_Forall; [now apply notBelow_of_ltb | exact Hx].
    + constructor; [now constructor|].
      constructor; [exact E|].
      eapply Forall_impl; [|exact Hx]. intros y Hy. cbv beta in Hy.
      eapply notBelow_trans; [exact E | exact Hy].
Qed.

Lemma orderBy_descending (rows : list Row.t) :
  rowsDescending (Sql.orderByUpdatedAtDesc rows).
Proof.
  induction rows as [|r rows IH]; simpl.
  - constructor.
  - now apply insertDesc_descending.
Qed.

Lemma orderBy_Forall (P : Row.t -> Prop) (rows : list Row.t) :
  Forall P rows -> Forall P (Sql.orderByUpdatedAtDesc rows).
Proof.
  induction 1 as [|r rows Hr _ IH]; simpl; [constructor|].
  now apply insertDesc_Forall.
Qed.

Lemma insertDesc_length (r : Row.t) (l : list Row.t) :
  List.length (Sql.insertDesc r l) = S (List.length l).
Proof.
  induction l as [|x l IH]; simpl; [reflexivity|].
  destruct (String.ltb (Row.updated_at r) (Row.updated_at x)); simpl; congruence.
Qed.

Lemma orderBy_length (rows : list Row.t) :
  List.length (Sql.orderByUpdatedAtDesc rows) = List.length rows.
Proof.
  induction rows as [|r rows IH]; simpl; [reflexivity|].
  now rewrite insertDesc_length, IH.
Qed.

Lemma StronglySorted_skipn {A : Type} (R : A -> A -> Prop) (n : nat) (l : list A) :
  StronglySorted R l -> StronglySorted R (skipn n l).
Proof.
  revert l. induction n as [|n IH]; intros l H; [exact H|].
  destruct l as [|x l]; [exact H|]. simpl. apply IH. now inversion H.
Qed.

Lemma StronglySorted_firstn {A : Type} (R : A -> A -> Prop) (n : nat) (l : list A) :
  StronglySorted R l -> StronglySorted R (firstn n l).
Proof.
  revert l. induction n as [|n IH]; intros l H; [constructor|].
  destruct l as [|x l]; [constructor|]. simpl. inversion H as [|? ? Hl Hx]; subst.
  constructor; [now apply IH|].
  rewrite <- (firstn_skipn n l) in Hx. now apply Forall_app in Hx.
Qed.

Lemma limitOffset_descending (limit offset : Z) (rows : list Row.t) :
  rowsDescending rows -> rowsDescending (Sql.limitOffset limit offset rows).
Proof.
  intros H. unfold Sql.limitOffset, rowsDescending.
  destruct (limit <? 0); [|apply StronglySorted_firstn]; now apply StronglySorted_skipn.
Qed.

Lemma limitOffset_Forall (P : Row.t -> Prop) (limit offset : Z) (rows : list Row.t) :
  Forall P rows -> Forall P (Sql.limitOffset limit offset rows).
Proof.
  intros H. unfold Sql.limitOffset.
  assert (Hs : Forall P (skipn (Z.to_nat offset) rows)).
  { rewrite <- (firstn_skipn (Z.to_nat offset) rows) in H. now apply Forall_app in H. }
  destruct (limit <? 0); [exact Hs|].
  rewrite <- (firstn_skipn (Z.to_nat limit) _) in Hs. now apply Forall_app in Hs.
Qed.

Lemma StronglySorted_split {A : Type} (R : A -> A -> Prop) (l pre mid post : list A)
  (a b : A) :
  StronglySorted R l -> l = pre ++ a :: mid ++ b :: post -> R a b.
Proof.
  intros H ->. revert H. induction pre as [|x pre IH]; simpl; intros H.
  - inversion H as [|? ? _ Ha]; subst.
    apply Forall_app in Ha as [_ Ha]. now inversion Ha.
  - apply IH. now inversion H.
Qed.

Lemma mapM_Forall2 {A B : Type} (f : A -> result B) (l : list A) (bs : list B) :
  mapM f l = Ok bs <-> Forall2 (fun a b => f a = Ok b) l bs.
Proof.
  revert bs. induction l as [|a l IH]; intros bs; simpl; split.
  - intros [= <-]. constructor.
  - intros H. now inversion H.
  - intros H. apply bind_Ok in H as (b & Hb & H).
    apply bind_Ok in H as (bs' & Hbs & [= <-]).
    constructor; [exact Hb | now apply IH].
  - intros H. inversion H as [|? b ? bs' Hb Hbs]; subst.
    rewrite Hb. cbn [bind]. apply IH in Hbs. now rewrite Hbs.
Qed.

Lemma Forall2_StronglySorted {A B : Type} (RA : A -> A -> Prop) (RB : B -> B -> Prop)
  (rel : A -> B -> Prop) (l : list A) (l' : list B) :
  (forall a a' b b', rel a b -> rel a' b' -> RA a a' -> RB b b') ->
  Forall2 rel l l' -> StronglySorted RA l -> StronglySorted RB l'.
Proof.
  intros Hrel H. induction H as [|a b l l' Hab Hl IH]; intros Hs; [constructor|].
  inversion Hs as [|? ? Hs' Ha]; subst. constructor; [now apply IH|].
  clear IH Hs Hs'. induction Hl as [|a' b' l l' Hab' _ IH]; [constructor|].
  inversion Ha; subst. constructor; eauto.
Qed.

(* ------------------------------------------------------------------------- *)
(** ** Filtered listing *)

Lemma selectWhere_filter (where_ : list Sql.clause) (db : table) (rows : list Row.t) :
  Sql.selectWhere where_ db = Ok rows -> rows = filter (kept where_) db.
Proof.
  revert rows. induction db as [|r db IH]; intros rows H; simpl in H.
  - now injection H as <-.
  - apply bind_Ok in H as (keep & Hkeep & H).
    apply bind_Ok in H as (rest & Hrest & [= <-]).
    simpl. unfold kept at 1. rewrite Hkeep, <- (IH rest Hrest). reflexivity.
Qed.

Lemma selectWhere_total (where_ : list Sql.clause) (db : table) :
  Forall (fun r => exists b, Sql.whereHolds where_ r = Ok b) db ->
  Sql.selectWhere where_ db = Ok (filter (kept where_) db).
Proof.
  induction 1 as [|r db [b Hb] _ IH]; simpl; [reflexivity|].
  unfold kept at 1. rewrite Hb, IH. reflexivity.
Qed.

Lemma listMemories_Ok (filters : MemoryFilters.t) (db : table) (r : MemoryListResult.t) :
  listMemories filters db = Ok r ->
  exists where_ rows,
    whereClauses filters = Ok where_ /\
    Sql.selectWhere where_ db = Ok rows /\
    mapM mapRow (Sql.limitOffset (limitSafe filters) (offsetSafe filters)
                   (Sql.orderByUpdatedAtDesc rows)) = Ok (MemoryListResult.items r) /\
    MemoryListResult.total r = Z.of_nat (List.length rows) /\
    MemoryListResult.limit r = limitSafe filters /\
    MemoryListResult.offset r = offsetSafe filters.
Proof.
  unfold listMemories, Sql.selectPage, Sql.selectCount. intros H.
  apply bind_Ok in H as (where_ & Hwhere & H).
  apply bind_Ok in H as (page & Hpage & H).
  apply bind_Ok in Hpage as (rows & Hrows & [= <-]).
  rewrite Hrows in H. cbn [bind] in H.
  apply bind_Ok in H as (items & Hitems & [= <-]).
  exists where_, rows. cbn. repeat split; assumption.
Qed.

Lemma mapRow_updatedAt (row : Row.t) (m : MemoryRecord.t) :
  mapRow row = Ok m -> MemoryRecord.updatedAt m = Row.updated_at row.
Proof.
  intros H. now apply mapRow_fields in H.
Qed.

(* ------------------------------------------------------------------------- *)
(** ** Rows written by the store, and the filters on them *)

Lemma eqbList_eq (a b : list string) : eqbList a b = true -> a = b.
Proof.
  revert b. induction a as [|x a IH]; intros [|y b]; simpl; try discriminate; [reflexivity|].
  intros H. apply andb_prop in H as [Hx Hab].
  apply String.eqb_eq in Hx. subst. f_equal. now apply IH.
Qed.

Lemma stringsOf_strs (l : list json) (tags : list string) :
  stringsOf l = Some tags -> l = map JStr tags.
Proof.
  revert tags. induction l as [|v l IH]; intros tags; simpl.
  - now intros [= <-].
  - destruct v; try discriminate.
    destruct (stringsOf l) as [ts|]; simpl; [|discriminate].
    intros [= <-]. simpl. f_equal. now apply IH.
Qed.

Lemma storedRow_inv (r : Row.t) :
  storedRow r = true ->
  exists tags o,
    Row.tags r = JsonText (strs tags) /\ normalized tags = tags /\
    Row.metadata r = JsonText (JObj o) /\
    (Row.importance r = INull \/
     exists z, Row.importance r = IInt z /\ 0 <= z <= 10).
Proof.
  unfold storedRow. intros H.
  apply andb_prop in H as [H Hmeta]. apply andb_prop in H as [Himp Htags].
  destruct (Row.tags r) as [| |[]]; try discriminate.
  destruct (stringsOf l) as [tags|] eqn:El; [|discriminate].
  apply stringsOf_strs in El. apply eqbList_eq in Htags.
  destruct (Row.metadata r) as [| |[]]; try discriminate.
  exists tags, m. subst l. repeat split; try reflexivity; try assumption.
  destruct (Row.importance r) as [|z|]; [now left | right | discriminate].
  exists z. split; [reflexivity | lia].
Qed.

(** A row the store wrote maps to a record of the data model whose tags and
    importance are those of the row. *)
Lemma mapRow_stored (r : Row.t) :
  storedRow r = true ->
  exists m,
    mapRow r = Ok m /\ validRecord m = true /\
    Row.tags r = JsonText (strs (MemoryRecord.tags m)) /\
    Row.importance r = match MemoryRecord.importance m with
                       | Some i => IInt i
                       | None => INull
                       end.
Proof.
  intros H. apply storedRow_inv in H as (tags & o & Htags & Hnorm & Hmeta & Himp).
  unfold mapRow. rewrite Htags, Hmeta.
  cbn [parseJson JSON_parse]. rewrite normalizeTags_strs, Hnorm. cbn [bind].
  eexists. split; [reflexivity|].
  unfold validRecord. cbn [MemoryRecord.importance MemoryRecord.metadata MemoryRecord.tags].
  destruct Himp as [-> | (z & -> & Hz)].
  - repeat split.
  - rewrite (clamp_fixed z Hz). repeat split. apply andb_true_intro. lia.
Qed.

Lemma existsb_valueEq (tags : list string) (tag : string) :
  existsb (fun v => match Sql.valueEq v tag with Some true => true | _ => false end)
          (map JStr tags)
  = existsb (String.eqb tag) tags.
Proof.
  induction tags as [|t tags IH]; simpl; [reflexivity|].
  rewrite IH, (String.eqb_sym t tag). now destruct (String.eqb tag t).
Qed.

Lemma evalClause_stored (c : Sql.clause) (r : Row.t) (m : MemoryRecord.t) :
  storedRow r = true -> mapRow r = Ok m ->
  exists v, Sql.evalClause c r = Ok v /\ Sql.isTrue v = clauseHolds c m.
Proof.
  intros Hstored Hm.
  destruct (mapRow_stored r Hstored) as (m' & Hm' & _ & Htags & Himp).
  rewrite Hm in Hm'. injection Hm' as <-.
  destruct (mapRow_fields _ _ Hm) as (_ & Htitle & Hcontent & _ & Hupdated & _).
  destruct c as [p|tag|n|n|s|s]; simpl.
  - eexists. split; [reflexivity|]. rewrite Htitle, Hcontent.
    destruct (Row.title r) as [t|]; simpl;
      [destruct (Sql.like p t)|]; destruct (Sql.like p (Row.content r)); reflexivity.
  - rewrite Htags. unfold strs. cbn [Sql.json_each bind].
    eexists. split; [reflexivity|]. cbn [Sql.isTrue]. rewrite existsb_valueEq.
    now destruct (existsb (String.eqb tag) (MemoryRecord.tags m)).
  - rewrite Himp. eexists. split; [reflexivity|].
    destruct (MemoryRecord.importance m) as [i|]; simpl; [|reflexivity].
    now destruct (n <=? i).
  - rewrite Himp. eexists. split; [reflexivity|].
    destruct (MemoryRecord.importance m) as [i|]; simpl; [|reflexivity].
    now destruct (i <=? n).
  - eexists. split; [reflexivity|]. rewrite Hupdated. cbn.
    now destruct (String.leb (Row.updated_at r) s).
  - eexists. split; [reflexivity|]. rewrite Hupdated. cbn.
    now destruct (String.leb s (Row.updated_at r)).
Qed.

Lemma whereHolds_stored (where_ : list Sql.clause) (r : Row.t) (m : MemoryRecord.t) :
  storedRow r = true -> mapRow r = Ok m ->
  Sql.whereHolds where_ r = Ok (forallb (fun c => clauseHolds c m) where_).
Proof.
  intros Hstored Hm. unfold Sql.whereHolds.
  assert (H : exists vs, mapM (fun c => Sql.evalClause c r) where_ = Ok vs /\
                         forallb Sql.isTrue vs = forallb (fun c => clauseHolds c m) where_).
  { induction where_ as [|c cs (vs & Hvs & Hall)]; simpl.
    - exists []. split; reflexivity.
    - destruct (evalClause_stored c r m Hstored Hm) as (v & Hv & Htrue).
      rewrite Hv, Hvs. cbn [bind]. eexists. split; [reflexivity|].
      simpl. now rewrite Htrue, Hall. }
  destruct H as (vs & -> & <-). reflexivity.
Qed.

Lemma trim_nonEmpty (s : string) :
  nonEmpty s && nonEmpty (Js.trim s) = nonEmpty (Js.trim s).
Proof.
  destruct s; reflexivity || apply andb_true_l.
Qed.

Lemma forallb_HasTag (m : MemoryRecord.t) (tags : list string) :
  forallb (fun c => clauseHolds c m) (map Sql.HasTag tags)
  = forallb (fun tag => existsb (String.eqb tag) (MemoryRecord.tags m)) tags.
Proof.
  induction tags as [|t tags IH]; simpl; [reflexivity|]. now rewrite IH.
Qed.

(** The fragments [listMemories] collects say on a record what the filters
    say. *)
Lemma whereClauses_satisfies (filters : MemoryFilters.t) (m : MemoryRecord.t) :
  exists where_,
    whereClauses filters = Ok where_ /\
    forallb (fun c => clauseHolds c m) where_ = satisfies filters m.
Proof.
  unfold whereClauses, satisfies.
  destruct filters as [search tags minI maxI lim off before after].
  cbn [MemoryFilters.search MemoryFilters.tags MemoryFilters.minImportance
       MemoryFilters.maxImportance MemoryFilters.before MemoryFilters.after].
  assert (Htags :
    match tags with
    | Some l =>
        if (0 <? List.length l)%nat
        then (normalizedTags <- normalizeTags (Some (strs l)) ;;
              Ok (map Sql.HasTag normalizedTags))
        else Ok []
    | None => Ok []
    end = Ok (map Sql.HasTag (match tags with Some l => normalized l | None => [] end))).
  { destruct tags as [[|t l]|]; try reflexivity.
    cbn [List.length Nat.ltb Nat.leb]. now rewrite normalizeTags_strs. }
  rewrite Htags. cbn [bind]. eexists. split; [reflexivity|].
  rewrite !forallb_app, !andb_assoc, forallb_HasTag.
  f_equal; [f_equal; [f_equal; [f_equal; [f_equal|]|]|]|].
  - destruct search as [s|]; [|reflexivity].
    rewrite trim_nonEmpty. destruct (nonEmpty (Js.trim s)); [|reflexivity].
    simpl. apply andb_true_r.
  - now destruct tags.
  - destruct minI; simpl; [|reflexivity].
    destruct (MemoryRecord.importance m); [apply andb_true_r | reflexivity].
  - destruct maxI; simpl; [|reflexivity].
    destruct (MemoryRecord.importance m); [apply andb_true_r | reflexivity].
  - destruct before as [s|]; [|reflexivity].
    destruct (nonEmpty s); [|reflexivity]. simpl. apply andb_true_r.
  - destruct after as [s|]; [|reflexivity].
    destruct (nonEmpty s); [|reflexivity]. simpl. apply andb_true_r.
Qed.

Lemma storedTable_Forall (db : table) :
  storedTable db = true -> Forall (fun r => storedRow r = true) db.
Proof.
  unfold storedTable. rewrite forallb_forall, Forall_forall. auto.
Qed.

Lemma mapM_mapRow_stored (rows : list Row.t) :
  Forall (fun r => storedRow r = true) rows ->
  exists ms, mapM mapRow rows = Ok ms.
Proof.
  induction 1 as [|r rows Hr _ [ms IH]]; simpl; [eauto|].
  destruct (mapRow_stored r Hr) as (m & -> & _). rewrite IH. cbn [bind]. eauto.
Qed.

Lemma kept_stored (filters : MemoryFilters.t) (where_ : list Sql.clause) (r : Row.t)
  (m : MemoryRecord.t) :
  whereClauses filters = Ok where_ ->
  storedRow r = true -> mapRow r = Ok m ->
  Sql.whereHolds where_ r = Ok (satisfies filters m) /\
  kept where_ r = satisfies filters m.
Proof.
  intros Hwhere Hstored Hm.
  destruct (whereClauses_satisfies filters m) as (w & Hw & <-).
  rewrite Hwhere in Hw. injection Hw as <-.
  unfold kept. rewrite (whereHolds_stored where_ r m Hstored Hm). now split.
Qed.

Lemma filter_length_Forall2 {A B : Type} (f : A -> bool) (g : B -> bool)
  (l : list A) (l' : list B) :
  Forall2 (fun a b => f a = g b) l l' ->
  List.length (filter f l) = List.length (filter g l').
Proof.
  induction 1 as [|a b l l' Hab _ IH]; simpl; [reflexivity|].
  rewrite Hab. destruct (g b); simpl; congruence.
Qed.

Lemma Forall2_Forall_l {A B : Type} (P : A -> Prop) (Q : B -> Prop) (rel : A -> B -> Prop)
  (l : list A) (l' : list B) :
  (forall a b, P a -> rel a b -> Q b) ->
  Forall2 rel l l' -> Forall P l -> Forall Q l'.
Proof.
  intros HPQ H. induction H as [|a b l l' Hab _ IH]; intros HP; [constructor|].
  inversion HP; subst. constructor; eauto.
Qed.

Lemma Forall_filter {A : Type} (P : A -> Prop) (f : A -> bool) (l : list A) :
  Forall P l -> Forall P (filter f l).
Proof.
  rewrite !Forall_forall. intros H a Ha. apply filter_In in Ha. now apply H.
Qed.

Lemma limitSafe_clamped (filters : MemoryFilters.t) :
  limitSafe filters = clampedLimit (MemoryFilters.limit filters) /\
  1 <= limitSafe filters <= 200.
Proof.
  unfold limitSafe, clampedLimit. destruct (MemoryFilters.limit filters) as [n|].
  - destruct (Z.ltb_spec n 1); [lia|]. destruct (Z.ltb_spec 200 n); lia.
  - lia.
Qed.

Lemma offsetSafe_clamped (filters : MemoryFilters.t) :
  offsetSafe filters = clampedOffset (MemoryFilters.offset filters) /\
  0 <= offsetSafe filters.
Proof.
  unfold offsetSafe, clampedOffset. destruct (MemoryFilters.offset filters) as [n|].
  - destruct (Z.ltb_spec n 0); lia.
  - lia.
Qed.

Lemma limitOffset_length (limit offset : Z) (rows : list Row.t) :
  1 <= limit -> 0 <= offset ->
  Z.of_nat (List.length (Sql.limitOffset limit offset rows))
  = Z.min limit (Z.max 0 (Z.of_nat (List.length rows) - offset)).
Proof.
  intros Hl Ho. unfold Sql.limitOffset.
  destruct (Z.ltb_spec limit 0); [lia|].
  rewrite length_firstn, length_skipn. lia.
Qed.

Lemma whereClauses_withPage (filters : MemoryFilters.t) (limit offset : option Z) :
  whereClauses (withPage filters limit offset) = whereClauses filters.
Proof. reflexivity. Qed.

(** A table the store wrote can always be listed. *)
Lemma listMemories_stored (filters : MemoryFilters.t) (db : table) :
  storedTable db = true ->
  exists where_ items,
    whereClauses filters = Ok where_ /\
    mapM mapRow (Sql.limitOffset (limitSafe filters) (offsetSafe filters)
                   (Sql.orderByUpdatedAtDesc (filter (kept where_) db))) = Ok items /\
    listMemories filters db
    = Ok (MemoryListResult.mk items (Z.of_nat (List.length (filter (kept where_) db)))
            (limitSafe filters) (offsetSafe filters)).
Proof.
  intros Hdb. apply storedTable_Forall in Hdb.
  destruct (whereClauses_satisfies filters
              (MemoryRecord.mk "" None "" None [] JNull "" "")) as (where_ & Hwhere & _).
  assert (Hrows : Sql.selectWhere where_ db = Ok (filter (kept where_) db)).
  { apply selectWhere_total. eapply Forall_impl; [|exact Hdb].
    intros r Hr. destruct (mapRow_stored r Hr) as (m & Hm & _).
    eexists. apply (kept_stored filters where_ r m Hwhere Hr Hm). }
  destruct (mapM_mapRow_stored
              (Sql.limitOffset (limitSafe filters) (offsetSafe filters)
                 (Sql.orderByUpdatedAtDesc (filter (kept where_) db)))) as [items Hitems].
  { now apply limitOffset_Forall, orderBy_Forall, Forall_filter. }
  exists where_, items. split; [exact Hwhere|]. split; [exact Hitems|].
  unfold listMemories, Sql.selectPage, Sql.selectCount.
  rewrite Hwhere. cbn [bind]. rewrite Hrows. cbn [bind]. rewrite Hitems. reflexivity.
Qed.

(* ------------------------------------------------------------------------- *)
(** ** Ordering of the listing *)

(** C9. [listMemories] returns a result on every table the store wrote, and
    in every result it returns, whatever the filters, a record that comes
    before another one in [items] has an [updatedAt] that is not smaller,
    the timestamps being compared as strings. *)
Theorem listMemories_ordered (filters : MemoryFilters.t) (db : table) :
  (storedTable db = true -> exists r, listMemories filters db = Ok r) /\
  forall (r : MemoryListResult.t) (pre mid post : list MemoryRecord.t)
         (a b : MemoryRecord.t),
    listMemories filters db = Ok r ->
    MemoryListResult.items r = pre ++ a :: mid ++ b :: post ->
    String.leb (MemoryRecord.updatedAt b) (MemoryRecord.updatedAt a) = true.
Proof.
  split.
  { intros Hdb. destruct (listMemories_stored filters db Hdb) as (? & ? & _ & _ & H).
    eauto. }
  intros r pre mid post a b Hlist Hitems.
  apply listMemories_Ok in Hlist as (where_ & rows & _ & _ & Hmap & _).
  apply mapM_Forall2 in Hmap. apply notBelow_leb.
  refine (StronglySorted_split
            (fun x y => notBelow (MemoryRecord.updatedAt x) (MemoryRecord.updatedAt y))
            _ _ _ _ _ _ _ Hitems).
  eapply (Forall2_StronglySorted
            (fun x y => notBelow (Row.updated_at x) (Row.updated_at y)));
    [|exact Hmap|].
  - intros x x' y y' Hx Hx' Hxx'. cbv beta in Hx, Hx', Hxx'.
    now rewrite (mapRow_updatedAt _ _ Hx), (mapRow_updatedAt _ _ Hx').
  - apply limitOffset_descending, orderBy_descending.
Qed.

Lemma listMemories_ordered_witness :
  let row id updated := Row.mk id None "c" INull (JsonText (JArr [])) (JsonText emptyObject)
                               "2024-01-01" updated in
  let rec id updated := MemoryRecord.mk id None "c" None [] emptyObject "2024-01-01" updated in
  let db := [row "a" "2024-01-02"; row "b" "2024-03-01"; row "c" "2024-02-01"] in
  let filters := MemoryFilters.mk None None None None None None None None in
  storedTable db = true /\
  (exists r, listMemories filters db = Ok r) /\
  listMemories filters db
  = Ok (MemoryListResult.mk
          [rec "b" "2024-03-01"; rec "c" "2024-02-01"; rec "a" "2024-01-02"] 3 50 0) /\
  String.leb "2024-01-02" "2024-03-01" = true.
Proof.
  intros row rec db filters.
  destruct (listMemories_ordered filters db) as [Htotal Hordered].
  split; [reflexivity|]. split; [apply Htotal; reflexivity|]. split; [reflexivity|].
  exact (Hordered
           (MemoryListResult.mk
              [rec "b" "2024-03-01"; rec "c" "2024-02-01"; rec "a" "2024-01-02"] 3 50 0)
           [] [rec "c" "2024-02-01"] [] (rec "b" "2024-03-01") (rec "a" "2024-01-02")
           eq_refl eq_refl).
Defined.

(* ------------------------------------------------------------------------- *)
(** ** Pagination *)

(** What every listing that returns says about its page, whatever the
    table and the filters: [limit] and [offset] are the requested ones
    clamped, limit into 1..200 with default 50 and offset to at least 0 with
    default 0; [items] has at most [limit] entries, exactly the smaller of
    [limit] and what is left of [total] after [offset]; and [total] is the
    same for every requested page. *)
Lemma listMemories_page (filters : MemoryFilters.t) (db : table) (r : MemoryListResult.t) :
  listMemories filters db = Ok r ->
  MemoryListResult.limit r = clampedLimit (MemoryFilters.limit filters) /\
  MemoryListResult.offset r = clampedOffset (MemoryFilters.offset filters) /\
  1 <= MemoryListResult.limit r <= 200 /\
  0 <= MemoryListResult.offset r /\
  Z.of_nat (List.length (MemoryListResult.items r)) <= MemoryListResult.limit r /\
  Z.of_nat (List.length (MemoryListResult.items r))
  = Z.min (MemoryListResult.limit r)
          (Z.max 0 (MemoryListResult.total r - MemoryListResult.offset r)) /\
  (forall limit offset r',
      listMemories (withPage filters limit offset) db = Ok r' ->
      MemoryListResult.total r' = MemoryListResult.total r).
Proof.
  intros H.
  destruct (listMemories_Ok _ _ _ H) as (w & rows & Hw & Hrows & Hitems & Htotal & Hl & Ho).
  destruct (limitSafe_clamped filters) as [Hlimit Hlimit'].
  destruct (offsetSafe_clamped filters) as [Hoffset Hoffset'].
  apply mapM_Forall2 in Hitems.
  assert (Hlen : Z.of_nat (List.length (MemoryListResult.items r))
                 = Z.min (limitSafe filters)
                     (Z.max 0 (Z.of_nat (List.length rows) - offsetSafe filters))).
  { rewrite <- (Forall2_length Hitems), limitOffset_length by lia.
    now rewrite orderBy_length. }
  rewrite Hl, Ho, Htotal.
  split; [exact Hlimit|]. split; [exact Hoffset|]. split; [exact Hlimit'|].
  split; [exact Hoffset'|]. split; [lia|]. split; [exact Hlen|].
  intros limit offset r' H'.
  destruct (listMemories_Ok _ _ _ H') as (w' & rows' & Hw' & Hrows' & _ & Htotal' & _).
  rewrite whereClauses_withPage, Hw in Hw'. injection Hw' as <-.
  rewrite Hrows in Hrows'. injection Hrows' as <-. exact Htotal'.
Qed.

(** C3 at the failing input. In every listing that returns, [limit] and
    [offset] are the requested ones clamped, [items] has at most [limit]
    entries and [total] does not depend on the page.  But [total] is not
    always the number of records that match the filters: after creating a
    record with tags [Work, work, Urgent] and importance 20, which is stored
    with tags [Work, Urgent] and importance 10 and so matches the filters
    [tags: urgent, minImportance: 5], the listing by these filters returns
    total 0. *)
Theorem listMemories_total_tag_case :
  (forall (filters : MemoryFilters.t) (db : table) (r : MemoryListResult.t),
      listMemories filters db = Ok r ->
      MemoryListResult.limit r = clampedLimit (MemoryFilters.limit filters) /\
      MemoryListResult.offset r = clampedOffset (MemoryFilters.offset filters) /\
      Z.of_nat (List.length (MemoryListResult.items r)) <= MemoryListResult.limit r /\
      (forall limit offset r',
          listMemories (withPage filters limit offset) db = Ok r' ->
          MemoryListResult.total r' = MemoryListResult.total r)) /\
  let input := MemoryCreateInput.mk None "remember X" (Some 20)
                 (Some ["Work"; "work"; "Urgent"]) None in
  let filters := MemoryFilters.mk None (Some ["urgent"]) (Some 5) None None None None None in
  exists m db r,
    addMemory input "id-1" "2024-01-01T00:00:00.000Z" [] = Ok (m, db) /\
    mapM mapRow db = Ok [m] /\
    MemoryRecord.tags m = ["Work"; "Urgent"] /\
    MemoryRecord.importance m = Some 10 /\
    Z.of_nat (List.length (filter (matchesFilters filters) [m])) = 1 /\
    listMemories filters db = Ok r /\
    MemoryListResult.total r = 0 /\
    MemoryListResult.items r = [] /\
    MemoryListResult.limit r = 50 /\
    MemoryListResult.offset r = 0.
Proof.
  split.
  - intros filters db r H.
    destruct (listMemories_page filters db r H) as (Hl & Ho & _ & _ & Hlen & _ & Hpage).
    repeat split; assumption.
  - cbv zeta. do 3 eexists. repeat split.
Qed.

(* ------------------------------------------------------------------------- *)
(** ** Importance bounds and NULL *)

Lemma mapM_In {A B : Type} (f : A -> result B) (l : list A) (bs : list B) (a : A) :
  mapM f l = Ok bs -> In a l -> exists b, f a = Ok b /\ In b bs.
Proof.
  intros H. apply mapM_Forall2 in H. induction H as [|x y l bs Hxy _ IH]; intros Ha.
  - destruct Ha.
  - destruct Ha as [<- | Ha].
    + exists y. split; [exact Hxy | now left].
    + destruct (IH Ha) as (b & Hb & Hin). exists b. split; [exact Hb | now right].
Qed.

Lemma whereClauses_bounds (filters : MemoryFilters.t) (where_ : list Sql.clause) :
  whereClauses filters = Ok where_ ->
  MemoryFilters.minImportance filters <> None \/
  MemoryFilters.maxImportance filters <> None ->
  exists n, In (Sql.ImportanceGe n) where_ \/ In (Sql.ImportanceLe n) where_.
Proof.
  unfold whereClauses. intros H Hbound.
  apply bind_Ok in H as (byTags & _ & [= <-]).
  destruct Hbound as [Hb | Hb].
  - destruct (MemoryFilters.minImportance filters) as [n|]; [|congruence].
    exists n. left. rewrite !in_app_iff. right. right. left. now left.
  - destruct (MemoryFilters.maxImportance filters) as [n|]; [|congruence].
    exists n. right. rewrite !in_app_iff. right. right. right. left. now left.
Qed.

(** A row whose importance is NULL fails every WHERE clause that bounds the
    importance. *)
Lemma whereHolds_null (where_ : list Sql.clause) (r : Row.t) (b : bool) (n : Z) :
  In (Sql.ImportanceGe n) where_ \/ In (Sql.ImportanceLe n) where_ ->
  Row.importance r = INull ->
  Sql.whereHolds where_ r = Ok b -> b = false.
Proof.
  intros Hin Hnull H. unfold Sql.whereHolds in H.
  apply bind_Ok in H as (vs & Hvs & [= <-]).
  assert (Hnone : In None vs).
  { destruct Hin as [Hin | Hin];
      destruct (mapM_In _ _ _ _ Hvs Hin) as (v & Hv & Hv');
      simpl in Hv; rewrite Hnull in Hv; now injection Hv as <-. }
  destruct (forallb Sql.isTrue vs) eqn:E; [|reflexivity].
  rewrite forallb_forall in E. now specialize (E None Hnone).
Qed.

Lemma selectWhere_without_null (where_ : list Sql.clause) (db : table)
  (rows : list Row.t) (n : Z) :
  In (Sql.ImportanceGe n) where_ \/ In (Sql.ImportanceLe n) where_ ->
  Sql.selectWhere where_ db = Ok rows ->
  Sql.selectWhere where_ (filter hasImportance db) = Ok rows /\
  Forall (fun r => hasImportance r = true) rows.
Proof.
  intros Hin. revert rows. induction db as [|r db IH]; intros rows H; simpl in H.
  - injection H as <-. split; [reflexivity | constructor].
  - apply bind_Ok in H as (keep & Hkeep & H).
    apply bind_Ok in H as (rest & Hrest & [= <-]).
    destruct (IH rest Hrest) as [IH1 IH2]. simpl.
    destruct (hasImportance r) eqn:Er.
    + simpl. rewrite Hkeep, IH1. cbn [bind]. split; [reflexivity|].
      destruct keep; [constructor|]; assumption.
    + assert (keep = false) as ->.
      { apply (whereHolds_null where_ r keep n Hin); [|exact Hkeep].
        unfold hasImportance in Er. now destruct (Row.importance r). }
      now split.
Qed.

Lemma mapRow_importance (row : Row.t) (m : MemoryRecord.t) :
  mapRow row = Ok m -> hasImportance row = true -> MemoryRecord.importance m <> None.
Proof.
  unfold mapRow, hasImportance. intros H. apply bind_Ok in H as (tags & _ & [= <-]).
  cbn [MemoryRecord.importance]. now destruct (Row.importance row).
Qed.

(** C10. Whenever the filters carry [minImportance] or [maxImportance] (or
    both), [listMemories] returns a result on every table the store wrote,
    and a row whose importance is NULL is excluded from [items] and from
    [total]: every result it returns is the result on the table without its
    NULL-importance rows, and no item has a null importance. *)
Theorem listMemories_excludes_null_importance (filters : MemoryFilters.t) (db : table) :
  MemoryFilters.minImportance filters <> None \/
  MemoryFilters.maxImportance filters <> None ->
  (storedTable db = true -> exists r, listMemories filters db = Ok r) /\
  forall r : MemoryListResult.t,
    listMemories filters db = Ok r ->
    listMemories filters (filter hasImportance db) = Ok r /\
    Forall (fun m => MemoryRecord.importance m <> None) (MemoryListResult.items r).
Proof.
  intros Hbound. split.
  { intros Hdb. destruct (listMemories_stored filters db Hdb) as (? & ? & _ & _ & H).
    eauto. }
  intros r Hlist.
  destruct (listMemories_Ok _ _ _ Hlist)
    as (where_ & rows & Hwhere & Hrows & Hitems & Htotal & Hlimit & Hoffset).
  destruct (whereClauses_bounds _ _ Hwhere Hbound) as [n Hin].
  destruct (selectWhere_without_null _ _ _ _ Hin Hrows) as [Hrows' Hnonnull].
  split.
  - unfold listMemories, Sql.selectPage, Sql.selectCount.
    rewrite Hwhere. cbn [bind]. rewrite Hrows'. cbn [bind]. rewrite Hitems. cbn [bind].
    destruct r as [items total limit offset]. cbn in Htotal, Hlimit, Hoffset |- *.
    now rewrite Htotal, Hlimit, Hoffset.
  - apply mapM_Forall2 in Hitems.
    eapply (Forall2_Forall_l (fun row => hasImportance row = true)); [|exact Hitems|].
    + intros row m Hrow Hm. now apply (mapRow_importance row m).
    + now apply limitOffset_Forall, orderBy_Forall.
Qed.

Lemma listMemories_excludes_null_importance_witness :
  let row id importance updated :=
    Row.mk id None "c" importance (JsonText (JArr [])) (JsonText emptyObject)
           "2024-01-01" updated in
  let rec id importance updated :=
    MemoryRecord.mk id None "c" importance [] emptyObject "2024-01-01" updated in
  let db := [row "a" (IInt 7) "2024-01-02"; row "b" INull "2024-03-01";
             row "c" (IInt 0) "2024-02-01"] in
  let filters := MemoryFilters.mk None None (Some 0) None None None None None in
  let r := MemoryListResult.mk [rec "c" (Some 0) "2024-02-01"; rec "a" (Some 7) "2024-01-02"]
                               2 50 0 in
  (exists r', listMemories filters db = Ok r') /\
  listMemories filters db = Ok r /\
  listMemories filters [row "a" (IInt 7) "2024-01-02"; row "c" (IInt 0) "2024-02-01"] = Ok r /\
  Forall (fun m => MemoryRecord.importance m <> None) (MemoryListResult.items r).
Proof.
  intros row rec db filters r.
  destruct (listMemories_excludes_null_importance filters db) as [Htotal Hexcl].
  - left. discriminate.
  - split; [apply Htotal; reflexivity|]. split; [reflexivity|].
    apply (Hexcl r). reflexivity.
Defined.

(* ------------------------------------------------------------------------- *)
(** ** Tag filter *)

(** What the tag filter asks of a record: each requested tag, once
    normalised, occurs in the record's tags letter for letter. *)
Lemma satisfies_tags (filters : MemoryFilters.t) (m : MemoryRecord.t)
  (requested : list string) (tag : string) :
  MemoryFilters.tags filters = Some requested ->
  satisfies filters m = true ->
  In tag (normalized requested) -> In tag (MemoryRecord.tags m).
Proof.
  unfold satisfies. intros -> H Hin.
  do 4 (apply andb_prop in H as [H _]). apply andb_prop in H as [_ H].
  rewrite forallb_forall in H. specialize (H tag Hin).
  apply existsb_exists in H as (t & Ht & E). apply String.eqb_eq in E. now subst.
Qed.

(** C1 at the failing input. A record created with tags
    [["Work", "work", "Urgent"]] and importance 20 is stored with tags
    [["Work", "Urgent"]] and importance 10, and its tags contain "urgent"
    when case is ignored; [listMemories] with [tags: ["urgent"]] and
    [minImportance: 5] nevertheless returns no item and a total of 0, while
    the same request with [tags: ["Urgent"]] returns the record: the tag
    filter compares [json_each] values with the requested tag letter for
    letter. *)
Theorem listMemories_tags_case_sensitive :
  let now := "2024-01-01T00:00:00.000Z" in
  let input := MemoryCreateInput.mk None "remember X" (Some 20)
                 (Some ["Work"; "work"; "Urgent"]) None in
  let m := MemoryRecord.mk "id-1" None "remember X" (Some 10) ["Work"; "Urgent"]
             emptyObject now now in
  let byTag tag := MemoryFilters.mk None (Some [tag]) (Some 5) None None None None None in
  exists db,
    addMemory input "id-1" now [] = Ok (m, db) /\
    hasTagIgnoringCase "urgent" (MemoryRecord.tags m) = true /\
    listMemories (byTag "urgent") db = Ok (MemoryListResult.mk [] 0 50 0) /\
    listMemories (byTag "Urgent") db = Ok (MemoryListResult.mk [m] 1 50 0).
Proof.
  cbv zeta. eexists. repeat split.
Qed.

(* ------------------------------------------------------------------------- *)
(** ** The store keeps its table well formed *)

Lemma eqbList_refl (l : list string) : eqbList l l = true.
Proof.
  induction l as [|x l IH]; simpl; [reflexivity|]. now rewrite String.eqb_refl.
Qed.

Lemma stringsOf_map (l : list string) : stringsOf (map JStr l) = Some l.
Proof.
  induction l as [|x l IH]; simpl; [reflexivity|]. now rewrite IH.
Qed.

Lemma storedRow_written (id : string) (title : option string) (content : string)
  (x : option Z) (tags : list string) (o : list (string * json)) (created updated : string) :
  normalized tags = tags ->
  storedRow (Row.mk id title content (importanceCell x) (JSON_stringify (strs tags))
                    (JSON_stringify (JObj o)) created updated) = true.
Proof.
  intros Htags. unfold storedRow, strs, JSON_stringify.
  cbn [Row.importance Row.tags Row.metadata].
  rewrite stringsOf_map, Htags, eqbList_refl.
  destruct x as [n|]; simpl; [|reflexivity].
  pose proof (clamp_range n). rewrite !andb_true_r. apply andb_true_intro. lia.
Qed.

Lemma storedTable_addMemory (input : MemoryCreateInput.t) (id now : string) (db db' : table)
  (m : MemoryRecord.t) :
  storedTable db = true ->
  addMemory input id now db = Ok (m, db') ->
  storedTable db' = true /\ validRecord m = true.
Proof.
  unfold addMemory. rewrite normalizeTags_typed. cbn [bind]. unfold Sql.insert.
  intros Hdb H. destruct (Sql.selectById _ db); [discriminate|].
  cbn [bind] in H. injection H as <- <-. split.
  - unfold storedTable. rewrite forallb_app. cbn [forallb]. rewrite andb_true_r.
    apply andb_true_intro. split; [exact Hdb|]. unfold serializeJson.
    destruct (MemoryCreateInput.metadata input); cbn [option_map nullish emptyObject];
      apply storedRow_written, normalized_typed.
  - unfold validRecord. cbn [MemoryRecord.importance MemoryRecord.metadata].
    apply andb_true_intro. split.
    + destruct (MemoryCreateInput.importance input) as [n|]; simpl; [|reflexivity].
      pose proof (clamp_range n). apply andb_true_intro. lia.
    + now destruct (MemoryCreateInput.metadata input).
Qed.

Lemma storedTable_getMemory (id : string) (db : table) :
  storedTable db = true ->
  exists found,
    getMemory id db = Ok found /\
    forall m, found = Some m -> validRecord m = true.
Proof.
  intros Hdb. unfold getMemory.
  destruct (Sql.selectById id db) as [row|] eqn:Hrow.
  - unfold Sql.selectById in Hrow. apply find_some in Hrow as [Hin _].
    unfold storedTable in Hdb. rewrite forallb_forall in Hdb.
    destruct (mapRow_stored row (Hdb row Hin)) as (m & -> & Hvalid & _).
    cbn [bind]. eexists. split; [reflexivity|]. now intros ? [= <-].
  - eexists. split; [reflexivity|]. discriminate.
Qed.

Lemma storedTable_updateMemory (input : MemoryUpdateInput.t) (now : string) (db : table) :
  storedTable db = true ->
  exists updated db',
    updateMemory input now db = Ok (updated, db') /\
    storedTable db' = true /\
    forall m, updated = Some m -> validRecord m = true.
Proof.
  intros Hdb.
  destruct (storedTable_getMemory (MemoryUpdateInput.id input) db Hdb)
    as ([existing|] & Hget & Hvalid).
  - specialize (Hvalid existing eq_refl).
    destruct (updateMemory_found input now db existing Hget)
      as (tags & db' & _ & Hfixed & Hdb' & Hupd & _).
    destruct (nextMetadata_object input existing Hvalid) as [o Ho].
    eexists _, db'. split; [exact Hupd|]. split.
    + subst db'. unfold storedTable, Sql.update. rewrite forallb_forall.
      intros r Hr. apply in_map_iff in Hr as (r0 & <- & Hr0).
      unfold storedTable in Hdb. rewrite forallb_forall in Hdb.
      destruct (String.eqb (Row.id r0) (MemoryUpdateInput.id input)); [|now apply Hdb].
      unfold serializeJson. rewrite Ho. now apply storedRow_written.
    + intros m [= <-]. unfold validRecord.
      cbn [MemoryRecord.importance MemoryRecord.metadata]. rewrite Ho.
      rewrite andb_true_r.
      destruct (nextImportance input existing) as [n|]; simpl; [|reflexivity].
      pose proof (clamp_range n). apply andb_true_intro. lia.
  - exists None, db. unfold updateMemory. rewrite Hget. cbn [bind].
    split; [reflexivity|]. split; [exact Hdb | discriminate].
Qed.

Lemma storedTable_deleteMemory (id : string) (db : table) :
  storedTable db = true -> storedTable (snd (deleteMemory id db)) = true.
Proof.
  unfold deleteMemory, Sql.delete, storedTable. cbn [snd].
  rewrite !forallb_forall. intros H r Hr. apply filter_In in Hr as [Hr _]. now apply H.
Qed.

(** On a table the store wrote, every record [listMemories] returns is one
    the data model admits. *)
Lemma storedTable_listMemories (filters : MemoryFilters.t) (db : table)
  (r : MemoryListResult.t) :
  storedTable db = true ->
  listMemories filters db = Ok r ->
  Forall (fun m => validRecord m = true) (MemoryListResult.items r).
Proof.
  intros Hdb Hlist.
  destruct (listMemories_Ok _ _ _ Hlist) as (where_ & rows & _ & Hrows & Hitems & _).
  apply selectWhere_filter in Hrows. subst rows. apply mapM_Forall2 in Hitems.
  eapply (Forall2_Forall_l (fun row => storedRow row = true)); [|exact Hitems|].
  - intros row m Hrow Hm. cbv beta in Hm.
    destruct (mapRow_stored row Hrow) as (m' & Hm' & Hvalid & _). congruence.
  - apply limitOffset_Forall, orderBy_Forall, Forall_filter.
    now apply storedTable_Forall.
Qed.

(* ------------------------------------------------------------------------- *)
(** ** Importance of the records returned *)

Lemma addMemory_importance_range (input : MemoryCreateInput.t) (id now : string)
  (db db' : table) (m : MemoryRecord.t) (i : Z) :
  addMemory input id now db = Ok (m, db') ->
  MemoryRecord.importance m = Some i -> 0 <= i <= 10.
Proof.
  unfold addMemory. intros H.
  apply bind_Ok in H as (tags & _ & H). apply bind_Ok in H as (t & _ & [= <- _]).
  apply importanceField_range.
Qed.

Lemma updateMemory_importance_range (input : MemoryUpdateInput.t) (now : string)
  (db db' : table) (m : MemoryRecord.t) (i : Z) :
  updateMemory input now db = Ok (Some m, db') ->
  MemoryRecord.importance m = Some i -> 0 <= i <= 10.
Proof.
  unfold updateMemory. intros H.
  apply bind_Ok in H as ([existing|] & _ & H); [|discriminate].
  apply bind_Ok in H as (tags & _ & [= <- _]).
  apply importanceField_range.
Qed.

(** Reading re-clamps every importance cell that holds a number. *)
Lemma listMemories_importance_range (filters : MemoryFilters.t) (db : table)
  (r : MemoryListResult.t) :
  Forall (fun row => forall coerced, Row.importance row <> IOther coerced) db ->
  listMemories filters db = Ok r ->
  Forall (fun m => forall i, MemoryRecord.importance m = Some i -> 0 <= i <= 10)
         (MemoryListResult.items r).
Proof.
  intros Hdb Hlist.
  destruct (listMemories_Ok _ _ _ Hlist) as (where_ & rows & _ & Hrows & Hitems & _).
  apply selectWhere_filter in Hrows. subst rows. apply mapM_Forall2 in Hitems.
  eapply (Forall2_Forall_l
            (fun row => forall coerced, Row.importance row <> IOther coerced));
    [|exact Hitems|].
  - intros row m Hrow Hm i. now apply (mapRow_importance_range row m i Hrow).
  - now apply limitOffset_Forall, orderBy_Forall, Forall_filter.
Qed.

(* ------------------------------------------------------------------------- *)
(** ** Deletion *)

Lemma selectById_delete (id : string) (db : table) :
  Sql.selectById id (snd (Sql.delete id db)) = None.
Proof.
  unfold Sql.selectById, Sql.delete. cbn [snd].
  induction db as [|r db IH]; simpl; [reflexivity|].
  destruct (String.eqb (Row.id r) id) eqn:E; simpl; [exact IH|]. now rewrite E.
Qed.

(** After [deleteMemory(id)] the record is gone: [getMemory(id)] finds
    nothing and a second [deleteMemory(id)] returns false. *)
Lemma deleteMemory_final (id : string) (db : table) :
  let db' := snd (deleteMemory id db) in
  getMemory id db' = Ok None /\ fst (deleteMemory id db') = false.
Proof.
  unfold deleteMemory. cbv zeta.
  destruct (Sql.delete id db) as [changes db'] eqn:E. cbn [snd].
  assert (Hnone : Sql.selectById id db' = None).
  { change db' with (snd (changes, db')). rewrite <- E. apply selectById_delete. }
  split.
  - unfold getMemory. now rewrite Hnone.
  - unfold Sql.delete. cbn [fst].
    replace (filter (fun r => String.eqb (Row.id r) id) db') with (@nil Row.t);
      [reflexivity|].
    symmetry. unfold Sql.selectById in Hnone.
    induction db' as [|r rest IH] in Hnone |- *; simpl in *; [reflexivity|].
    destruct (String.eqb (Row.id r) id); [discriminate | now apply IH].
Qed.

(* ------------------------------------------------------------------------- *)
(** ** More about [normalizeTags] *)

Lemma toLowerCase_empty (s : string) : Js.toLowerCase s = "" -> s = "".
Proof. destruct s; [reflexivity | discriminate]. Qed.

Lemma has_cons (seen : list string) (k key : string) :
  has (k :: seen) key = String.eqb key k || has seen key.
Proof. reflexivity. Qed.

Lemma filterSeen_In (tags seen : list string) (t : string) :
  In t (filterSeen seen tags) ->
  In t tags /\ t <> "" /\ has seen (Js.toLowerCase t) = false.
Proof.
  revert seen. induction tags as [|tag rest IH]; intros seen; simpl; [tauto|].
  destruct (tag =? "")%string eqn:Hempty.
  { intros H. destruct (IH _ H) as (? & ? & ?). auto. }
  destruct (has seen (Js.toLowerCase tag)) eqn:Hseen.
  { intros H. destruct (IH _ H) as (? & ? & ?). auto. }
  intros [<- | H].
  - apply String.eqb_neq in Hempty. auto.
  - destruct (IH _ H) as (? & ? & Hhas). rewrite has_cons in Hhas.
    apply orb_false_elim in Hhas as [_ Hhas]. auto.
Qed.

Lemma filterSeen_NoDup (tags seen : list string) :
  NoDup (map Js.toLowerCase (filterSeen seen tags)).
Proof.
  revert seen. induction tags as [|tag rest IH]; intros seen; simpl; [constructor|].
  destruct (tag =? "")%string; [apply IH|].
  destruct (has seen (Js.toLowerCase tag)); [apply IH|].
  simpl. constructor; [|apply IH].
  intros Hin. apply in_map_iff in Hin as (t & Ht & Hin).
  apply filterSeen_In in Hin as (_ & _ & Hhas). rewrite has_cons, Ht in Hhas.
  now rewrite String.eqb_refl in Hhas.
Qed.

Lemma filterSeen_length (tags seen : list string) :
  (List.length (filterSeen seen tags) <= List.length tags)%nat.
Proof.
  revert seen. induction tags as [|tag rest IH]; intros seen; simpl; [lia|].
  destruct (tag =? "")%string; [specialize (IH seen); lia|].
  destruct (has seen (Js.toLowerCase tag)); [specialize (IH seen); lia|].
  simpl. specialize (IH (Js.toLowerCase tag :: seen)). lia.
Qed.

(** X1. Whatever tags it is given, [normalizeTags] returns a list in which
    no entry is empty, every entry is trimmed, no two entries agree once
    lower-cased, every entry is the trimmed form of a given tag, and which
    is no longer than the given list. *)
Theorem normalizeTags_wellformed (tags : list string) :
  exists n,
    normalizeTags (Some (strs tags)) = Ok n /\
    Forall (fun t => t <> "" /\ Js.trim t = t /\ exists tag, In tag tags /\ t = Js.trim tag) n /\
    NoDup (map Js.toLowerCase n) /\
    (List.length n <= List.length tags)%nat.
Proof.
  exists (normalized tags). split; [apply normalizeTags_strs|]. unfold normalized.
  split; [|split].
  - apply Forall_forall. intros t Ht.
    apply filterSeen_In in Ht as (Hin & Hne & _).
    apply in_map_iff in Hin as (tag & <- & Hin).
    split; [exact Hne|]. split; [apply trim_idem | eauto].
  - apply filterSeen_NoDup.
  - rewrite <- (length_map Js.trim tags). apply filterSeen_length.
Qed.

Lemma filterSeen_snoc (tags seen : list string) (x : string) :
  filterSeen seen (tags ++ [x])
  = filterSeen seen tags
    ++ (if nonEmpty x
           && negb (has seen (Js.toLowerCase x))
           && negb (existsb (fun y => String.eqb (Js.toLowerCase y) (Js.toLowerCase x)) tags)
        then [x] else []).
Proof.
  revert seen. induction tags as [|tag rest IH]; intros seen; simpl.
  - unfold nonEmpty. destruct (x =? "")%string; [reflexivity|].
    destruct (has seen (Js.toLowerCase x)); reflexivity.
  - destruct (tag =? "")%string eqn:Hempty.
    + rewrite IH. apply String.eqb_eq in Hempty. subst tag.
      cbn [existsb Js.toLowerCase].
      destruct (String.eqb "" (Js.toLowerCase x)) eqn:E; [|reflexivity].
      apply String.eqb_eq in E. symmetry in E. apply toLowerCase_empty in E. subst x.
      reflexivity.
    + destruct (has seen (Js.toLowerCase tag)) eqn:Hseen.
      * rewrite IH. cbn [existsb].
        destruct (String.eqb (Js.toLowerCase tag) (Js.toLowerCase x)) eqn:E;
          [|reflexivity].
        apply String.eqb_eq in E. rewrite <- E, Hseen. cbn [negb orb].
        now rewrite andb_false_r.
      * cbn [app existsb]. rewrite IH, has_cons. f_equal.
        rewrite (String.eqb_sym (Js.toLowerCase x) (Js.toLowerCase tag)).
        destruct (String.eqb (Js.toLowerCase tag) (Js.toLowerCase x)); cbn [negb orb];
          [now rewrite !andb_false_r | reflexivity].
Qed.

Lemma existsb_mapped {A B : Type} (f : B -> bool) (g : A -> B) (l : list A) :
  existsb f (map g l) = existsb (fun a => f (g a)) l.
Proof.
  induction l as [|a l IH]; simpl; [reflexivity|]. now rewrite IH.
Qed.

(** X2. [normalizeTags] works through the tags from left to right: the
    result for a list extended by one tag is the result for the list,
    followed by the trimmed new tag when that is not empty and no earlier
    tag has the same trimmed lower-cased form, and by nothing otherwise.  So
    the first occurrence decides position and spelling. *)
Theorem normalizeTags_first_seen (tags : list string) (x : string) :
  normalizeTags (Some (strs (tags ++ [x])))
  = Ok (normalized tags
        ++ (if nonEmpty (Js.trim x)
               && negb (existsb (fun y => String.eqb (Js.toLowerCase (Js.trim y))
                                                    (Js.toLowerCase (Js.trim x))) tags)
            then [Js.trim x] else [])).
Proof.
  rewrite normalizeTags_strs. unfold normalized. f_equal.
  rewrite map_app. cbn [map]. rewrite filterSeen_snoc. f_equal.
  cbn [has existsb]. rewrite andb_true_r.
  now rewrite existsb_mapped.
Qed.

(** X3. On a value of unknown shape [normalizeTags] throws nothing but a
    [TypeError]; on an array it succeeds exactly when every element is a
    string; on any other value it succeeds exactly when the value is falsy
    or has a [length] of 0, and then returns the empty list. *)
Theorem normalizeTags_untyped (v : json) :
  (forall e, normalizeTags (Some v) = Throw e -> e = TypeError) /\
  (forall l, v = JArr l ->
     ((exists tags, normalizeTags (Some v) = Ok tags) <-> exists ss, l = map JStr ss)) /\
  ((forall l, v <> JArr l) ->
     forall tags, normalizeTags (Some v) = Ok tags <->
                  (negb (truthy v) || lengthIsZero v = true /\ tags = [])).
Proof.
  unfold normalizeTags. split; [|split].
  - intros e. destruct (negb (truthy v) || lengthIsZero v); [discriminate|].
    destruct v; try (now intros [= <-]).
    destruct (mapM callTrim l) eqn:E; simpl; [discriminate|].
    intros [= <-]. now apply (mapM_callTrim_Throw l).
  - intros l ->. destruct l as [|x l]; simpl.
    + split; [now exists [] | eauto].
    + rewrite <- (mapM_callTrim_Ok (x :: l)). simpl. split.
      * intros [tags H]. apply bind_Ok in H as (trimmed & -> & _). eauto.
      * intros [trimmed ->]. cbn [bind]. eauto.
  - intros Hv tags. destruct (negb (truthy v) || lengthIsZero v).
    + split; [now intros [= <-] | now intros [_ ->]].
    + destruct v; try (split; [discriminate | now intros [? _]]).
      now destruct (Hv l).
Qed.

(* ------------------------------------------------------------------------- *)
(** ** Creating, and what it leaves alone *)

Lemma addMemory_inv (input : MemoryCreateInput.t) (id now : string) (db db' : table)
  (m : MemoryRecord.t) :
  addMemory input id now db = Ok (m, db') ->
  Sql.selectById id db = None /\
  exists row, db' = db ++ [row] /\ Row.id row = id /\ mapRow row = Ok m /\
              Row.updated_at row = now.
Proof.
  unfold addMemory. rewrite normalizeTags_typed. cbn [bind]. unfold Sql.insert.
  cbn [Row.id]. destruct (Sql.selectById id db) eqn:E; [discriminate|].
  cbn [bind]. intros [= <- <-]. split; [reflexivity|].
  eexists. split; [reflexivity|]. split; [reflexivity|]. split; [|reflexivity].
  unfold serializeJson. rewrite mapRow_written by apply normalized_typed. reflexivity.
Qed.

(** X4. [addMemory] succeeds exactly when the identifier is not yet in the
    table; when it is taken the INSERT is refused and the call throws the
    engine's error.  On success the table has grown by one row, the new one,
    at its end. *)
Theorem addMemory_fresh_id (input : MemoryCreateInput.t) (id now : string) (db : table) :
  match Sql.selectById id db with
  | Some _ => addMemory input id now db = Throw SqliteError
  | None =>
      exists m row, addMemory input id now db = Ok (m, db ++ [row]) /\
                    Row.id row = id /\ MemoryRecord.id m = id
  end.
Proof.
  destruct (Sql.selectById id db) eqn:E.
  - unfold addMemory. rewrite normalizeTags_typed. cbn [bind]. unfold Sql.insert.
    cbn [Row.id]. now rewrite E.
  - unfold addMemory. rewrite normalizeTags_typed. cbn [bind]. unfold Sql.insert.
    cbn [Row.id]. rewrite E. cbn [bind]. eexists _, _. repeat split.
Qed.

Lemma selectById_app_other (id' : string) (db : table) (row : Row.t) :
  Row.id row <> id' ->
  Sql.selectById id' (db ++ [row]) = Sql.selectById id' db.
Proof.
  intros Hne. unfold Sql.selectById. induction db as [|x db IH]; simpl.
  - apply String.eqb_neq in Hne. now rewrite Hne.
  - destruct (String.eqb (Row.id x) id'); [reflexivity | exact IH].
Qed.

Lemma selectById_update_other (id id' : string) (title : option string) (content : string)
  (importance : icell) (tags metadata : jcell) (updated_at : string) (db : table) :
  id' <> id ->
  Sql.selectById id' (Sql.update id title content importance tags metadata updated_at db)
  = Sql.selectById id' db.
Proof.
  intros Hne. unfold Sql.selectById, Sql.update.
  induction db as [|x db IH]; simpl; [reflexivity|].
  destruct (String.eqb (Row.id x) id) eqn:E; simpl.
  - apply String.eqb_eq in E. rewrite E.
    apply String.eqb_neq in Hne. rewrite String.eqb_sym in Hne. rewrite Hne. exact IH.
  - destruct (String.eqb (Row.id x) id'); [reflexivity | exact IH].
Qed.

Lemma selectById_delete_other (id id' : string) (db : table) :
  id' <> id ->
  Sql.selectById id' (snd (Sql.delete id db)) = Sql.selectById id' db.
Proof.
  intros Hne. unfold Sql.selectById, Sql.delete. cbn [snd].
  induction db as [|x db IH]; simpl; [reflexivity|].
  destruct (String.eqb (Row.id x) id) eqn:E; simpl.
  - apply String.eqb_eq in E. rewrite E.
    apply String.eqb_neq in Hne. rewrite String.eqb_sym in Hne. rewrite Hne. exact IH.
  - destruct (String.eqb (Row.id x) id'); [reflexivity | exact IH].
Qed.

Lemma deleteMemory_snd (id : string) (db : table) :
  snd (deleteMemory id db) = snd (Sql.delete id db).
Proof. reflexivity. Qed.

(** The table [updateMemory] leaves: the one it was given, or that one
    after the UPDATE of the rows with the input's id. *)
Lemma updateMemory_inv (input : MemoryUpdateInput.t) (now : string) (db db' : table)
  (res : option MemoryRecord.t) :
  updateMemory input now db = Ok (res, db') ->
  (res = None /\ db' = db /\ Sql.selectById (MemoryUpdateInput.id input) db = None) \/
  exists title content importance tags metadata,
    db' = Sql.update (MemoryUpdateInput.id input) title content importance tags metadata
                     now db /\
    res <> None /\ Sql.selectById (MemoryUpdateInput.id input) db <> None.
Proof.
  unfold updateMemory, getMemory. intros H.
  destruct (Sql.selectById (MemoryUpdateInput.id input) db) as [row|] eqn:Hrow.
  - right. apply bind_Ok in H as (found & Hfound & H).
    apply bind_Ok in Hfound as (e & _ & [= <-]).
    apply bind_Ok in H as (tags & _ & [= <- <-]).
    eexists _, _, _, _, _. split; [reflexivity|]. split; discriminate.
  - left. cbn [bind] in H. injection H as <- <-. auto.
Qed.

(** X5. Creating, updating or deleting the memory with one id leaves the
    memory under every other id exactly as [getMemory] read it before. *)
Theorem other_ids_untouched (id id' : string) (db : table) :
  id' <> id ->
  (forall input now m db',
      addMemory input id now db = Ok (m, db') -> getMemory id' db' = getMemory id' db) /\
  (forall input now res db',
      MemoryUpdateInput.id input = id ->
      updateMemory input now db = Ok (res, db') -> getMemory id' db' = getMemory id' db) /\
  getMemory id' (snd (deleteMemory id db)) = getMemory id' db.
Proof.
  intros Hne. unfold getMemory. split; [|split].
  - intros input now m db' H.
    apply addMemory_inv in H as (_ & row & -> & Hid & _).
    rewrite selectById_app_other; [reflexivity | congruence].
  - intros input now res db' Hid H.
    apply updateMemory_inv in H
      as [(_ & -> & _) | (t & c & i & g & md & -> & _)]; [reflexivity|].
    rewrite Hid. now rewrite selectById_update_other.
  - now rewrite deleteMemory_snd, selectById_delete_other.
Qed.

Lemma other_ids_untouched_witness :
  let row id title := Row.mk id (Some title) "c" (IInt 3) (JsonText (strs ["a"]))
                             (JsonText emptyObject) "2024-01-01" "2024-01-01" in
  let db := [row "m1" "one"; row "m2" "two"] in
  let kept := MemoryRecord.mk "m2" (Some "two") "c" (Some 3) ["a"] emptyObject
                              "2024-01-01" "2024-01-01" in
  "m2" <> "m1" /\
  getMemory "m2" db = Ok (Some kept) /\
  getMemory "m2" (snd (deleteMemory "m1" db)) = Ok (Some kept) /\
  (forall res db',
      updateMemory (MemoryUpdateInput.mk "m1" Null (Some "d") (Value 9) Null Null)
                   "2024-02-02" db = Ok (res, db') ->
      getMemory "m2" db' = Ok (Some kept)).
Proof.
  intros row db kept.
  assert (Hne : "m2" <> "m1") by discriminate.
  destruct (other_ids_untouched "m1" "m2" db Hne) as (_ & Hupd & Hdel).
  split; [exact Hne|]. split; [reflexivity|]. split; [rewrite Hdel; reflexivity|].
  intros res db' H.
  rewrite (Hupd (MemoryUpdateInput.mk "m1" Null (Some "d") (Value 9) Null Null)
                "2024-02-02" res db' eq_refl H).
  reflexivity.
Defined.

(* ------------------------------------------------------------------------- *)
(** ** The primary key *)

Lemma distinct_NoDup (l : list string) : distinct l = true <-> NoDup l.
Proof.
  induction l as [|x l IH]; simpl.
  - split; [constructor | reflexivity].
  - rewrite andb_true_iff, negb_true_iff, IH. split.
    + intros [Hx Hl]. constructor; [|exact Hl].
      intros Hin. assert (E : existsb (String.eqb x) l = true).
      { apply existsb_exists. exists x. split; [exact Hin | apply String.eqb_refl]. }
      congruence.
    + intros H. inversion H as [|? ? Hx Hl]; subst. split; [|exact Hl].
      destruct (existsb (String.eqb x) l) eqn:E; [|reflexivity].
      apply existsb_exists in E as (y & Hy & E). apply String.eqb_eq in E. now subst.
Qed.

Lemma selectById_None (id : string) (db : table) :
  Sql.selectById id db = None <-> ~ In id (map Row.id db).
Proof.
  unfold Sql.selectById. split.
  - intros H Hin. apply in_map_iff in Hin as (r & Hr & Hin).
    apply (find_none _ _ H) in Hin. cbv beta in Hin. rewrite Hr, String.eqb_refl in Hin.
    discriminate.
  - intros H. destruct (find _ db) as [r|] eqn:E; [|reflexivity].
    apply find_some in E as [Hin E]. apply String.eqb_eq in E.
    destruct H. apply in_map_iff. eauto.
Qed.

Lemma update_ids (id : string) (title : option string) (content : string)
  (importance : icell) (tags metadata : jcell) (updated_at : string) (db : table) :
  map Row.id (Sql.update id title content importance tags metadata updated_at db)
  = map Row.id db.
Proof.
  unfold Sql.update. rewrite map_map. apply map_ext. intros r.
  now destruct (String.eqb (Row.id r) id).
Qed.

Lemma delete_ids (id : string) (db : table) :
  map Row.id (snd (Sql.delete id db))
  = filter (fun i => negb (String.eqb i id)) (map Row.id db).
Proof.
  unfold Sql.delete. cbn [snd]. induction db as [|r db IH]; simpl; [reflexivity|].
  destruct (String.eqb (Row.id r) id); simpl; congruence.
Qed.

(** X6. The store keeps the primary key: on a table in which no two rows
    share an id, [addMemory], [updateMemory] and [deleteMemory] leave a table
    in which no two rows share an id, and [updateMemory] changes no id. *)
Theorem uniqueIds_kept (db : table) :
  uniqueIds db = true ->
  (forall input id now m db',
      addMemory input id now db = Ok (m, db') -> uniqueIds db' = true) /\
  (forall input now res db',
      updateMemory input now db = Ok (res, db') ->
      map Row.id db' = map Row.id db /\ uniqueIds db' = true) /\
  (forall id, uniqueIds (snd (deleteMemory id db)) = true).
Proof.
  unfold uniqueIds. intros Hdb. split; [|split].
  - intros input id now m db' H.
    apply addMemory_inv in H as (Hfresh & row & -> & Hid & _).
    apply distinct_NoDup. rewrite map_app. apply distinct_NoDup in Hdb.
    apply NoDup_app; [exact Hdb | repeat constructor; intros [] |].
    intros a Ha [<- | []]. rewrite Hid in Ha. now apply selectById_None in Hfresh.
  - intros input now res db' H.
    apply updateMemory_inv in H
      as [(_ & -> & _) | (t & c & i & g & md & -> & _)]; [now split|].
    rewrite update_ids. now split.
  - intros id. rewrite deleteMemory_snd, delete_ids.
    apply distinct_NoDup, NoDup_filter. now apply distinct_NoDup.
Qed.

Lemma uniqueIds_kept_witness :
  let row id := Row.mk id None "c" INull (JsonText (JArr [])) (JsonText emptyObject)
                       "2024-01-01" "2024-01-01" in
  let db := [row "m1"; row "m2"] in
  uniqueIds db = true /\
  (forall m db',
      addMemory (MemoryCreateInput.mk None "d" None None None) "m3" "2024-02-02" db
      = Ok (m, db') -> uniqueIds db' = true) /\
  uniqueIds (snd (deleteMemory "m1" db)) = true.
Proof.
  intros row db.
  destruct (uniqueIds_kept db eq_refl) as (Hadd & _ & Hdel).
  split; [reflexivity|]. split; [|apply Hdel].
  intros m db' H. exact (Hadd _ _ _ _ _ H).
Defined.

(** X7. The store keeps its table in the form it writes: on a table all of
    whose rows it wrote, [addMemory], [updateMemory] and [deleteMemory]
    leave such a table, [getMemory] and [updateMemory] never throw, and
    every record that [addMemory], [getMemory], [updateMemory] or
    [listMemories] returns is one of the data model: importance null or
    within 0..10, metadata a mapping. *)
Theorem store_written_form_kept (db : table) :
  storedTable db = true ->
  (forall input id now m db',
      addMemory input id now db = Ok (m, db') ->
      storedTable db' = true /\ validRecord m = true) /\
  (forall input now,
      exists updated db',
        updateMemory input now db = Ok (updated, db') /\
        storedTable db' = true /\
        forall m, updated = Some m -> validRecord m = true) /\
  (forall id, storedTable (snd (deleteMemory id db)) = true) /\
  (forall id,
      exists found, getMemory id db = Ok found /\
                    forall m, found = Some m -> validRecord m = true) /\
  (forall filters r,
      listMemories filters db = Ok r ->
      Forall (fun m => validRecord m = true) (MemoryListResult.items r)).
Proof.
  intros Hdb. repeat split.
  - eapply storedTable_addMemory; eassumption.
  - eapply storedTable_addMemory; eassumption.
  - intros input now. now apply storedTable_updateMemory.
  - intros id. now apply storedTable_deleteMemory.
  - intros id. now apply storedTable_getMemory.
  - intros filters r. now apply storedTable_listMemories.
Qed.

Lemma store_written_form_kept_witness :
  let row id importance :=
    Row.mk id None "c" importance (JsonText (strs ["a"])) (JsonText emptyObject)
           "2024-01-01" "2024-01-01" in
  let db := [row "m1" (IInt 4); row "m2" INull] in
  storedTable db = true /\
  storedTable (snd (deleteMemory "m1" db)) = true /\
  (exists updated db',
      updateMemory (MemoryUpdateInput.mk "m2" Undefined None (Value 99) (Value [" x "; "X"])
                                         Null) "2024-02-02" db = Ok (updated, db') /\
      storedTable db' = true /\
      forall m, updated = Some m -> validRecord m = true).
Proof.
  intros row db.
  destruct (store_written_form_kept db eq_refl) as (_ & Hupd & Hdel & _).
  split; [reflexivity|]. split; [apply Hdel | apply Hupd].
Defined.

(* ------------------------------------------------------------------------- *)
(** ** Updating and deleting what is not there *)

(** X8. [updateMemory] returns null exactly when no row carries the input's
    id, and then it leaves the table as it was. *)
Theorem updateMemory_missing (input : MemoryUpdateInput.t) (now : string) (db db' : table) :
  updateMemory input now db = Ok (None, db') <->
  Sql.selectById (MemoryUpdateInput.id input) db = None /\ db' = db.
Proof.
  split.
  - intros H. apply updateMemory_inv in H
      as [(_ & -> & Hnone) | (t & c & i & g & md & _ & Hres & _)]; [now split|].
    now destruct Hres.
  - intros [Hnone ->]. unfold updateMemory, getMemory. now rewrite Hnone.
Qed.

Lemma delete_changes (id : string) (db : table) :
  (0 <? fst (Sql.delete id db))%nat
  = match Sql.selectById id db with Some _ => true | None => false end.
Proof.
  unfold Sql.delete, Sql.selectById. cbn [fst].
  induction db as [|r db IH]; simpl; [reflexivity|].
  now destruct (String.eqb (Row.id r) id).
Qed.

Lemma deleteMemory_fst (id : string) (db : table) :
  fst (deleteMemory id db) = (0 <? fst (Sql.delete id db))%nat.
Proof. reflexivity. Qed.

(** X9. [deleteMemory] returns true exactly when a row carried the id;
    whatever it returned, afterwards [getMemory] finds nothing under the id
    and a second [deleteMemory] returns false and changes nothing. *)
Theorem deleteMemory_result (id : string) (db : table) :
  fst (deleteMemory id db)
  = match Sql.selectById id db with Some _ => true | None => false end /\
  let db' := snd (deleteMemory id db) in
  getMemory id db' = Ok None /\
  deleteMemory id db' = (false, db').
Proof.
  split; [rewrite deleteMemory_fst; apply delete_changes|]. cbv zeta.
  destruct (deleteMemory_final id db) as [Hget Hfst]. cbv zeta in Hget, Hfst.
  split; [exact Hget|].
  rewrite (surjective_pairing (deleteMemory id _)), Hfst. f_equal.
  rewrite !deleteMemory_snd. unfold Sql.delete. cbn [snd]. clear Hget Hfst.
  induction db as [|r db IH]; simpl; [reflexivity|].
  destruct (String.eqb (Row.id r) id) eqn:E; simpl; [exact IH|].
  rewrite E. simpl. now rewrite IH.
Qed.

Lemma filter_absent (id : string) (db : table) :
  Sql.selectById id db = None ->
  filter (fun r => negb (String.eqb (Row.id r) id)) db = db /\
  filter (fun r => String.eqb (Row.id r) id) db = [].
Proof.
  unfold Sql.selectById. induction db as [|r db IH]; simpl; [now split|].
  destruct (String.eqb (Row.id r) id); [discriminate|].
  intros H. destruct (IH H) as [-> ->]. now split.
Qed.

Lemma mapRow_fields_of_add (input : MemoryCreateInput.t) (id now : string)
  (db db' : table) (m : MemoryRecord.t) :
  addMemory input id now db = Ok (m, db') ->
  MemoryRecord.id m = id /\ Sql.selectById id db = None.
Proof.
  intros H. apply addMemory_inv in H as (Hfresh & row & _ & Hid & Hmap & _).
  apply mapRow_fields in Hmap as (Hm & _). split; [congruence | exact Hfresh].
Qed.

(** X10. Deleting the memory that was just created gives back the table as
    it was before the creation, and reports a deletion. *)
Theorem deleteMemory_addMemory (input : MemoryCreateInput.t) (id now : string)
  (db db' : table) (m : MemoryRecord.t) :
  addMemory input id now db = Ok (m, db') ->
  deleteMemory (MemoryRecord.id m) db' = (true, db).
Proof.
  intros H. destruct (mapRow_fields_of_add input id now db db' m H) as [Hid Hfresh].
  apply addMemory_inv in H as (_ & row & -> & Hrow & _).
  rewrite Hid. unfold deleteMemory, Sql.delete.
  rewrite !filter_app. destruct (filter_absent id db Hfresh) as [-> ->].
  simpl. rewrite Hrow, String.eqb_refl. simpl. now rewrite app_nil_r.
Qed.

Lemma deleteMemory_addMemory_witness :
  let row := Row.mk "m1" None "c" INull (JsonText (JArr [])) (JsonText emptyObject)
                    "2024-01-01" "2024-01-01" in
  let input := MemoryCreateInput.mk (Some "t") "d" (Some 4) (Some ["a"]) None in
  exists m db',
    addMemory input "m2" "2024-02-02" [row] = Ok (m, db') /\
    deleteMemory (MemoryRecord.id m) db' = (true, [row]).
Proof.
  intros row input. eexists _, _. split; [reflexivity|].
  apply (deleteMemory_addMemory input "m2" "2024-02-02" [row]). reflexivity.
Defined.

(* ------------------------------------------------------------------------- *)
(** ** Updating with values *)

(** X11. For every existing record, an update that passes a value for a
    field replaces the field, normalised as on creation: title and content
    as given, importance clamped into 0..10, tags through [normalizeTags],
    metadata as given; the record returned and the record read back
    afterwards agree on it. *)
Theorem updateMemory_replaces (input : MemoryUpdateInput.t) (now : string)
  (db : table) (existing : MemoryRecord.t) :
  getMemory (MemoryUpdateInput.id input) db = Ok (Some existing) ->
  exists updated db' reread,
    updateMemory input now db = Ok (Some updated, db') /\
    getMemory (MemoryUpdateInput.id input) db' = Ok (Some reread) /\
    (forall t, MemoryUpdateInput.title input = Value t ->
       MemoryRecord.title updated = Some t /\ MemoryRecord.title reread = Some t) /\
    (forall c, MemoryUpdateInput.content input = Some c ->
       MemoryRecord.content updated = c /\ MemoryRecord.content reread = c) /\
    (forall n, MemoryUpdateInput.importance input = Value n ->
       MemoryRecord.importance updated = Some (Js.clamp0_10 n) /\
       MemoryRecord.importance reread = Some (Js.clamp0_10 n)) /\
    (forall l, MemoryUpdateInput.tags input = Value l ->
       normalizeTags (Some (strs l)) = Ok (MemoryRecord.tags updated) /\
       MemoryRecord.tags reread = MemoryRecord.tags updated) /\
    (forall o, MemoryUpdateInput.metadata input = Value o ->
       MemoryRecord.metadata updated = JObj o /\ MemoryRecord.metadata reread = JObj o).
Proof.
  intros Hget.
  destruct (updateMemory_found input now db existing Hget)
    as (tags & db' & Htags & _ & _ & Hupd & Hread).
  eexists _, db', _. split; [exact Hupd|]. split; [exact Hread|].
  cbn [MemoryRecord.title MemoryRecord.content MemoryRecord.importance MemoryRecord.tags
       MemoryRecord.metadata].
  split; [|split; [|split; [|split]]].
  - intros t E. unfold nextTitle. now rewrite E.
  - intros c E. unfold nextContent. now rewrite E.
  - intros n E. unfold nextImportance. now rewrite E.
  - intros l E. unfold nextTags in Htags. rewrite E in Htags. now split.
  - intros o E. unfold nextMetadata. now rewrite E.
Qed.

Lemma updateMemory_replaces_witness :
  let row := Row.mk "m1" (Some "old") "c" INull (JsonText (JArr [])) (JsonText emptyObject)
                    "2024-01-01" "2024-01-01" in
  let input := MemoryUpdateInput.mk "m1" (Value "new") (Some "d") (Value 42)
                 (Value [" B "; "b"; ""; "A"]) (Value [("k", JBool true)]) in
  exists updated db' reread,
    updateMemory input "2024-02-02" [row] = Ok (Some updated, db') /\
    getMemory "m1" db' = Ok (Some reread) /\
    MemoryRecord.title reread = Some "new" /\
    MemoryRecord.content reread = "d" /\
    MemoryRecord.importance reread = Some 10 /\
    normalizeTags (Some (strs [" B "; "b"; ""; "A"])) = Ok (MemoryRecord.tags updated) /\
    MemoryRecord.tags reread = MemoryRecord.tags updated /\
    MemoryRecord.metadata reread = JObj [("k", JBool true)].
Proof.
  intros row input.
  destruct (updateMemory_replaces input "2024-02-02" [row]
              (MemoryRecord.mk "m1" (Some "old") "c" None [] emptyObject
                               "2024-01-01" "2024-01-01") eq_refl)
    as (updated & db' & reread & Hupd & Hread & Ht & Hc & Hi & Hg & Hm).
  exists updated, db', reread. split; [exact Hupd|]. split; [exact Hread|].
  split; [apply (Ht "new" eq_refl)|]. split; [apply (Hc "d" eq_refl)|].
  split; [apply (Hi 42 eq_refl)|].
  split; [apply (Hg _ eq_refl)|]. split; [apply (Hg _ eq_refl)|].
  apply (Hm _ eq_refl).
Defined.

Lemma update_update (id : string) (title : option string) (content : string)
  (importance : icell) (tags metadata : jcell) (updated_at : string) (db : table) :
  Sql.update id title content importance tags metadata updated_at
    (Sql.update id title content importance tags metadata updated_at db)
  = Sql.update id title content importance tags metadata updated_at db.
Proof.
  unfold Sql.update. rewrite map_map. apply map_ext. intros r.
  destruct (String.eqb (Row.id r) id) eqn:E; cbn [Row.id Row.created_at]; now rewrite E.
Qed.

Lemma importanceCell_field (x : option Z) :
  importanceCell (importanceField x) = importanceCell x /\
  importanceField (importanceField x) = importanceField x.
Proof.
  destruct x as [n|]; simpl; [now rewrite clamp_idem | now split].
Qed.

Lemma nullish_nullish (v : json) :
  nullish (Some (nullish (Some v) emptyObject)) emptyObject = nullish (Some v) emptyObject.
Proof. now destruct v. Qed.

(** X12. Repeating an update changes nothing more: after a successful
    [updateMemory], the same call at the same clock value leaves the table
    as the first call left it and returns the record that [getMemory] reads
    from it. *)
Theorem updateMemory_repeat (input : MemoryUpdateInput.t) (now : string)
  (db db' : table) (m : MemoryRecord.t) :
  updateMemory input now db = Ok (Some m, db') ->
  exists m',
    updateMemory input now db' = Ok (Some m', db') /\
    getMemory (MemoryUpdateInput.id input) db' = Ok (Some m').
Proof.
  intros H.
  assert (Hget : exists existing,
             getMemory (MemoryUpdateInput.id input) db = Ok (Some existing)).
  { unfold updateMemory in H. apply bind_Ok in H as ([e|] & He & H); [eauto|discriminate]. }
  destruct Hget as [e Hget].
  destruct (updateMemory_found input now db e Hget)
    as (tags & db1 & Htags & Hnorm & Hdb1 & Hupd & Hread).
  rewrite Hupd in H. injection H as _ <-.
  destruct (updateMemory_found input now db1 _ Hread)
    as (tags2 & db2 & Htags2 & _ & Hdb2 & Hupd2 & _).
  assert (Et : tags2 = tags).
  { unfold nextTags in Htags, Htags2. cbn [MemoryRecord.tags] in Htags2.
    destruct (MemoryUpdateInput.tags input); congruence. }
  subst tags2.
  assert (Edb : db2 = db1).
  { rewrite Hdb2, Hdb1. unfold nextTitle, nextContent, nextImportance, nextMetadata,
      serializeJson.
    cbn [MemoryRecord.title MemoryRecord.content MemoryRecord.importance
         MemoryRecord.metadata].
    replace (match MemoryUpdateInput.title input with
             | Undefined =>
                 match MemoryUpdateInput.title input with
                 | Undefined => MemoryRecord.title e
                 | Null => None
                 | Value s => Some s
                 end
             | Null => None
             | Value s => Some s
             end)
      with (match MemoryUpdateInput.title input with
            | Undefined => MemoryRecord.title e
            | Null => None
            | Value s => Some s
            end) by now destruct (MemoryUpdateInput.title input).
    replace (match MemoryUpdateInput.content input with
             | Some s => s
             | None =>
                 match MemoryUpdateInput.content input with
                 | Some s => s
                 | None => MemoryRecord.content e
                 end
             end)
      with (match MemoryUpdateInput.content input with
            | Some s => s
            | None => MemoryRecord.content e
            end) by now destruct (MemoryUpdateInput.content input).
    replace (importanceCell
               match MemoryUpdateInput.importance input with
               | Undefined =>
                   importanceField
                     match MemoryUpdateInput.importance input with
                     | Undefined => MemoryRecord.importance e
                     | Null => None
                     | Value n => Some n
                     end
               | Null => None
               | Value n => Some n
               end)
      with (importanceCell
              match MemoryUpdateInput.importance input with
              | Undefined => MemoryRecord.importance e
              | Null => None
              | Value n => Some n
              end)
      by (destruct (MemoryUpdateInput.importance input);
          [apply eq_sym, importanceCell_field | reflexivity | reflexivity]).
    replace (JSON_stringify
               (nullish
                  (Some
                     match MemoryUpdateInput.metadata input with
                     | Undefined =>
                         nullish
                           (Some
                              match MemoryUpdateInput.metadata input with
                              | Undefined => MemoryRecord.metadata e
                              | Null => emptyObject
                              | Value m0 => JObj m0
                              end) emptyObject
                     | Null => emptyObject
                     | Value m0 => JObj m0
                     end) emptyObject))
      with (JSON_stringify
              (nullish
                 (Some
                    match MemoryUpdateInput.metadata input with
                    | Undefined => MemoryRecord.metadata e
                    | Null => emptyObject
                    | Value m0 => JObj m0
                    end) emptyObject))
      by (destruct (MemoryUpdateInput.metadata input);
          [now rewrite nullish_nullish | reflexivity | reflexivity]).
    apply update_update. }
  rewrite Edb in Hupd2. eexists. split; [exact Hupd2|].
  rewrite Hread. do 2 f_equal.
  unfold nextTitle, nextContent, nextImportance, nextMetadata.
  cbn [MemoryRecord.id MemoryRecord.title MemoryRecord.content MemoryRecord.importance
       MemoryRecord.metadata MemoryRecord.createdAt].
  destruct (MemoryUpdateInput.title input), (MemoryUpdateInput.content input),
    (MemoryUpdateInput.importance input) as [| |n], (MemoryUpdateInput.metadata input);
    cbn [nullish emptyObject]; f_equal;
    try (now destruct (MemoryRecord.metadata e));
    try (now destruct (importanceCell_field (MemoryRecord.importance e))).
Qed.

Lemma updateMemory_repeat_witness :
  let row := Row.mk "m1" (Some "old") "c" (IOther 31) (JsonText (strs ["a"]))
                    (JsonText JNull) "2024-01-01" "2024-01-01" in
  let input := MemoryUpdateInput.mk "m1" (Value "new") None Undefined Undefined Undefined in
  exists m db' m',
    updateMemory input "2024-02-02" [row] = Ok (Some m, db') /\
    updateMemory input "2024-02-02" db' = Ok (Some m', db') /\
    getMemory "m1" db' = Ok (Some m').
Proof.
  intros row input.
  destruct (updateMemory_repeat input "2024-02-02" [row] _ _ eq_refl) as (m' & H1 & H2).
  eexists _, _, m'. split; [reflexivity|]. split; [exact H1 | exact H2].
Defined.

(* ------------------------------------------------------------------------- *)
(** ** Filters that filter nothing *)

Lemma selectWhere_nil (db : table) : Sql.selectWhere [] db = Ok db.
Proof.
  induction db as [|r db IH]; simpl; [reflexivity|].
  unfold Sql.whereHolds. cbn [mapM bind forallb]. now rewrite IH.
Qed.

(** X13. Without any filter [listMemories] counts every row: [total] is the
    number of rows of the table, whatever the page asked for, and [items] is
    that page of the rows in descending order of [updated_at]; on a table
    the store wrote the listing succeeds for every requested limit and every
    requested offset below 2^63. *)
Theorem listMemories_no_filters (limit offset : option Z) (db : table) :
  (storedTable db = true -> clampedOffset offset < 2 ^ 63 ->
   exists r, listMemories (noFilters limit offset) db = Ok r) /\
  forall r, listMemories (noFilters limit offset) db = Ok r ->
            MemoryListResult.total r = Z.of_nat (List.length db) /\
            mapM mapRow (Sql.limitOffset (clampedLimit limit) (clampedOffset offset)
                           (Sql.orderByUpdatedAtDesc db))
            = Ok (MemoryListResult.items r).
Proof.
  split.
  - intros Hdb _.
    destruct (listMemories_stored (noFilters limit offset) db Hdb) as (? & ? & _ & _ & H).
    eauto.
  - intros r H.
    destruct (listMemories_Ok _ _ _ H) as (w & rows & Hw & Hrows & Hitems & Htotal & _).
    cbv in Hw. injection Hw as <-. rewrite selectWhere_nil in Hrows.
    injection Hrows as <-. split; [exact Htotal|].
    destruct (limitSafe_clamped (noFilters limit offset)) as [El _].
    destruct (offsetSafe_clamped (noFilters limit offset)) as [Eo _].
    cbn [noFilters MemoryFilters.limit MemoryFilters.offset] in El, Eo.
    now rewrite <- El, <- Eo.
Qed.

Lemma listMemories_same_where (f g : MemoryFilters.t) (db : table) :
  whereClauses f = whereClauses g ->
  MemoryFilters.limit f = MemoryFilters.limit g ->
  MemoryFilters.offset f = MemoryFilters.offset g ->
  listMemories f db = listMemories g db.
Proof.
  intros Hw Hl Ho. unfold listMemories, limitSafe, offsetSafe. now rewrite Hw, Hl, Ho.
Qed.

Lemma trim_empty_nonEmpty (s : string) :
  Js.trim s = "" -> nonEmpty s && nonEmpty (Js.trim s) = false.
Proof. intros ->. apply andb_false_r. Qed.

(** X14. A search text that is empty or only white space filters nothing:
    the listing is the one obtained without [search]. *)
Theorem listMemories_blank_search (filters : MemoryFilters.t) (search : string)
  (db : table) :
  Js.trim search = "" ->
  listMemories (withSearch filters (Some search)) db
  = listMemories (withSearch filters None) db.
Proof.
  intros Hblank. apply listMemories_same_where; try reflexivity.
  unfold whereClauses. cbn [withSearch MemoryFilters.search MemoryFilters.tags
    MemoryFilters.minImportance MemoryFilters.maxImportance MemoryFilters.before
    MemoryFilters.after].
  now rewrite (trim_empty_nonEmpty search Hblank).
Qed.

Lemma listMemories_blank_search_witness :
  let row := Row.mk "m1" None "c" INull (JsonText (JArr [])) (JsonText emptyObject)
                    "2024-01-01" "2024-01-01" in
  let filters := MemoryFilters.mk None None None None None None None None in
  Js.trim "  " = "" /\
  listMemories (withSearch filters (Some "  ")) [row]
  = listMemories (withSearch filters None) [row].
Proof.
  intros row filters. split; [reflexivity|].
  apply (listMemories_blank_search filters "  " [row]). reflexivity.
Defined.

Lemma whereClauses_tags (filters : MemoryFilters.t) (tags : option (list string)) :
  whereClauses (withTags filters tags)
  = whereClauses (withTags filters
                    (Some (match tags with Some l => normalized l | None => [] end))).
Proof.
  unfold whereClauses. cbn [withTags MemoryFilters.search MemoryFilters.tags
    MemoryFilters.minImportance MemoryFilters.maxImportance MemoryFilters.before
    MemoryFilters.after].
  assert (H : forall l,
    (if (0 <? List.length l)%nat
     then (normalizedTags <- normalizeTags (Some (strs l)) ;;
           Ok (map Sql.HasTag normalizedTags))
     else Ok []) = Ok (map Sql.HasTag (normalized l))).
  { intros [|t l]; [reflexivity|]. cbn [List.length Nat.ltb Nat.leb].
    now rewrite normalizeTags_strs. }
  destruct tags as [l|].
  - now rewrite !H, normalized_idem.
  - now rewrite H.
Qed.

(** X15. The tag filter only sees the requested tags normalised: padding,
    empty entries and repetitions in another case make no difference to the
    listing, and a request whose tags normalise to nothing (no tag, or only
    blank ones) lists as if no tags had been requested. *)
Theorem listMemories_requested_tags (filters : MemoryFilters.t) (tags : list string)
  (db : table) :
  listMemories (withTags filters (Some tags)) db
  = listMemories (withTags filters (Some (normalized tags))) db /\
  (normalized tags = [] ->
   listMemories (withTags filters (Some tags)) db
   = listMemories (withTags filters None) db).
Proof.
  split.
  - apply listMemories_same_where; try reflexivity.
    apply (whereClauses_tags filters (Some tags)).
  - intros Hnone. apply listMemories_same_where; try reflexivity.
    rewrite (whereClauses_tags filters (Some tags)), (whereClauses_tags filters None).
    now rewrite Hnone.
Qed.

Lemma listMemories_requested_tags_witness :
  let row := Row.mk "m1" None "c" INull (JsonText (strs ["Work"])) (JsonText emptyObject)
                    "2024-01-01" "2024-01-01" in
  let filters := MemoryFilters.mk None None None None None None None None in
  listMemories (withTags filters (Some [" Work "; "work"; ""])) [row]
  = listMemories (withTags filters (Some ["Work"])) [row] /\
  listMemories (withTags filters (Some [" "; ""])) [row]
  = listMemories (withTags filters None) [row].
Proof.
  intros row filters.
  split.
  - exact (proj1 (listMemories_requested_tags filters [" Work "; "work"; ""] [row])).
  - exact (proj2 (listMemories_requested_tags filters [" "; ""] [row]) eq_refl).
Defined.

(* ------------------------------------------------------------------------- *)
(** ** Pages *)

Lemma firstn_plus {A : Type} (a b : nat) (l : list A) :
  firstn (a + b) l = firstn a l ++ firstn b (skipn a l).
Proof.
  revert l. induction a as [|a IH]; intros l; [reflexivity|].
  destruct l as [|x l]; simpl; [now rewrite firstn_nil | now rewrite IH].
Qed.

Lemma limitOffset_plus (l1 l2 offset : Z) (rows : list Row.t) :
  0 <= l1 -> 0 <= l2 -> 0 <= offset ->
  Sql.limitOffset (l1 + l2) offset rows
  = Sql.limitOffset l1 offset rows ++ Sql.limitOffset l2 (offset + l1) rows.
Proof.
  intros H1 H2 Ho. unfold Sql.limitOffset.
  destruct (Z.ltb_spec (l1 + l2) 0); [lia|].
  destruct (Z.ltb_spec l1 0); [lia|]. destruct (Z.ltb_spec l2 0); [lia|].
  rewrite Z2Nat.inj_add, firstn_plus, skipn_skipn by lia.
  now rewrite <- Z2Nat.inj_add, (Z.add_comm l1 offset) by lia.
Qed.

Lemma mapM_app {A B : Type} (f : A -> result B) (l1 l2 : list A) (b1 b2 : list B) :
  mapM f l1 = Ok b1 -> mapM f l2 = Ok b2 -> mapM f (l1 ++ l2) = Ok (b1 ++ b2).
Proof.
  rewrite !mapM_Forall2. apply Forall2_app.
Qed.

Lemma limitSafe_withPage (filters : MemoryFilters.t) (limit : Z) (offset : option Z) :
  1 <= limit <= 200 -> limitSafe (withPage filters (Some limit) offset) = limit.
Proof. unfold limitSafe. cbn. lia. Qed.

Lemma offsetSafe_withPage (filters : MemoryFilters.t) (limit : option Z) (offset : Z) :
  0 <= offset -> offsetSafe (withPage filters limit (Some offset)) = offset.
Proof. unfold offsetSafe. cbn. lia. Qed.

(** X16. Consecutive pages tile the listing: for the same filters, the page
    of [l1] items at [offset] followed by the page of [l2] items at
    [offset + l1] is the page of [l1 + l2] items at [offset], as long as
    [l1 + l2] stays within the largest page of 200; the total is the same
    for all three. *)
Theorem listMemories_pages_tile (filters : MemoryFilters.t) (db : table)
  (l1 l2 offset : Z) (r1 r2 : MemoryListResult.t) :
  1 <= l1 -> 1 <= l2 -> l1 + l2 <= 200 -> 0 <= offset ->
  listMemories (withPage filters (Some l1) (Some offset)) db = Ok r1 ->
  listMemories (withPage filters (Some l2) (Some (offset + l1))) db = Ok r2 ->
  listMemories (withPage filters (Some (l1 + l2)) (Some offset)) db
  = Ok (MemoryListResult.mk (MemoryListResult.items r1 ++ MemoryListResult.items r2)
          (MemoryListResult.total r1) (l1 + l2) offset) /\
  MemoryListResult.total r2 = MemoryListResult.total r1.
Proof.
  intros H1 H2 H12 Ho Hr1 Hr2.
  destruct (listMemories_Ok _ _ _ Hr1) as (w & rows & Hw & Hrows & Hitems1 & Htotal1 & _).
  destruct (listMemories_Ok _ _ _ Hr2) as (w' & rows' & Hw' & Hrows' & Hitems2 & Htotal2 & _).
  rewrite whereClauses_withPage in Hw, Hw'. rewrite Hw in Hw'. injection Hw' as <-.
  rewrite Hrows in Hrows'. injection Hrows' as <-.
  rewrite limitSafe_withPage, offsetSafe_withPage in Hitems1, Hitems2 by lia.
  split; [|congruence].
  unfold listMemories, Sql.selectPage, Sql.selectCount.
  rewrite whereClauses_withPage, Hw. cbn [bind]. rewrite Hrows. cbn [bind].
  rewrite limitSafe_withPage, offsetSafe_withPage by lia.
  rewrite limitOffset_plus by lia.
  rewrite (mapM_app _ _ _ _ _ Hitems1 Hitems2). cbn [bind]. now rewrite Htotal1.
Qed.

Lemma listMemories_pages_tile_witness :
  let row id updated := Row.mk id None "c" INull (JsonText (JArr [])) (JsonText emptyObject)
                               "2024-01-01" updated in
  let rec id updated := MemoryRecord.mk id None "c" None [] emptyObject "2024-01-01" updated in
  let db := [row "a" "2024-01-02"; row "b" "2024-03-01"; row "c" "2024-02-01";
             row "d" "2024-01-05"] in
  let filters := MemoryFilters.mk None None None None None None None None in
  listMemories (withPage filters (Some 1) (Some 1)) db
  = Ok (MemoryListResult.mk [rec "c" "2024-02-01"] 4 1 1) /\
  listMemories (withPage filters (Some 2) (Some 2)) db
  = Ok (MemoryListResult.mk [rec "d" "2024-01-05"; rec "a" "2024-01-02"] 4 2 2) /\
  listMemories (withPage filters (Some 3) (Some 1)) db
  = Ok (MemoryListResult.mk [rec "c" "2024-02-01"; rec "d" "2024-01-05"; rec "a" "2024-01-02"]
          4 3 1).
Proof.
  intros row rec db filters. split; [reflexivity|]. split; [reflexivity|].
  refine (proj1 (listMemories_pages_tile filters db 1 2 1
                   (MemoryListResult.mk [rec "c" "2024-02-01"] 4 1 1)
                   (MemoryListResult.mk [rec "d" "2024-01-05"; rec "a" "2024-01-02"] 4 2 2)
                   _ _ _ _ eq_refl eq_refl)); lia.
Defined.

(* ------------------------------------------------------------------------- *)
(** ** Contradictory importance bounds *)

Lemma evalClause_bounds (r : Row.t) (n m : Z) (lo hi : Sql.bool3) :
  m < n ->
  Sql.evalClause (Sql.ImportanceGe n) r = Ok lo ->
  Sql.evalClause (Sql.ImportanceLe m) r = Ok hi ->
  Sql.isTrue lo && Sql.isTrue hi = false.
Proof.
  intros Hlt. simpl. intros [= <-] [= <-].
  destruct (Row.importance r) as [|z|c]; simpl; try reflexivity.
  destruct (Z.leb_spec n z); [|reflexivity].
  destruct (Z.leb_spec z m); [lia | reflexivity].
Qed.

(** X17. When [minImportance] is greater than [maxImportance] no row can
    pass: every listing that returns has no item and a total of 0. *)
Theorem listMemories_empty_range (filters : MemoryFilters.t) (db : table)
  (r : MemoryListResult.t) (n m : Z) :
  MemoryFilters.minImportance filters = Some n ->
  MemoryFilters.maxImportance filters = Some m ->
  m < n ->
  listMemories filters db = Ok r ->
  MemoryListResult.items r = [] /\ MemoryListResult.total r = 0.
Proof.
  intros Hmin Hmax Hlt Hlist.
  destruct (listMemories_Ok _ _ _ Hlist) as (w & rows & Hw & Hrows & Hitems & Htotal & _).
  assert (Hin : In (Sql.ImportanceGe n) w /\ In (Sql.ImportanceLe m) w).
  { unfold whereClauses in Hw. apply bind_Ok in Hw as (byTags & _ & [= <-]).
    rewrite Hmin, Hmax, !in_app_iff. split.
    - right. right. left. now left.
    - right. right. right. left. now left. }
  destruct Hin as [Hge Hle].
  assert (Hnone : rows = []).
  { pose proof (selectWhere_filter _ _ _ Hrows) as Hfilter.
    assert (Hall : forall row, In row db -> kept w row = false).
    { intros row _. unfold kept, Sql.whereHolds.
      destruct (mapM (fun c => Sql.evalClause c row) w) as [vs|] eqn:Hvs; [|reflexivity].
      cbn [bind].
      destruct (mapM_In _ _ _ _ Hvs Hge) as (lo & Hlo & Hlo').
      destruct (mapM_In _ _ _ _ Hvs Hle) as (hi & Hhi & Hhi').
      pose proof (evalClause_bounds row n m lo hi Hlt Hlo Hhi) as Hfalse.
      destruct (forallb Sql.isTrue vs) eqn:E; [|reflexivity].
      rewrite forallb_forall in E.
      rewrite (E lo Hlo'), (E hi Hhi') in Hfalse. discriminate. }
    rewrite Hfilter. clear -Hall. induction db as [|x db IH]; [reflexivity|].
    simpl. rewrite (Hall x (or_introl eq_refl)). apply IH.
    intros row Hrow. apply Hall. now right. }
  subst rows. split; [|exact Htotal].
  unfold Sql.limitOffset in Hitems. cbn [Sql.orderByUpdatedAtDesc fold_right] in Hitems.
  rewrite skipn_nil, firstn_nil in Hitems.
  destruct (limitSafe filters <? 0); simpl in Hitems; congruence.
Qed.

Lemma listMemories_empty_range_witness :
  let row id importance := Row.mk id None "c" importance (JsonText (JArr []))
                                  (JsonText emptyObject) "2024-01-01" "2024-01-01" in
  let db := [row "a" (IInt 7); row "b" INull; row "c" (IOther 31)] in
  let filters := MemoryFilters.mk None None (Some 8) (Some 6) None None None None in
  listMemories filters db = Ok (MemoryListResult.mk [] 0 50 0) /\
  MemoryListResult.items (MemoryListResult.mk [] 0 50 0) = [] /\
  MemoryListResult.total (MemoryListResult.mk [] 0 50 0) = 0.
Proof.
  intros row db filters. split; [reflexivity|].
  apply (listMemories_empty_range filters db _ 8 6); try reflexivity.
Defined.

(* ------------------------------------------------------------------------- *)
(** ** Listing and reading agree *)

Lemma selectById_In (db : table) (row : Row.t) :
  uniqueIds db = true -> In row db -> Sql.selectById (Row.id row) db = Some row.
Proof.
  unfold uniqueIds, Sql.selectById. intros Hu. apply distinct_NoDup in Hu.
  induction db as [|x db IH]; intros Hin; [destruct Hin|].
  simpl in Hu. inversion Hu as [|? ? Hx Hdb]; subst. simpl.
  destruct Hin as [-> | Hin]; [now rewrite String.eqb_refl|].
  destruct (String.eqb (Row.id x) (Row.id row)) eqn:E; [|now apply IH].
  apply String.eqb_eq in E. destruct Hx. rewrite E. now apply in_map.
Qed.

Lemma insertDesc_In (r x : Row.t) (l : list Row.t) :
  In x (Sql.insertDesc r l) <-> x = r \/ In x l.
Proof.
  induction l as [|y l IH]; simpl; [intuition congruence|].
  destruct (String.ltb (Row.updated_at r) (Row.updated_at y)); simpl;
    [rewrite IH|]; intuition congruence.
Qed.

Lemma orderBy_In (x : Row.t) (rows : list Row.t) :
  In x (Sql.orderByUpdatedAtDesc rows) <-> In x rows.
Proof.
  induction rows as [|r rows IH]; simpl; [tauto|].
  rewrite insertDesc_In, IH. intuition congruence.
Qed.

(** X18. Listing and reading agree: on a table that respects the primary
    key, every item [listMemories] returns is the record [getMemory] returns
    for the item's id. *)
Theorem listMemories_items_getMemory (filters : MemoryFilters.t) (db : table)
  (r : MemoryListResult.t) :
  uniqueIds db = true ->
  listMemories filters db = Ok r ->
  Forall (fun m => getMemory (MemoryRecord.id m) db = Ok (Some m))
         (MemoryListResult.items r).
Proof.
  intros Hu Hlist.
  destruct (listMemories_Ok _ _ _ Hlist) as (w & rows & _ & Hrows & Hitems & _).
  apply selectWhere_filter in Hrows. subst rows. apply mapM_Forall2 in Hitems.
  eapply (Forall2_Forall_l (fun row => In row db)); [|exact Hitems|].
  - intros row m Hin Hm. cbv beta in Hm.
    destruct (mapRow_fields _ _ Hm) as (Hid & _).
    unfold getMemory. rewrite Hid, (selectById_In db row Hu Hin), Hm. reflexivity.
  - apply limitOffset_Forall, orderBy_Forall, Forall_forall.
    intros row Hrow. now apply filter_In in Hrow.
Qed.

Lemma listMemories_items_getMemory_witness :
  let row id importance := Row.mk id None "c" importance (JsonText (JArr []))
                                  (JsonText emptyObject) "2024-01-01" "2024-01-01" in
  let rec id importance := MemoryRecord.mk id None "c" importance [] emptyObject
                                           "2024-01-01" "2024-01-01" in
  let db := [row "a" (IInt 7); row "b" INull] in
  let filters := MemoryFilters.mk None None None None None None None None in
  uniqueIds db = true /\
  listMemories filters db = Ok (MemoryListResult.mk [rec "a" (Some 7); rec "b" None] 2 50 0) /\
  Forall (fun m => getMemory (MemoryRecord.id m) db = Ok (Some m))
         [rec "a" (Some 7); rec "b" None].
Proof.
  intros row rec db filters. split; [reflexivity|]. split; [reflexivity|].
  apply (listMemories_items_getMemory filters db
           (MemoryListResult.mk [rec "a" (Some 7); rec "b" None] 2 50 0));
    reflexivity.
Defined.

(* ------------------------------------------------------------------------- *)
(** ** Searching *)

Lemma likeMatch_star (p text : string) :
  Sql.likeMatch (String "%" p) text
  = Sql.likeMatch p text
    || match text with
       | EmptyString => false
       | String _ t => Sql.likeMatch (String "%" p) t
       end.
Proof. destruct text; reflexivity. Qed.

Lemma likeMatch_percent (text : string) : Sql.likeMatch "%" text = true.
Proof.
  induction text as [|c t IH]; [reflexivity|].
  rewrite likeMatch_star, IH. apply orb_true_r.
Qed.

Lemma likeMatch_skip (pre p text : string) :
  Sql.likeMatch (String "%" p) text = true ->
  Sql.likeMatch (String "%" p) (pre ++ text)%string = true.
Proof.
  intros H. induction pre as [|c pre IH]; [exact H|].
  cbn [String.append]. rewrite likeMatch_star, IH. apply orb_true_r.
Qed.

Lemma likeMatch_literal (s mid p rest : string) :
  foldCase mid = foldCase s ->
  Sql.likeMatch p rest = true ->
  Sql.likeMatch (s ++ p)%string (mid ++ rest)%string = true.
Proof.
  revert mid. induction s as [|a s IH]; intros [|c mid]; simpl; try discriminate.
  - intros _ H. exact H.
  - intros [= Hc Hmid] H. specialize (IH mid Hmid H).
    destruct (Ascii.eqb a "%") eqn:Ea.
    + apply Ascii.eqb_eq in Ea. subst a.
      change (Sql.likeMatch (String "%" (s ++ p)) (String c (mid ++ rest)) = true).
      rewrite likeMatch_star. apply orb_true_iff. right.
      rewrite likeMatch_star, IH. reflexivity.
    + rewrite IH, andb_true_r. apply orb_true_iff. right.
      apply Ascii.eqb_eq. now symmetry.
Qed.

Lemma likeMatch_contains (s pre mid post : string) :
  foldCase mid = foldCase s ->
  Sql.likeMatch ("%" ++ s ++ "%")%string (pre ++ mid ++ post)%string = true.
Proof.
  intros H. cbn [String.append]. apply likeMatch_skip.
  rewrite likeMatch_star. apply orb_true_iff. left.
  apply likeMatch_literal; [exact H | apply likeMatch_percent].
Qed.

Lemma untilNul_noNul (s : string) : noNul s = true -> Sql.untilNul s = s.
Proof.
  induction s as [|c s IH]; simpl; [reflexivity|].
  destruct (Ascii.eqb c Ascii.zero); simpl; [discriminate|].
  intros H. now rewrite IH.
Qed.

Lemma untilNul_app (a b : string) :
  noNul a = true -> Sql.untilNul (a ++ b)%string = (a ++ Sql.untilNul b)%string.
Proof.
  induction a as [|c a IH]; simpl; [reflexivity|].
  destruct (Ascii.eqb c Ascii.zero); simpl; [discriminate|].
  intros H. now rewrite IH.
Qed.

Lemma noNul_app (a b : string) : noNul (a ++ b)%string = noNul a && noNul b.
Proof.
  induction a as [|c a IH]; simpl; [reflexivity|].
  now rewrite IH, andb_assoc.
Qed.

Lemma likeFold_zero (c : ascii) :
  Ascii.eqb (Sql.likeFold c) Ascii.zero = Ascii.eqb c Ascii.zero.
Proof.
  destruct c as [[] [] [] [] [] [] [] []]; reflexivity.
Qed.

Lemma noNul_foldCase (s : string) : noNul (foldCase s) = noNul s.
Proof.
  induction s as [|c s IH]; simpl; [reflexivity|].
  now rewrite likeFold_zero, IH.
Qed.

(** A text that contains the search text before any U+0000 matches the
    pattern the store builds from it. *)
Lemma like_contains (s pre mid post : string) :
  noNul s = true ->
  noNul pre = true ->
  foldCase mid = foldCase s ->
  Sql.like ("%" ++ s ++ "%")%string (pre ++ mid ++ post)%string = true.
Proof.
  intros Hs Hpre Hfold. unfold Sql.like.
  assert (Hmid : noNul mid = true)
    by now rewrite <- noNul_foldCase, Hfold, noNul_foldCase.
  rewrite (untilNul_noNul ("%" ++ s ++ "%")%string)
    by (cbn [String.append noNul]; rewrite noNul_app, Hs; reflexivity).
  rewrite (untilNul_app pre) by exact Hpre.
  rewrite (untilNul_app mid) by exact Hmid.
  now apply likeMatch_contains.
Qed.

Lemma whereClauses_search_only (search : string) (limit offset : option Z) :
  nonEmpty (Js.trim search) = true ->
  whereClauses (withSearch (noFilters limit offset) (Some search))
  = Ok [Sql.LikeSearch ("%" ++ Js.trim search ++ "%")%string].
Proof.
  intros H. unfold whereClauses.
  cbn [withSearch noFilters MemoryFilters.search MemoryFilters.tags
       MemoryFilters.minImportance MemoryFilters.maxImportance MemoryFilters.before
       MemoryFilters.after].
  now rewrite trim_nonEmpty, H.
Qed.

(** X19. The search finds what contains the text: on a table the store
    wrote, a row whose content or title contains the trimmed search text,
    upper and lower case of the ASCII letters not told apart, with no U+0000
    in the search text nor in the content or title before the place where it
    occurs, is counted in the [total] of every listing by that search that
    returns, and it is among the items whenever the total fits in the
    page. *)
Theorem listMemories_search_finds (search : string) (limit : option Z) (db : table)
  (row : Row.t) (pre mid post : string) (r : MemoryListResult.t) :
  storedTable db = true ->
  In row db ->
  nonEmpty (Js.trim search) = true ->
  noNul (Js.trim search) = true ->
  noNul pre = true ->
  Row.content row = (pre ++ mid ++ post)%string \/
  Row.title row = Some (pre ++ mid ++ post)%string ->
  foldCase mid = foldCase (Js.trim search) ->
  listMemories (withSearch (noFilters limit None) (Some search)) db = Ok r ->
  exists m,
    mapRow row = Ok m /\
    1 <= MemoryListResult.total r /\
    (MemoryListResult.total r <= MemoryListResult.limit r ->
     In m (MemoryListResult.items r)).
Proof.
  intros Hdb Hin Hsearch Hnul Hpre Htext Hfold Hr.
  set (filters := withSearch (noFilters limit None) (Some search)) in *.
  destruct (listMemories_stored filters db Hdb) as (w & items & Hw & Hitems & Hlist).
  rewrite Hlist in Hr. injection Hr as <-.
  unfold filters in Hw. rewrite (whereClauses_search_only _ _ _ Hsearch) in Hw.
  injection Hw as <-.
  set (w := [Sql.LikeSearch ("%" ++ Js.trim search ++ "%")%string]) in *.
  assert (Hkept : kept w row = true).
  { unfold kept, Sql.whereHolds, w. cbn [mapM bind Sql.evalClause forallb].
    rewrite andb_true_r.
    destruct Htext as [-> | ->].
    - rewrite (like_contains _ pre mid post Hnul Hpre Hfold).
      now destruct (Sql.like3 (Row.title row) _) as [[]|].
    - cbn [Sql.like3]. now rewrite (like_contains _ pre mid post Hnul Hpre Hfold). }
  assert (Hrow : In row (filter (kept w) db)) by (apply filter_In; now split).
  pose proof (storedTable_Forall db Hdb) as Hall. rewrite Forall_forall in Hall.
  destruct (mapRow_stored row (Hall row Hin)) as (m & Hm & _).
  exists m. split; [exact Hm|].
  cbn [MemoryListResult.total MemoryListResult.limit MemoryListResult.items].
  split.
  - assert (Hlen : 1 <= Z.of_nat (List.length (filter (kept w) db)))
      by (destruct (filter (kept w) db); [destruct Hrow | cbn [List.length]; lia]).
    exact Hlen.
  - intros Hfits. unfold Sql.limitOffset in Hitems.
    destruct (limitSafe_clamped filters) as [_ Hl].
    destruct (Z.ltb_spec (limitSafe filters) 0); [lia|].
    replace (offsetSafe filters) with 0 in Hitems by reflexivity.
    cbn [Z.to_nat skipn] in Hitems.
    rewrite firstn_all2 in Hitems by (rewrite orderBy_length; lia).
    destruct (mapM_In _ _ _ row Hitems) as (m' & Hm' & Hin').
    + now apply orderBy_In.
    + congruence.
Qed.

Lemma listMemories_search_finds_witness :
  let row := Row.mk "m1" (Some "Shopping") "Buy 50% MORE milk" INull
                    (JsonText (JArr [])) (JsonText emptyObject) "2024-01-01" "2024-01-01" in
  let m := MemoryRecord.mk "m1" (Some "Shopping") "Buy 50% MORE milk" None [] emptyObject
                           "2024-01-01" "2024-01-01" in
  let r := MemoryListResult.mk [m] 1 50 0 in
  listMemories (withSearch (noFilters None None) (Some "  50% more ")) [row] = Ok r /\
  1 <= MemoryListResult.total r /\
  (MemoryListResult.total r <= MemoryListResult.limit r ->
   In m (MemoryListResult.items r)).
Proof.
  intros row m r. split; [reflexivity|].
  destruct (listMemories_search_finds "  50% more " None [row] row "Buy " "50% MORE" " milk" r)
    as (m' & Hm & Htotal & Hitems).
  - reflexivity.
  - now left.
  - reflexivity.
  - reflexivity.
  - reflexivity.
  - now left.
  - reflexivity.
  - reflexivity.
  - split; [exact Htotal|]. injection Hm as <-. exact Hitems.
Defined.

(* ------------------------------------------------------------------------- *)
(** ** The most recent memory comes first *)

Lemma ltb_irrefl (s : string) : String.ltb s s = false.
Proof.
  unfold String.ltb. pose proof (String.compare_antisym s s) as H.
  now destruct (String.compare s s).
Qed.

Lemma insertDesc_head (t : Row.t) (sorted : list Row.t) :
  (forall y, In y sorted -> String.ltb (Row.updated_at t) (Row.updated_at y) = false) ->
  Sql.insertDesc t sorted = t :: sorted.
Proof.
  destruct sorted as [|y sorted]; [reflexivity|]. intros H. simpl.
  now rewrite (H y (or_introl eq_refl)).
Qed.

(** A row that is later than every other row heads the sorted rows. *)
Lemma orderBy_head (t : Row.t) (rows : list Row.t) :
  In t rows ->
  (forall x, In x rows ->
             x = t \/ String.ltb (Row.updated_at x) (Row.updated_at t) = true) ->
  exists rest, Sql.orderByUpdatedAtDesc rows = t :: rest.
Proof.
  induction rows as [|x rows IH]; intros Hin Hmax; [destruct Hin|].
  change (Sql.orderByUpdatedAtDesc (x :: rows))
    with (Sql.insertDesc x (Sql.orderByUpdatedAtDesc rows)).
  destruct (Hmax x (or_introl eq_refl)) as [-> | Hlt].
  - exists (Sql.orderByUpdatedAtDesc rows). apply insertDesc_head.
    intros y Hy. apply (proj1 (orderBy_In y rows)) in Hy.
    destruct (Hmax y (or_intror Hy)) as [-> | Hlt]; [apply ltb_irrefl|].
    now apply notBelow_of_ltb.
  - assert (Ht : In t rows).
    { destruct Hin as [-> | Hin]; [|exact Hin]. now rewrite ltb_irrefl in Hlt. }
    destruct (IH Ht) as [rest ->]; [intros y Hy; apply Hmax; now right|].
    simpl. rewrite Hlt. eauto.
Qed.

Lemma first_page_head (limit offset : option Z) (t : Row.t) (rest : list Row.t)
  (items : list MemoryRecord.t) :
  offset = None \/ offset = Some 0 ->
  mapM mapRow (Sql.limitOffset (limitSafe (noFilters limit offset))
                 (offsetSafe (noFilters limit offset)) (t :: rest)) = Ok items ->
  exists m others, mapRow t = Ok m /\ items = m :: others.
Proof.
  intros Hoffset H. unfold Sql.limitOffset in H.
  destruct (limitSafe_clamped (noFilters limit offset)) as [_ Hl].
  destruct (Z.ltb_spec (limitSafe (noFilters limit offset)) 0); [lia|].
  replace (offsetSafe (noFilters limit offset)) with 0 in H
    by (destruct Hoffset as [-> | ->]; reflexivity).
  cbn [Z.to_nat skipn] in H.
  destruct (Z.to_nat (limitSafe (noFilters limit offset))) as [|k] eqn:Ek; [lia|].
  cbn [firstn mapM] in H. apply bind_Ok in H as (m & Hm & H).
  apply bind_Ok in H as (others & _ & [= <-]). eauto.
Qed.

(** X20. The newest memory is listed first: when the clock value of a
    creation is later than the [updated_at] of every row already in the
    table, the record [addMemory] returned is the first item of every
    unfiltered listing that starts at offset 0. *)
Theorem addMemory_listed_first (input : MemoryCreateInput.t) (id now : string)
  (db db' : table) (m : MemoryRecord.t) (limit : option Z) (r : MemoryListResult.t) :
  addMemory input id now db = Ok (m, db') ->
  Forall (fun row => String.ltb (Row.updated_at row) now = true) db ->
  listMemories (noFilters limit None) db' = Ok r ->
  exists others, MemoryListResult.items r = m :: others.
Proof.
  intros Hadd Hold Hlist.
  apply addMemory_inv in Hadd as (_ & row & -> & _ & Hm & Hnow).
  destruct (listMemories_Ok _ _ _ Hlist) as (w & rows & Hw & Hrows & Hitems & _).
  cbv in Hw. injection Hw as <-. rewrite selectWhere_nil in Hrows. injection Hrows as <-.
  destruct (orderBy_head row (db ++ [row])) as [rest Hsorted].
  - apply in_app_iff. right. now left.
  - intros x Hx. apply in_app_iff in Hx as [Hx | [<- | []]]; [right | now left].
    rewrite Forall_forall in Hold. rewrite Hnow. now apply Hold.
  - rewrite Hsorted in Hitems.
    destruct (first_page_head limit None row rest _ (or_introl eq_refl) Hitems)
      as (m' & others & Hm' & ->).
    exists others. congruence.
Qed.

Lemma addMemory_listed_first_witness :
  let row id updated := Row.mk id None "c" INull (JsonText (JArr [])) (JsonText emptyObject)
                               "2024-01-01" updated in
  let db := [row "a" "2024-01-02"; row "b" "2024-03-01"] in
  let input := MemoryCreateInput.mk (Some "t") "new" (Some 3) None None in
  exists m db' r others,
    addMemory input "c" "2024-04-01" db = Ok (m, db') /\
    listMemories (noFilters (Some 2) None) db' = Ok r /\
    MemoryListResult.items r = m :: others.
Proof.
  intros row db input.
  edestruct addMemory_listed_first
    with (input := input) (id := "c") (now := "2024-04-01") (db := db) (limit := Some 2)
    as [others H].
  - reflexivity.
  - repeat constructor.
  - reflexivity.
  - eexists _, _, _, others. split; [reflexivity|]. split; [reflexivity | exact H].
Defined.

(** X21. An updated memory is listed first: on a table that respects the
    primary key, when the clock value of a successful update is later than
    the [updated_at] of every other row, the first item of every unfiltered
    listing that starts at offset 0 is the updated memory, as [getMemory]
    reads it. *)
Theorem updateMemory_listed_first (input : MemoryUpdateInput.t) (now : string)
  (db db' : table) (m : MemoryRecord.t) (limit : option Z) (r : MemoryListResult.t) :
  uniqueIds db = true ->
  updateMemory input now db = Ok (Some m, db') ->
  (forall row, In row db -> Row.id row <> MemoryUpdateInput.id input ->
               String.ltb (Row.updated_at row) now = true) ->
  listMemories (noFilters limit None) db' = Ok r ->
  exists first others,
    MemoryListResult.items r = first :: others /\
    getMemory (MemoryUpdateInput.id input) db' = Ok (Some first).
Proof.
  intros Hu Hupd Hold Hlist.
  assert (Hget : exists existing,
             getMemory (MemoryUpdateInput.id input) db = Ok (Some existing)).
  { unfold updateMemory in Hupd.
    apply bind_Ok in Hupd as ([e|] & He & H); [eauto|discriminate]. }
  destruct Hget as [e Hget].
  destruct (updateMemory_found input now db e Hget)
    as (tags & db1 & _ & _ & Hdb1 & Hupd1 & _).
  rewrite Hupd1 in Hupd. injection Hupd as _ <-.
  apply getMemory_found in Hget as (row0 & Hrow0 & _).
  destruct (listMemories_Ok _ _ _ Hlist) as (w & rows & Hw & Hrows & Hitems & _).
  cbv in Hw. injection Hw as <-. rewrite selectWhere_nil in Hrows. injection Hrows as <-.
  pose proof (selectById_update (MemoryUpdateInput.id input)
                (nextTitle input e) (nextContent input e)
                (importanceCell (nextImportance input e)) (JSON_stringify (strs tags))
                (serializeJson (Some (nextMetadata input e))) now db) as Hsel.
  rewrite <- Hdb1, Hrow0 in Hsel. cbn [option_map] in Hsel.
  set (t := Row.mk (Row.id row0) (nextTitle input e) (nextContent input e)
                   (importanceCell (nextImportance input e)) (JSON_stringify (strs tags))
                   (serializeJson (Some (nextMetadata input e)))
                   (Row.created_at row0) now) in *.
  destruct (orderBy_head t db1) as [rest Hsorted].
  - unfold Sql.selectById in Hsel. now apply find_some in Hsel.
  - intros x Hx. rewrite Hdb1 in Hx. unfold Sql.update in Hx.
    apply in_map_iff in Hx as (x0 & <- & Hx0).
    destruct (String.eqb (Row.id x0) (MemoryUpdateInput.id input)) eqn:E.
    + left. apply String.eqb_eq in E.
      pose proof (selectById_In db x0 Hu Hx0) as Hx0'. rewrite E, Hrow0 in Hx0'.
      injection Hx0' as <-. reflexivity.
    + right. apply String.eqb_neq in E. cbn [Row.updated_at t]. now apply Hold.
  - rewrite Hsorted in Hitems.
    destruct (first_page_head limit None t rest _ (or_introl eq_refl) Hitems)
      as (first & others & Hfirst & ->).
    exists first, others. split; [reflexivity|].
    unfold getMemory. now rewrite Hsel, Hfirst.
Qed.

Lemma updateMemory_listed_first_witness :
  let row id updated := Row.mk id None "c" INull (JsonText (JArr [])) (JsonText emptyObject)
                               "2024-01-01" updated in
  let db := [row "a" "2024-01-02"; row "b" "2024-03-01"] in
  let input := MemoryUpdateInput.mk "a" (Value "t") None Undefined Undefined Undefined in
  exists m db' r first others,
    updateMemory input "2024-04-01" db = Ok (Some m, db') /\
    listMemories (noFilters None None) db' = Ok r /\
    MemoryListResult.items r = first :: others /\
    getMemory "a" db' = Ok (Some first).
Proof.
  intros row db input.
  edestruct updateMemory_listed_first
    with (input := input) (now := "2024-04-01") (db := db) (limit := @None Z)
    as (first & others & H1 & H2).
  - reflexivity.
  - reflexivity.
  - intros x [<- | [<- | []]] Hne; [now destruct Hne | reflexivity].
  - reflexivity.
  - eexists _, _, _, first, others.
    split; [reflexivity|]. split; [reflexivity|]. split; [exact H1 | exact H2].
Defined.

(* ------------------------------------------------------------------------- *)
(** ** Behind the request schema of [memory.add] *)

Lemma zod_string_inv (minLength : nat) (maxLength : option nat) (value out : string) :
  Zod.string minLength maxLength value = Some out ->
  out = Js.trim value /\ (minLength <= String.length out)%nat /\
  Zod.string minLength maxLength out = Some out.
Proof.
  unfold Zod.string. destruct (_ && _) eqn:E; [|discriminate]. intros [= <-].
  rewrite trim_idem, E. apply andb_prop in E as [E _]. apply Nat.leb_le in E. auto.
Qed.

Lemma zod_array_inv (value out : list string) :
  Zod.array (Zod.string 1 None) value = Some out ->
  Forall (fun t => Js.trim t = t /\ t <> "") out /\
  List.length out = List.length value /\
  Zod.array (Zod.string 1 None) out = Some out.
Proof.
  revert out. induction value as [|v value IH]; intros out; simpl.
  - intros [= <-]. repeat split. constructor.
  - destruct (Zod.string 1 None v) as [t|] eqn:Et; [|discriminate].
    destruct (Zod.array (Zod.string 1 None) value) as [ts|]; [|discriminate].
    intros [= <-]. destruct (IH ts eq_refl) as (Hall & Hlen & Hidem).
    apply zod_string_inv in Et as (-> & Hmin & Hagain).
    split; [|split].
    + constructor; [|exact Hall]. split; [apply trim_idem|].
      intros E. rewrite E in Hmin. simpl in Hmin. lia.
    + simpl. congruence.
    + simpl. now rewrite Hagain, Hidem.
Qed.

(** X22. Behind the request schema of [memory.add] the store's own
    normalisation has nothing left to repair: for arguments the schema
    accepted, [addMemory] returns the title, the content (never empty) and
    the importance exactly as validated, no clamping taking place, and the
    tags with nothing but repetitions in another case removed, at most 25 of
    them; the record is one of the data model, and validated arguments pass
    the schema again unchanged. *)
Theorem createMemoryInputSchema_addMemory (args input : MemoryCreateInput.t)
  (id now : string) (db db' : table) (m : MemoryRecord.t) :
  createMemoryInputSchema args = Some input ->
  addMemory input id now db = Ok (m, db') ->
  MemoryRecord.title m = MemoryCreateInput.title input /\
  MemoryRecord.content m = MemoryCreateInput.content input /\
  MemoryRecord.content m <> "" /\
  MemoryRecord.importance m = MemoryCreateInput.importance input /\
  MemoryRecord.tags m
  = filterSeen [] (match MemoryCreateInput.tags input with Some l => l | None => [] end) /\
  (List.length (MemoryRecord.tags m) <= 25)%nat /\
  validRecord m = true /\
  createMemoryInputSchema input = Some input.
Proof.
  unfold createMemoryInputSchema. intros Hschema Hadd.
  destruct (Zod.optional (Zod.string 1 (Some 200%nat)) (MemoryCreateInput.title args))
    as [title|] eqn:Etitle; [|discriminate].
  destruct (Zod.string 1 None (MemoryCreateInput.content args))
    as [content|] eqn:Econtent; [|discriminate].
  destruct (Zod.optional (Zod.int 0 10) (MemoryCreateInput.importance args))
    as [importance|] eqn:Eimp; [|discriminate].
  destruct (Zod.optional _ (MemoryCreateInput.tags args)) as [tags|] eqn:Etags;
    [|discriminate].
  injection Hschema as <-.
  cbn [MemoryCreateInput.title MemoryCreateInput.content MemoryCreateInput.importance
       MemoryCreateInput.tags MemoryCreateInput.metadata].
  (* the validated values *)
  assert (Htitle : Zod.optional (Zod.string 1 (Some 200%nat)) title = Some title).
  { unfold Zod.optional in *. destruct (MemoryCreateInput.title args) as [s|].
    - destruct (Zod.string 1 (Some 200%nat) s) as [t|] eqn:E; [|discriminate].
      injection Etitle as <-. apply zod_string_inv in E as (_ & _ & ->). reflexivity.
    - now injection Etitle as <-. }
  apply zod_string_inv in Econtent as (_ & Hcontent & Hcontent').
  assert (Himp : Zod.optional (Zod.int 0 10) importance = Some importance /\
                 importanceField importance = importance).
  { unfold Zod.optional, Zod.int in *. destruct (MemoryCreateInput.importance args) as [n|].
    - destruct ((0 <=? n) && (n <=? 10)) eqn:E; [|discriminate].
      injection Eimp as <-. simpl. rewrite E. split; [reflexivity|].
      rewrite clamp_fixed; [reflexivity | lia].
    - injection Eimp as <-. now split. }
  destruct Himp as [Himp Hclamp].
  assert (Htags :
    Zod.optional
      (fun l => if (List.length l <=? 25)%nat
                then Zod.array (Zod.string 1 None) l else None) tags = Some tags /\
    normalized (match tags with Some l => l | None => [] end)
    = filterSeen [] (match tags with Some l => l | None => [] end) /\
    (List.length (match tags with Some l => l | None => [] end) <= 25)%nat).
  { unfold Zod.optional in *. destruct (MemoryCreateInput.tags args) as [l|].
    - destruct (Nat.leb_spec (List.length l) 25); [|discriminate].
      destruct (Zod.array (Zod.string 1 None) l) as [ts|] eqn:E; [|discriminate].
      injection Etags as <-. apply zod_array_inv in E as (Hall & Hlen & Hidem).
      assert (Hle : (List.length ts <= 25)%nat) by lia.
      apply Nat.leb_le in Hle as Hle'. rewrite Hle', Hidem.
      split; [reflexivity|]. split; [|exact Hle].
      unfold normalized. rewrite map_fixed; [reflexivity|].
      eapply Forall_impl; [|exact Hall]. now intros t [Ht _].
    - injection Etags as <-. simpl. repeat split. lia. }
  destruct Htags as (Htags & Hnorm & Hlen).
  (* the record *)
  unfold addMemory in Hadd. rewrite normalizeTags_typed in Hadd. cbn [bind] in Hadd.
  apply bind_Ok in Hadd as (t & _ & [= <- _]).
  cbn [MemoryRecord.title MemoryRecord.content MemoryRecord.importance MemoryRecord.tags
       MemoryCreateInput.title MemoryCreateInput.content MemoryCreateInput.importance
       MemoryCreateInput.tags MemoryCreateInput.metadata].
  assert (Etagsm : match tags with Some l => normalized l | None => [] end
                   = filterSeen [] (match tags with Some l => l | None => [] end)).
  { destruct tags; [exact Hnorm | reflexivity]. }
  split; [reflexivity|]. split; [reflexivity|].
  split; [intros E; rewrite E in Hcontent; simpl in Hcontent; lia|].
  split; [exact Hclamp|]. split; [exact Etagsm|].
  split; [rewrite Etagsm; etransitivity; [apply filterSeen_length | exact Hlen]|].
  split.
  - unfold validRecord. cbn [MemoryRecord.importance MemoryRecord.metadata].
    apply andb_true_intro. split.
    + destruct importance as [n|]; simpl; [|reflexivity].
      pose proof (clamp_range n). apply andb_true_intro. lia.
    + now destruct (MemoryCreateInput.metadata args).
  - now rewrite Htitle, Hcontent', Himp, Htags.
Qed.

Lemma createMemoryInputSchema_addMemory_witness :
  let args := MemoryCreateInput.mk (Some "  Groceries ") " buy milk  " (Some 7)
                (Some [" Home "; "home"; "Shop"]) (Some [("k", JNum 1)]) in
  let input := MemoryCreateInput.mk (Some "Groceries") "buy milk" (Some 7)
                 (Some ["Home"; "home"; "Shop"]) (Some [("k", JNum 1)]) in
  createMemoryInputSchema args = Some input /\
  exists m db',
    addMemory input "m1" "2024-01-01" [] = Ok (m, db') /\
    MemoryRecord.title m = Some "Groceries" /\
    MemoryRecord.content m = "buy milk" /\
    MemoryRecord.importance m = Some 7 /\
    MemoryRecord.tags m = ["Home"; "Shop"].
Proof.
  intros args input. split; [reflexivity|].
  eexists _, _. split; [reflexivity|].
  edestruct createMemoryInputSchema_addMemory
    with (args := args) (input := input) (id := "m1") (now := "2024-01-01")
         (db := @nil Row.t)
    as (Ht & Hc & _ & Hi & Hg & _).
  - reflexivity.
  - reflexivity.
  - split; [exact Ht|]. split; [exact Hc|]. split; [exact Hi | exact Hg].
Defined.

(* ------------------------------------------------------------------------- *)
(** ** The time window *)

Lemma kept_clause (w : list Sql.clause) (row : Row.t) (c : Sql.clause) :
  kept w row = true -> In c w ->
  exists v, Sql.evalClause c row = Ok v /\ Sql.isTrue v = true.
Proof.
  unfold kept, Sql.whereHolds. intros Hkept Hin.
  destruct (mapM (fun c => Sql.evalClause c row) w) as [vs|] eqn:Hvs; [|discriminate].
  cbn [bind] in Hkept. destruct (mapM_In _ _ _ _ Hvs Hin) as (v & Hv & Hin').
  exists v. split; [exact Hv|]. rewrite forallb_forall in Hkept. now apply Hkept.
Qed.

(** X23. Whatever the table holds, every item of a listing lies in the
    requested time window: its [updatedAt] is not after a non-empty
    [before] and not before a non-empty [after], compared as strings. *)
Theorem listMemories_time_window (filters : MemoryFilters.t) (db : table)
  (r : MemoryListResult.t) :
  listMemories filters db = Ok r ->
  Forall (fun m =>
            (forall before, MemoryFilters.before filters = Some before ->
                            before <> "" ->
                            String.leb (MemoryRecord.updatedAt m) before = true) /\
            (forall after, MemoryFilters.after filters = Some after ->
                           after <> "" ->
                           String.leb after (MemoryRecord.updatedAt m) = true))
         (MemoryListResult.items r).
Proof.
  intros Hlist.
  destruct (listMemories_Ok _ _ _ Hlist) as (w & rows & Hw & Hrows & Hitems & _).
  apply selectWhere_filter in Hrows. subst rows. apply mapM_Forall2 in Hitems.
  eapply (Forall2_Forall_l (fun row => kept w row = true)); [|exact Hitems|].
  - intros row m Hkept Hm. cbv beta in Hm. rewrite (mapRow_updatedAt _ _ Hm).
    unfold whereClauses in Hw. apply bind_Ok in Hw as (byTags & _ & [= <-]).
    split.
    + intros before Eb Hne. rewrite Eb in Hkept.
      apply String.eqb_neq in Hne. unfold nonEmpty in Hkept. rewrite Hne in Hkept.
      destruct (kept_clause _ row (Sql.UpdatedLe before) Hkept) as (v & Hv & Htrue).
      { rewrite !in_app_iff. do 4 right. left. now left. }
      simpl in Hv. injection Hv as <-.
      simpl in Htrue. now destruct (String.leb (Row.updated_at row) before).
    + intros after Ea Hne. rewrite Ea in Hkept.
      apply String.eqb_neq in Hne. unfold nonEmpty in Hkept. rewrite Hne in Hkept.
      destruct (kept_clause _ row (Sql.UpdatedGe after) Hkept) as (v & Hv & Htrue).
      { rewrite !in_app_iff. do 5 right. now left. }
      simpl in Hv. injection Hv as <-.
      simpl in Htrue. now destruct (String.leb after (Row.updated_at row)).
  - apply limitOffset_Forall, orderBy_Forall, Forall_forall.
    intros row Hrow. now apply filter_In in Hrow.
Qed.

Lemma listMemories_time_window_witness :
  let row id updated := Row.mk id None "c" (IOther 31) (JsonText (JArr [])) Malformed
                               "2024-01-01" updated in
  let rec id updated := MemoryRecord.mk id None "c" (Some 31) [] emptyObject
                                        "2024-01-01" updated in
  let db := [row "a" "2024-01-02"; row "b" "2024-03-01"; row "c" "2024-02-01"] in
  let filters := MemoryFilters.mk None None None None None None
                                  (Some "2024-02-15") (Some "2024-01-01") in
  let r := MemoryListResult.mk [rec "c" "2024-02-01"; rec "a" "2024-01-02"] 2 50 0 in
  listMemories filters db = Ok r /\
  Forall (fun m => String.leb (MemoryRecord.updatedAt m) "2024-02-15" = true /\
                   String.leb "2024-01-01" (MemoryRecord.updatedAt m) = true)
         (MemoryListResult.items r).
Proof.
  intros row rec db filters r. split; [reflexivity|].
  eapply Forall_impl; [|exact (listMemories_time_window filters db r eq_refl)].
  intros m [Hb Ha]. split; [apply (Hb _ eq_refl) | apply (Ha _ eq_refl)]; discriminate.
Defined.
